(* ===== verification/_CoqProject ===== *)
-Q . S2P
Prelude.v
Md5.v
Http.v
Json.v
UserModel.v
Validation.v
Services.v
Upload.v
Handlers.v
Responses.v
Wire.v
Router.v
Api.v
Concurrency.v
Accounts.v
Mailer.v
