(* ===== verification/Prelude.v ===== *)
(** * A verification development for the user-account REST API

    The program is an Express router for user accounts,
    [src/routes/api/users.js], over a Mongoose model,
    [src/db/usersSchema.js], with a mail helper,
    [src/routes/midleware/sendEmail.js].  A request goes through its
    route's middleware chain (the bearer-token check [passportAuthenticate]
    of [auth.js], multer for the avatar upload), then the handler's
    awaited calls: Joi validation, the [User] collection ([create],
    [findOne], [findByIdAndUpdate]), bcrypt, gravatar, [path.join] and
    [fs.rename]; what a handler throws goes to the central error
    middleware.  The development is a shallow embedding: each function
    is a Rocq function, each handler a computation of a state and
    exception monad over the collection and the disk.

    ** Files, in dependency order
    - [Prelude.v] (this file): the monad [stexn] ([S -> S * (E + A)]),
      whose state survives a throw as an awaited call's effects do; its
      [preserves] and [returns] combinators for invariants and response
      properties; JavaScript string helpers ([js_split], [js_join],
      [to_lower]) and their lemmas; the scope [api_scope] and the hint
      databases [api], [api_rw].
    - [Md5.v], Module [MD5]: the MD5 digest of RFC 1321 that gravatar
      applies to the address, on the UTF-8 bytes of the string, with
      32-bit words as [Z] and every addition's wrap-around written out.
    - [Http.v]: JSON values, [req.body] lookup, [HttpError] and runtime
      errors ([thrown]), [res.json] and the error middleware
      ([error_handler]); the middleware and [helpers/index.js] are not
      under [src/] and follow the spec.
    - [Json.v], Module [Json]: the text of JSON values: [JSON.stringify]
      ([stringify], with [QuoteJSONString]'s escapes) and the recursive
      descent of [JSON.parse] ([value], [elements], [members], with fuel;
      [JSON_parse] on a whole text).
    - [UserModel.v], Module [User]: the schema (paths, defaults,
      [required], [enum], unique [email]) and the calls the handlers make,
      over a list of documents in insertion order with a fresh-id counter;
      the schema invariant [store_wf].
    - [Validation.v], Module [Joi]: [validateUser]: the address library's
      email rule on ASCII strings, the password pattern and [min(7)],
      first error first, with Joi's messages.
    - [Services.v]: type classes for what the handlers rely on in
      libraries: [PasswordHasher] (bcrypt), [TokenService]
      ([generateToken]/[verifyToken] of [auth.js], from the spec), [Md5]
      (gravatar's digest, with the RFC implementation of [Md5.v] as its
      instance); [gravatar_url] over [String.prototype.trim] and
      lower-casing; toy bcrypt and token instances in [ExampleServices]
      to evaluate witnesses.
    - [Upload.v]: Node's POSIX [path.join]/[normalize] (Module [Path]),
      multer's [file.originalname] ([busboy_basename]), the disk as a
      [gmap] with [fs.rename] (Module [Disk]), [upload.single("avatar")]
      ([multer_single]).
    - [Handlers.v], Module [Users]: [register], [login], [logout],
      [current], [updateSubscription], [updateAvatar], the route table
      [route_handler] and [serve]; Module [UsersFacts]: their theorems,
      proved against the interfaces of [Services.v] in a Section;
      Module [UsersExamples]: the witnesses on a concrete server.
    - [Responses.v], Module [Responses]: a schema language for JSON
      bodies ([jtype], [has_type]) and the contract of each route's
      response (spec sections 6 and 7).
    - [Wire.v], Module [Wire]: the HTTP exchange: [express.json()]'s
      body parser ([body_parser]: the 100kb limit, strict JSON, from
      [app.js], which is not under [src/]), the route ([serve]) and the text [res.json] sends
      ([wire]), composed in [exchange].
    - [Router.v], Module [Router]: the Express router of [users.js]
      mounted under [/users]: path matching as path-to-regexp 0.1 does
      it ([path_matches], [mount_strip]), the first route that matches
      and handles the method ([router]), [HEAD] and the automatic
      [OPTIONS] answer; [handle]: the body parser, the router, the
      exchange.
    - [Api.v], Module [Api]: the service as a transition system ([step]
      serves one request of any route; [reachable]) and its invariants,
      by rule induction.
    - [Concurrency.v], Module [Concurrency]: each route as a program
      whose [Await] nodes are its awaited calls ([route_p]), read
      sequentially by [run]; a pool of pending requests ([cstep]) where
      any request takes its next atomic step, as Node's event loop
      interleaves handlers at their [await]s (spec section 5).
    - [Accounts.v], Module [Accounts]: an abstract specification of the
      collection as a [gmap] from email to account ([view], [dir_step]),
      and refinement theorems for [create], [findByIdAndUpdate], for
      every run of the service and for every interleaving of requests.
    - [Mailer.v], Module [Mailer]: [sendVerificationEmail]: transport
      configuration, link, mail options, and the promise settled by the
      transport's callback; the verify route the link targets (not in the
      repository; the spec gives the link's form) as Express 4 would run
      it: the path a client requests, path-to-regexp's parameter, and
      [decodeURIComponent] ([verify_route], [link_token]).

    ** What the theorems show
    - Registration never persists (C1): [register] calls [User.create]
      without the schema-required [verificationToken], so validation
      fails on every new user; hence no request ever adds an account
      (C3), and from an empty collection no login ever succeeds (C4).
    - Invariants of every reachable state (C2, C3) and a refinement of an
      abstract directory (C19, and C28 for concurrent requests): the
      only changes any sequence or interleaving of requests makes are
      subscription changes within the enum and avatar changes; the only
      write that bypasses the schema's validators (C20) is guarded by the
      handler (C9).
    - Functional behaviour of each route on each branch: login (C5-C8),
      subscription update (C9, C10), the avatar route (C16, C17, C18),
      the authorization chain (C11) and logout (C12, C13); no response
      has a [password] key (C14), but Joi's pattern message quotes a
      refused password back to the client (C15).
    - Validation: the exact set of inputs [validateUser] accepts (C21).
    - The verification mail: a token is read back from its link by the
      verify route the spec's link form targets exactly when it is not
      empty and holds none of [/ ? # %] (C22, C23): the code does not
      encode it.
    - Concurrency (C24, C25): the schema invariant and the set of
      accounts hold at every point of every interleaving of requests
      (C24); concurrent subscription and avatar updates of one user lose
      neither (C25).  That the programs with await points are the
      handlers, that every schedule terminates and that a request alone
      is answered as [serve] answers it are lemmas of [Concurrency.v].
    - Every response has the documented shape (C26); two uploads of the
      same file name share one file (C27).
    - Routing (C29, C30): the router sends a request to a handler exactly
      by the route table of [users.js] (C29), and answers [OPTIONS]
      itself exactly on the table's paths with the methods registered
      there (C30).
    The library models ([Md5.v], [Json.v], [Wire.v], the [HEAD] rule and
    the application [handle] of [Router.v]) carry their own lemmas: the
    digest's shape and the RFC suite, the JSON round trip and the
    parser's fuel, the exchange's refinement of [serve]; they are about
    the libraries the code calls, not claims about the code.
    The findings (register, the literal ["starter"] of login, logout
    without a header, the password in the 400 message, the file moved
    before the 404 of the avatar route, the unencoded token, the shared
    avatar file, the requests the router answers beyond the spec's six
    routes) are stated as theorems about the code as it is.

    ** Bounds and simplifications
    Every recursion is structural (on strings, lists, path segments and
    programs; MD5's block count is computed from the padded length) but
    the JSON parser's, whose fuel is twice the text's length and one:
    each fuel unit is paid by a character read, so it is enough for
    every text ([Json.parse_fuel_enough]).  Every operation is total and every witness
    evaluates by [vm_compute].  The termination of concurrent schedules
    is a theorem ([Concurrency.requests_terminate]), by well-founded induction on the programs left
    to run.  Numbers are [nat] and [Z] without width except in MD5,
    whose words are 32-bit with explicit wrap-around; the handlers do no
    machine arithmetic.  A string is a sequence of code units 0-255: the
    email rule rejects a code unit above 127 where the library would
    apply its Unicode rules, and MD5 hashes the UTF-8 encoding of each
    unit.  JSON numbers are kept as written, an integer as [JNum] and a
    number with a fraction or an exponent as its mantissa and exponent
    ([JDec]), where [JSON.parse] rounds to a double; [JSON.stringify]
    prints the latter as [<m>e<e>], which no response holds.  A
    [\uXXXX] escape above [\u00ff], which the values cannot hold, is
    refused; so is a body above [express.json()]'s 100kb limit (413,
    before parsing).  The verify route's [decodeURIComponent] decodes
    UTF-8 in full and reports a code point above [U+00FF] as such
    ([WideParam]).

    ** Not modelled
    [auth.js], [helpers/index.js] and [app.js] are not under [src/]:
    the token check, [HttpError], the JSON body parser and the error
    middleware follow the spec and the libraries' documented defaults;
    the message of a body's [SyntaxError] is the JavaScript engine's
    and stays a parameter.  The bearer token [passportAuthenticate]
    accepts is read as the handlers read it ([split(" ")], exactly a
    scheme and a token); passport-jwt's own extraction
    ([/(\S+)\s+(\S+)/]) would also accept other white space, for which
    [GET /users/current] would answer without its [token] key.  The token's expiry (spec 4.6) is not
    modelled: there is no clock, and a token verifies as long as its
    user exists.  bcrypt and the JWT signature are interfaces with the laws the
    handlers rely on, not algorithms (bcrypt's Blowfish rounds and the
    signature's HMAC are cryptography the code only calls).  The mount
    path [/users] of [app.js] is taken from the spec and the route
    comments of [users.js]; a request no route answers leaves the
    router for the rest of [app.js] ([NotFound]).  MongoDB and
    nodemailer's transport are libraries whose effects appear only
    through the operations above; each database or
    disk call is one atomic step of [cstep], as the store's own
    concurrency control makes it. *)

From stdpp Require Export base list gmap strings.
From Stdlib Require Export Ascii String ZArith.

(** ** Notation scope of the development *)

Declare Scope api_scope.
Delimit Scope api_scope with api.
Open Scope api_scope.

(** ** Hint database of the development *)

Create HintDb api discriminated.
Create Rewrite HintDb api_rw.

(** ** A state and exception monad.

    An Express handler runs a sequence of awaited calls; each call may
    change the outside world (the document store, the disk) and then a
    later call may throw.  Effects done before a throw are not undone, so
    the monad returns the state on both branches. *)

Section StExn.
Context {S E : Type}.

Definition stexn (A : Type) : Type := S -> S * (E + A).

Definition ret {A} (a : A) : stexn A := fun s => (s, inr a).
Definition throw {A} (e : E) : stexn A := fun s => (s, inl e).
Definition bind {A B} (m : stexn A) (k : A -> stexn B) : stexn B :=
  fun s => match m s with
           | (s', inl e) => (s', inl e)
           | (s', inr a) => k a s'
           end.
Definition gets {A} (f : S -> A) : stexn A := fun s => (s, inr (f s)).
Definition modify (f : S -> S) : stexn unit := fun s => (f s, inr tt).
(** [try { m } catch (e) { h e }] *)
Definition catch {A} (m : stexn A) (h : E -> stexn A) : stexn A :=
  fun s => match m s with
           | (s', inl e) => h e s'
           | r => r
           end.

Lemma bind_ret_l {A B} (a : A) (k : A -> stexn B) s :
  bind (ret a) k s = k a s.
Proof. reflexivity. Qed.

Lemma bind_throw {A B} (e : E) (k : A -> stexn B) s :
  bind (throw e) k s = (s, inl e).
Proof. reflexivity. Qed.

Lemma bind_assoc {A B C} (m : stexn A) (k : A -> stexn B) (h : B -> stexn C) s :
  bind (bind m k) h s = bind m (fun a => bind (k a) h) s.
Proof. unfold bind. destruct (m s) as [s' [e|a]]; reflexivity. Qed.
End StExn.

Arguments stexn : clear implicits.

(** ** Invariants of computations

    [preserves P m]: whatever [m] returns or throws, it keeps [P]. *)

Section Preserves.
Context {S E : Type} (P : S -> Prop).

Definition preserves {A} (m : stexn S E A) : Prop :=
  forall s s' r, P s -> m s = (s', r) -> P s'.

Lemma preserves_ret {A} (a : A) : preserves (ret a).
Proof. by intros s s' r Hs [= <- _]. Qed.

Lemma preserves_throw {A} (e : E) : preserves (A := A) (throw e).
Proof. by intros s s' r Hs [= <- _]. Qed.

Lemma preserves_gets {A} (f : S -> A) : preserves (gets f).
Proof. by intros s s' r Hs [= <- _]. Qed.

Lemma preserves_bind {A B} (m : stexn S E A) (k : A -> stexn S E B) :
  preserves m -> (forall a, preserves (k a)) -> preserves (bind m k).
Proof.
  intros Hm Hk s s' r Hs. unfold bind.
  destruct (m s) as [s1 [e|a]] eqn:E1; [intros [= <- _] | intros Hk1];
    [by eapply Hm | eapply Hk; [eapply Hm|]; eauto].
Qed.
End Preserves.

#[export] Hint Resolve preserves_ret preserves_throw preserves_gets : api.

(** [returns P m]: every value [m] returns satisfies [P]. *)

Section Returns.
Context {S E A : Type} (P : A -> Prop).

Definition returns (m : stexn S E A) : Prop :=
  forall s s' a, m s = (s', inr a) -> P a.

Lemma returns_ret a : P a -> returns (ret a).
Proof. by intros Ha s s' a' [= _ <-]. Qed.

Lemma returns_throw e : returns (throw e).
Proof. by intros s s' a [= _]. Qed.

Lemma returns_bind {B} (m : stexn S E B) (k : B -> stexn S E A) :
  (forall b, returns (k b)) -> returns (bind m k).
Proof.
  intros Hk s s' a. unfold bind.
  destruct (m s) as [s1 [e|b]]; [by intros [= _] | apply Hk].
Qed.
End Returns.

#[export] Hint Resolve returns_throw : api.

(** [throws P m]: every error [m] throws satisfies [P]. *)

Section Throws.
Context {S E : Type} (P : E -> Prop).

Definition throws {A} (m : stexn S E A) : Prop :=
  forall s s' e, m s = (s', inl e) -> P e.

Lemma throws_ret {A} (a : A) : throws (ret a).
Proof. by intros s s' e [= _]. Qed.

Lemma throws_throw {A} e : P e -> throws (A := A) (throw e).
Proof. by intros He s s' e' [= _ <-]. Qed.

Lemma throws_gets {A} (f : S -> A) : throws (gets f).
Proof. by intros s s' e [= _]. Qed.

Lemma throws_bind {A B} (m : stexn S E B) (k : B -> stexn S E A) :
  throws m -> (forall b, throws (k b)) -> throws (bind m k).
Proof.
  intros Hm Hk s s' e. unfold bind.
  destruct (m s) as [s1 [e1|b]] eqn:E1; [intros [= _ <-]; by eapply Hm | apply Hk].
Qed.
End Throws.

#[export] Hint Resolve throws_ret throws_gets : api.

Notation "x <- m ;; k" := (bind m (fun x => k))
  (at level 62, m at next level, right associativity) : api_scope.
Notation "m ;;; k" := (bind m (fun _ => k))
  (at level 62, right associativity) : api_scope.

#[export] Hint Rewrite @bind_ret_l @bind_throw @bind_assoc : api_rw.

(** ** Characters and strings as JavaScript sees them (ASCII only) *)

(** String comparison is decided by [String.eqb_spec] in proofs, never
    by unfolding it on literals. *)
#[global] Arguments String.eqb : simpl never.
#[global] Arguments Ascii.eqb : simpl never.

Definition is_digit (c : ascii) : bool :=
  let n := nat_of_ascii c in (48 <=? n) && (n <=? 57).
Definition is_upper (c : ascii) : bool :=
  let n := nat_of_ascii c in (65 <=? n) && (n <=? 90).
Definition is_lower (c : ascii) : bool :=
  let n := nat_of_ascii c in (97 <=? n) && (n <=? 122).
Definition is_alpha (c : ascii) : bool := is_upper c || is_lower c.
(** The character class [[a-zA-Z0-9]]. *)
Definition is_alnum (c : ascii) : bool := is_alpha c || is_digit c.

(** [String.prototype.toLowerCase] on one ASCII character. *)
Definition ascii_to_lower (c : ascii) : ascii :=
  if is_upper c then ascii_of_nat (nat_of_ascii c + 32) else c.

Fixpoint str_map (f : ascii -> ascii) (s : string) : string :=
  match s with
  | EmptyString => EmptyString
  | String c r => String (f c) (str_map f r)
  end.

Definition to_lower (s : string) : string := str_map ascii_to_lower s.

(** Every character of [s] satisfies [p]. *)
Fixpoint str_forall (p : ascii -> bool) (s : string) : bool :=
  match s with
  | EmptyString => true
  | String c r => p c && str_forall p r
  end.

(** Some character of [s] satisfies [p]. *)
Fixpoint str_exists (p : ascii -> bool) (s : string) : bool :=
  match s with
  | EmptyString => false
  | String c r => p c || str_exists p r
  end.

(** [s.split(sep)] for a one-character separator: the pieces between the
    separators, empty pieces included; [""] gives [[""]]. *)
Fixpoint js_split (sep : ascii) (s : string) : list string :=
  match s with
  | EmptyString => [EmptyString]
  | String c r =>
      let rest := js_split sep r in
      if Ascii.eqb c sep then EmptyString :: rest
      else match rest with
           | [] => [String c EmptyString]
           | w :: ws => String c w :: ws
           end
  end.

(** [arr.join(sep)] *)
Fixpoint js_join (sep : string) (l : list string) : string :=
  match l with
  | [] => EmptyString
  | [w] => w
  | w :: ws => w +:+ sep +:+ js_join sep ws
  end.

Definition first_char (s : string) : option ascii :=
  match s with EmptyString => None | String c _ => Some c end.

Fixpoint last_char (s : string) : option ascii :=
  match s with
  | EmptyString => None
  | String c EmptyString => Some c
  | String _ r => last_char r
  end.

Definition opt_test (p : ascii -> bool) (o : option ascii) : bool :=
  match o with Some c => p c | None => false end.

(** [String.prototype.endsWith] *)
Definition ends_with (suffix s : string) : bool :=
  let n := String.length s in
  let k := String.length suffix in
  (k <=? n) && String.eqb (substring (n - k) k s) suffix.

(** The double quote, written by its code so that no literal holds it. *)
Definition dquote : ascii := ascii_of_nat 34.
Definition quoted (s : string) : string := String dquote (s +:+ String dquote EmptyString).

(** ** Generic lemmas on strings *)

(** stdpp makes [String.append] opaque to [simpl]; this is its step. *)
Lemma str_app_cons c (a b : string) : String c a +:+ b = String c (a +:+ b).
Proof. reflexivity. Qed.

Lemma str_app_nil_l (b : string) : EmptyString +:+ b = b.
Proof. reflexivity. Qed.

Lemma str_app_assoc (a b c : string) : (a +:+ b) +:+ c = a +:+ (b +:+ c).
Proof. induction a as [|x a IH]; [done | by rewrite !str_app_cons, IH]. Qed.

Lemma str_app_nil_r (a : string) : a +:+ EmptyString = a.
Proof. induction a as [|x a IH]; [done | by rewrite !str_app_cons, IH]. Qed.

Lemma str_length_app (a b : string) :
  String.length (a +:+ b) = String.length a + String.length b.
Proof. induction a as [|x a IH]; [done | by rewrite str_app_cons; simpl; rewrite IH]. Qed.

Lemma str_forall_app p (a b : string) :
  str_forall p (a +:+ b) = str_forall p a && str_forall p b.
Proof.
  induction a as [|x a IH]; [done|]. by rewrite str_app_cons; simpl; rewrite IH, andb_assoc.
Qed.

Lemma str_forall_exists p (s : string) :
  str_forall p s = negb (str_exists (fun c => negb (p c)) s).
Proof. induction s as [|x s IH]; simpl; [done | by rewrite IH; destruct (p x)]. Qed.

Lemma js_split_not_nil sep s : js_split sep s <> [].
Proof.
  destruct s as [|c r]; simpl; [done|].
  destruct (Ascii.eqb c sep); [done|]. by destruct (js_split sep r).
Qed.

(** A string without the separator is not split. *)
Lemma js_split_no_sep sep s :
  str_forall (fun c => negb (Ascii.eqb c sep)) s = true -> js_split sep s = [s].
Proof.
  induction s as [|c r IH]; simpl; [done|].
  intros [Hc Hr]%andb_prop. apply negb_true_iff in Hc. rewrite Hc, IH; done.
Qed.

(** Splitting [a ++ sep ++ b] where [a] holds no separator. *)
Lemma js_split_app_sep sep a b :
  str_forall (fun c => negb (Ascii.eqb c sep)) a = true ->
  js_split sep (a +:+ String sep b) = a :: js_split sep b.
Proof.
  induction a as [|c r IH].
  - simpl. by rewrite Ascii.eqb_refl.
  - rewrite str_app_cons. simpl. intros [Hc Hr]%andb_prop.
    apply negb_true_iff in Hc. rewrite Hc, IH; done.
Qed.

Lemma last_char_app (a b : string) :
  b <> EmptyString -> last_char (a +:+ b) = last_char b.
Proof.
  intros Hb. induction a as [|c a IH]; [done|].
  rewrite str_app_cons. simpl. rewrite IH.
  destruct a as [|c' a']; simpl; [by destruct b | done].
Qed.

Lemma str_forall_last p (s : string) :
  str_forall p s = true -> s <> EmptyString -> opt_test p (last_char s) = true.
Proof.
  induction s as [|c r IH]; [done|]. simpl. intros [Hc Hr]%andb_prop _.
  destruct r as [|c' r']; [done|]. by apply IH.
Qed.

Lemma js_join_cons2 sep x y (r : list string) :
  js_join sep (x :: y :: r) = x +:+ sep +:+ js_join sep (y :: r).
Proof. reflexivity. Qed.

Lemma js_join_snoc sep (l : list string) w :
  l <> [] -> js_join sep (l ++ [w]) = js_join sep l +:+ sep +:+ w.
Proof.
  induction l as [|x r IH]; [done|]. intros _. destruct r as [|y r']; [done|].
  rewrite <- !app_comm_cons, !js_join_cons2, app_comm_cons, IH by done.
  by rewrite !str_app_assoc.
Qed.

(** Splitting a join of separator-free pieces gives the pieces back. *)
Lemma js_split_join sep (l : list string) :
  l <> [] -> Forall (fun w => str_forall (fun c => negb (Ascii.eqb c sep)) w = true) l ->
  js_split sep (js_join (String sep EmptyString) l) = l.
Proof.
  induction l as [|x [|y r] IH]; [done | |].
  - intros _ Hx. inversion Hx. simpl. by apply js_split_no_sep.
  - intros _ Hall. inversion Hall as [|? ? Hx Hr]; subst.
    rewrite js_join_cons2, str_app_cons, str_app_nil_l.
    rewrite js_split_app_sep by done. by rewrite IH.
Qed.

#[export] Hint Resolve js_split_not_nil : api.
#[export] Hint Rewrite str_app_cons str_app_nil_l str_app_assoc str_app_nil_r
  str_length_app str_forall_app : api_rw.

(** ** Tactics of the development *)

(** Unfold the monad and evaluate a handler on its branches. *)
Ltac run_monad :=
  repeat (unfold bind, ret, throw, gets, modify, catch in *; simpl in *).

(** Split every boolean and option [match] in the goal, with equations. *)
Ltac split_guards :=
  repeat match goal with
         | |- context [match ?x with _ => _ end] =>
             lazymatch x with
             | context [match _ with _ => _ end] => fail
             | _ => destruct x eqn:?
             end
         end.
