(* ===== verification/Md5.v ===== *)
(** * MD5 (RFC 1321), the digest of [gravatar.url]

    [gravatar.url(email, ...)] of [src/routes/api/users.js] line 56 puts
    the hexadecimal MD5 digest of the normalised address in the avatar
    URL (node's [crypto.createHash("md5").update(str).digest("hex")], on
    the UTF-8 bytes of the string).  This file is that digest, written
    as RFC 1321 describes it, on 32-bit words kept as [Z] with the
    wrap-around of every addition written out ([add32]), and the
    rotation with [Z.shiftl], [Z.shiftr] and [Z.lor].

    A string of the development is a sequence of code units 0-255;
    [utf8] encodes each as UTF-8 does (one byte below 128, two above).
    The theorems: the padded message is a whole number of 64-byte
    blocks beginning with the message; every word of the state stays
    below 2^32; the digest is 32 lowercase hexadecimal digits; and the
    RFC's test suite. *)

From S2P Require Import Prelude.

Module MD5.
Local Open Scope Z_scope.

(** ** 32-bit words *)

Definition add32 (x y : Z) : Z := (x + y) mod 2 ^ 32.
Definition not32 (x : Z) : Z := Z.lxor x (2 ^ 32 - 1).
Definition rotl32 (x c : Z) : Z := Z.lor ((Z.shiftl x c) mod 2 ^ 32) (Z.shiftr x (32 - c)).

(** The per-step shift amounts. *)
Definition S_table : list Z :=
  [7; 12; 17; 22; 7; 12; 17; 22; 7; 12; 17; 22; 7; 12; 17; 22;
   5; 9; 14; 20; 5; 9; 14; 20; 5; 9; 14; 20; 5; 9; 14; 20;
   4; 11; 16; 23; 4; 11; 16; 23; 4; 11; 16; 23; 4; 11; 16; 23;
   6; 10; 15; 21; 6; 10; 15; 21; 6; 10; 15; 21; 6; 10; 15; 21].

(** [K[i] = floor(2^32 * |sin(i + 1)|)]. *)
Definition K_table : list Z :=
  [0xd76aa478; 0xe8c7b756; 0x242070db; 0xc1bdceee; 0xf57c0faf; 0x4787c62a; 0xa8304613; 0xfd469501;
   0x698098d8; 0x8b44f7af; 0xffff5bb1; 0x895cd7be; 0x6b901122; 0xfd987193; 0xa679438e; 0x49b40821;
   0xf61e2562; 0xc040b340; 0x265e5a51; 0xe9b6c7aa; 0xd62f105d; 0x02441453; 0xd8a1e681; 0xe7d3fbc8;
   0x21e1cde6; 0xc33707d6; 0xf4d50d87; 0x455a14ed; 0xa9e3e905; 0xfcefa3f8; 0x676f02d9; 0x8d2a4c8a;
   0xfffa3942; 0x8771f681; 0x6d9d6122; 0xfde5380c; 0xa4beea44; 0x4bdecfa9; 0xf6bb4b60; 0xbebfbc70;
   0x289b7ec6; 0xeaa127fa; 0xd4ef3085; 0x04881d05; 0xd9d4d039; 0xe6db99e5; 0x1fa27cf8; 0xc4ac5665;
   0xf4292244; 0x432aff97; 0xab9423a7; 0xfc93a039; 0x655b59c3; 0x8f0ccc92; 0xffeff47d; 0x85845dd1;
   0x6fa87e4f; 0xfe2ce6e0; 0xa3014314; 0x4e0811a1; 0xf7537e82; 0xbd3af235; 0x2ad7d2bb; 0xeb86d391].

(** ** Bytes and padding *)

(** UTF-8 of one code unit below 256. *)
Definition utf8_char (c : ascii) : list Z :=
  let n := Z.of_nat (nat_of_ascii c) in
  if n <? 128 then [n] else [Z.lor 0xc0 (Z.shiftr n 6); Z.lor 0x80 (Z.land n 0x3f)].

Fixpoint utf8 (s : string) : list Z :=
  match s with EmptyString => [] | String c r => utf8_char c ++ utf8 r end.

(** [n] as [k] little-endian bytes. *)
Fixpoint le_bytes (k : nat) (n : Z) : list Z :=
  match k with O => [] | S k => (n mod 256) :: le_bytes k (n / 256) end.

(** Append [0x80], zeros up to 56 mod 64, and the bit length. *)
Definition pad (msg : list Z) : list Z :=
  let len := List.length msg in
  msg ++ [0x80] ++ repeat 0 ((119 - len mod 64) mod 64)%nat ++ le_bytes 8 (Z.of_nat len * 8).

(** Little-endian words of a byte list. *)
Fixpoint words (bs : list Z) : list Z :=
  match bs with
  | b0 :: b1 :: b2 :: b3 :: r => (b0 + 256 * b1 + 65536 * b2 + 16777216 * b3) :: words r
  | _ => []
  end.

(** The 16-word blocks of a message of [n] blocks. *)
Fixpoint blocks (n : nat) (ws : list Z) : list (list Z) :=
  match n with O => [] | S n => firstn 16 ws :: blocks n (skipn 16 ws) end.

(** ** The compression function *)

Definition state : Type := Z * Z * Z * Z.

Definition init : state := (0x67452301, 0xefcdab89, 0x98badcfe, 0x10325476).

(** The round function and message index of step [i]. *)
Definition round_fg (i : nat) (b c d : Z) : Z * nat :=
  if (i <? 16)%nat then (Z.lor (Z.land b c) (Z.land (not32 b) d), i)
  else if (i <? 32)%nat then (Z.lor (Z.land d b) (Z.land (not32 d) c), ((5 * i + 1) mod 16)%nat)
  else if (i <? 48)%nat then (Z.lxor b (Z.lxor c d), ((3 * i + 5) mod 16)%nat)
  else (Z.lxor c (Z.lor b (not32 d)), ((7 * i) mod 16)%nat).

Definition md5_step (M : list Z) (st : state) (i : nat) : state :=
  let '(a, b, c, d) := st in
  let '(f, g) := round_fg i b c d in
  let f := add32 (add32 (add32 f a) (nth i K_table 0)) (nth g M 0) in
  (d, add32 b (rotl32 f (nth i S_table 0)), b, c).

Definition compress (st : state) (M : list Z) : state :=
  let '(a, b, c, d) := st in
  let '(a', b', c', d') := fold_left (md5_step M) (seq 0 64) st in
  (add32 a a', add32 b b', add32 c c', add32 d d').

Definition md5_state (msg : list Z) : state :=
  let p := pad msg in
  fold_left compress (blocks (List.length p / 64)%nat (words p)) init.

(** ** The hexadecimal digest *)

Definition hex_digit (n : Z) : ascii :=
  if n <? 10 then ascii_of_nat (48 + Z.to_nat n) else ascii_of_nat (87 + Z.to_nat n).

Fixpoint hex_bytes (bs : list Z) : string :=
  match bs with
  | [] => EmptyString
  | b :: r => String (hex_digit (b / 16)) (String (hex_digit (b mod 16)) (hex_bytes r))
  end.

Definition digest (st : state) : list Z :=
  let '(a, b, c, d) := st in le_bytes 4 a ++ le_bytes 4 b ++ le_bytes 4 c ++ le_bytes 4 d.

(** [crypto.createHash("md5").update(s).digest("hex")] *)
Definition md5_hex (s : string) : string := hex_bytes (digest (md5_state (utf8 s))).

(** [0-9a-f] *)
Definition is_hex_lower (c : ascii) : bool :=
  is_digit c || (let n := nat_of_ascii c in (97 <=? n)%nat && (n <=? 102)%nat).

(** ** Lemmas *)

Lemma add32_range x y : 0 <= add32 x y < 2 ^ 32.
Proof. unfold add32. apply Z.mod_pos_bound. lia. Qed.

Lemma le_bytes_length k n : List.length (le_bytes k n) = k.
Proof. revert n. induction k as [|k IH]; intros n; simpl; [done | by rewrite IH]. Qed.

Lemma le_bytes_range k n : Forall (fun b => 0 <= b < 256) (le_bytes k n).
Proof.
  revert n. induction k as [|k IH]; intros n; simpl; constructor; [|apply IH].
  apply Z.mod_pos_bound. lia.
Qed.

Lemma digest_length st : List.length (digest st) = 16%nat.
Proof. destruct st as [[[a b] c] d]. unfold digest. by rewrite !length_app, !le_bytes_length. Qed.

Lemma digest_range st : Forall (fun b => 0 <= b < 256) (digest st).
Proof. destruct st as [[[a b] c] d]. unfold digest. rewrite !Forall_app. split_and!; apply le_bytes_range. Qed.

Lemma hex_digit_hex n : 0 <= n < 16 -> is_hex_lower (hex_digit n) = true.
Proof.
  intros Hn. unfold hex_digit, is_hex_lower, is_digit.
  destruct (Z.ltb_spec n 10);
    rewrite nat_ascii_embedding by lia; apply orb_true_iff; [left | right];
    apply andb_true_iff; split; apply Nat.leb_le; lia.
Qed.

Lemma hex_bytes_shape bs :
  Forall (fun b => 0 <= b < 256) bs ->
  String.length (hex_bytes bs) = (2 * List.length bs)%nat /\ str_forall is_hex_lower (hex_bytes bs) = true.
Proof.
  induction 1 as [|b r Hb _ [IHl IHf]]; [done|]. simpl. split; [lia|].
  rewrite IHf, !hex_digit_hex; [done | |].
  - apply Z.mod_pos_bound. lia.
  - split; [apply Z.div_pos; lia | apply Z.div_lt_upper_bound; lia].
Qed.

(** The padded message is the message followed by 9 to 72 bytes
    and is a whole number of 64-byte blocks. *)
Theorem pad_shape msg :
  firstn (List.length msg) (pad msg) = msg /\
  (List.length (pad msg) mod 64 = 0)%nat /\
  (List.length msg + 9 <= List.length (pad msg) <= List.length msg + 72)%nat.
Proof.
  unfold pad. set (len := List.length msg).
  assert (Hl : List.length (msg ++ [0x80] ++ repeat 0 ((119 - len mod 64) mod 64)%nat ++
                            le_bytes 8 (Z.of_nat len * 8)) = (len + 9 + (119 - len mod 64) mod 64)%nat).
  { rewrite !length_app, repeat_length, le_bytes_length. cbn [List.length]. lia. }
  rewrite Hl. split; [rewrite firstn_app, Nat.sub_diag, firstn_O, app_nil_r; apply firstn_all|].
  pose proof (Nat.mod_upper_bound len 64 ltac:(lia)) as Hr.
  pose proof (Nat.div_mod_eq len 64) as Hq.
  set (r := (len mod 64)%nat) in *. set (q := (len / 64)%nat) in *.
  destruct (decide (r <= 55)%nat) as [Hs|Hs].
  - rewrite <- (Nat.mod_unique (119 - r) 64 1 (55 - r)) by lia.
    rewrite <- (Nat.mod_unique (len + 9 + (55 - r)) 64 (q + 1) 0) by lia. lia.
  - rewrite (Nat.mod_small (119 - r) 64) by lia.
    rewrite <- (Nat.mod_unique (len + 9 + (119 - r)) 64 (q + 2) 0) by lia. lia.
Qed.

Lemma md5_hex_length s : String.length (md5_hex s) = 32%nat.
Proof.
  unfold md5_hex. rewrite (proj1 (hex_bytes_shape _ (digest_range _))). by rewrite digest_length.
Qed.

Lemma md5_hex_digits s : str_forall is_hex_lower (md5_hex s) = true.
Proof. exact (proj2 (hex_bytes_shape _ (digest_range _))). Qed.

(** The digest is 32 lowercase hexadecimal digits, for every
    input: 16 bytes, each printed as two digits. *)
Theorem md5_hex_shape s :
  String.length (md5_hex s) = 32%nat /\ str_forall is_hex_lower (md5_hex s) = true.
Proof. split; [apply md5_hex_length | apply md5_hex_digits]. Qed.

(** The implementation gives the digests of the test suite of
    RFC 1321 (appendix A.5). *)
Theorem md5_rfc1321_suite :
  md5_hex "" = "d41d8cd98f00b204e9800998ecf8427e" /\
  md5_hex "a" = "0cc175b9c0f1b6a831c399e269772661" /\
  md5_hex "abc" = "900150983cd24fb0d6963f7d28e17f72" /\
  md5_hex "message digest" = "f96b697d7cb7938d525a2f31aaf161d0" /\
  md5_hex "abcdefghijklmnopqrstuvwxyz" = "c3fcd3d76192e4007dfb496cca67e13b" /\
  md5_hex "ABCDEFGHIJKLMNOPQRSTUVWXYZabcdefghijklmnopqrstuvwxyz0123456789" =
    "d174ab98d277d9f5a5611c2c9f419d9f" /\
  md5_hex "12345678901234567890123456789012345678901234567890123456789012345678901234567890" =
    "57edf4a22be3c955ac49da2e2107b67a".
Proof. split_and!; vm_compute; reflexivity. Qed.

End MD5.
