(* ===== verification/Http.v ===== *)
(** * JSON values, thrown errors and HTTP responses

    What the handlers of [src/routes/api/users.js] exchange with Express:
    - [json]: the values of request bodies and of [res.json] payloads
      (their text form, [JSON.stringify] and [JSON.parse], is [Json.v]);
      [jobj] builds an object literal the way [JSON.stringify] prints it,
      dropping the keys whose value is [undefined];
    - [body_get]: [req.body.k] after [express.json()], where a key given
      twice keeps its last value, as [JSON.parse] does;
    - [thrown]: what a handler throws: an [HttpError(status, message)]
      of [helpers/index.js] or a runtime error of a library or of
      JavaScript itself (a Mongoose validation error, a [TypeError]);
    - [response] and [error_handler]: the response sent by [res.json]
      and by the application's central error middleware.
    [helpers/index.js] and the error middleware of [app.js] are not under
    [src/]: they are modelled from the spec (section 7). *)

From S2P Require Import Prelude.

Set Warnings "-register-all".

(** A JSON value.  [JNum n] is a number written as an integer; [JDec m e]
    is one written with a fraction or an exponent, [m * 10^e], its
    digits as written. *)
Inductive json : Type :=
  | JNull
  | JBool (b : bool)
  | JNum (n : Z)
  | JDec (mant exp : Z)
  | JStr (s : string)
  | JArr (elems : list json)
  | JObj (fields : list (string * json)).

(** An object literal [{ k1: v1, ... }] where a value may be [undefined]. *)
Fixpoint jfields (fields : list (string * option json)) : list (string * json) :=
  match fields with
  | [] => []
  | (k, Some v) :: r => (k, v) :: jfields r
  | (_, None) :: r => jfields r
  end.

Definition jobj (fields : list (string * option json)) : json := JObj (jfields fields).

(** [o.k] for a parsed JSON object: the last binding of [k]. *)
Definition body_get (body : list (string * json)) (k : string) : option json :=
  foldl (fun acc kv => if String.eqb kv.1 k then Some kv.2 else acc) None body.

(** Whether the key [k] occurs anywhere in a JSON value. *)
Fixpoint json_has_key (k : string) (j : json) : bool :=
  match j with
  | JObj fields =>
      (fix go (fs : list (string * json)) : bool :=
         match fs with
         | [] => false
         | (k', v) :: r => String.eqb k' k || json_has_key k v || go r
         end) fields
  | JArr elems => existsb (json_has_key k) elems
  | _ => false
  end.

(** ** Thrown errors *)

Inductive thrown : Type :=
  | HttpError (status : Z) (message : string)
  | RuntimeError (message : string).

(** ** Responses *)

Record response : Type := mk_response {
  res_status : Z;
  res_body : option json
}.

(** [res.status(st).json(body)]: Express sends no body with a 204. *)
Definition res_json (st : Z) (body : json) : response :=
  {| res_status := st; res_body := if Z.eqb st 204 then None else Some body |}.

(** The central error middleware: the status of an [HttpError], 500 for
    anything else, and a [{ message }] body. *)
Definition error_handler (e : thrown) : response :=
  match e with
  | HttpError st msg => res_json st (JObj [("message", JStr msg)])
  | RuntimeError _ => res_json 500 (JObj [("message", JStr "Server error")])
  end.

(** Whether a response body carries the key [k] anywhere. *)
Definition resp_has_key (k : string) (r : response) : bool :=
  match res_body r with Some j => json_has_key k j | None => false end.

Definition status_of (e : thrown) : Z :=
  match e with HttpError st _ => st | RuntimeError _ => 500 end.

(** ** Lemmas *)

Lemma json_has_key_obj k fields :
  json_has_key k (JObj fields) =
  existsb (fun kv => String.eqb kv.1 k || json_has_key k kv.2) fields.
Proof.
  induction fields as [|[k' v] r IH]; simpl; [done|].
  by rewrite <- IH.
Qed.



Lemma error_handler_status e : res_status (error_handler e) = status_of e.
Proof. by destruct e as [st m|m]; simpl. Qed.

(** An error response never carries a key other than [message]. *)
Lemma error_handler_keys e k :
  k <> "message" -> resp_has_key k (error_handler e) = false.
Proof.
  intros Hk. unfold resp_has_key.
  destruct e as [st m|m]; simpl; [destruct (Z.eqb st 204)|]; simpl; try done;
    rewrite !orb_false_r; apply String.eqb_neq; congruence.
Qed.

Lemma json_has_key_jobj k fields :
  json_has_key k (jobj fields) =
  existsb (fun kv => match kv.2 with
                     | Some v => String.eqb kv.1 k || json_has_key k v
                     | None => false
                     end) fields.
Proof.
  unfold jobj. rewrite json_has_key_obj.
  induction fields as [|[k' [v|]] r IH]; simpl; [done| |done].
  by rewrite IH.
Qed.


Lemma body_get_app body k v :
  body_get (body ++ [(k, v)]) k = Some v.
Proof. unfold body_get. by rewrite foldl_app; simpl; rewrite String.eqb_refl. Qed.

#[export] Hint Rewrite json_has_key_jobj error_handler_status : api_rw.
#[export] Hint Resolve error_handler_keys : api.
