(* ===== verification/Json.v ===== *)
(** * JSON text: what [res.json] sends and what [express.json()] reads

    The handlers of [src/routes/api/users.js] read [req.body], the value
    [JSON.parse] makes of the request's text, and answer with
    [res.json(value)], which sends [JSON.stringify(value)].  This file
    is the text form of the [json] values of [Http.v]:
    - [stringify] is [JSON.stringify] (ECMA-262, SerializeJSONProperty):
      [QuoteJSONString]'s escapes ([escape]), integers in decimal
      (other numbers as mantissa and exponent),
      arrays and objects without white space, keys in their order;
    - [value], [elements] and [members] are the recursive descent of
      [JSON.parse] (ECMA-404), with fuel; [JSON_parse] runs it on a whole
      text, white space around the value allowed.  The parser keeps an
      object's members in the order of the text, duplicates included;
      [body_get] of [Http.v] reads the last one, as a property access on
      [JSON.parse]'s result does.
    Numbers are kept exactly as written: an integer as [JNum], one with
    a fraction or an exponent as [JDec] (mantissa and exponent), where
    [JSON.parse] would round to a double.  What the value type cannot
    hold is refused: a [\u] escape above [\u00ff] (its strings are code
    units 0-255).

    The theorems: every value's text parses back to the value, and the
    fuel given to [JSON_parse] is never what stops it. *)

From S2P Require Import Prelude Md5 Http.
From Stdlib Require Import DecimalString DecimalPos DecimalZ DecimalFacts.

Module Json.

(** The double quote and the backslash, as patterns. *)
Abbreviation DQ := (Ascii false true false false false true false false) (only parsing).
Abbreviation BS := (Ascii false false true true true false true false) (only parsing).

(** ** [JSON.stringify] *)

(** QuoteJSONString on one code unit: the short escapes, [\u00XX] in
    lowercase for the other control characters, the unit itself
    otherwise. *)
Definition escape (c : ascii) : string :=
  match c with
  | DQ => String BS (String DQ EmptyString)
  | BS => String BS (String BS EmptyString)
  | _ =>
      match nat_of_ascii c with
      | 8 => String BS "b"
      | 9 => String BS "t"
      | 10 => String BS "n"
      | 12 => String BS "f"
      | 13 => String BS "r"
      | n => if n <? 32 then
               String BS ("u00" +:+ String (MD5.hex_digit (Z.of_nat (n / 16)))
                                    (String (MD5.hex_digit (Z.of_nat (n mod 16))) EmptyString))
             else String c EmptyString
      end
  end.

Fixpoint quote_body (s : string) : string :=
  match s with
  | EmptyString => EmptyString
  | String c r => escape c +:+ quote_body r
  end.

Definition quote (s : string) : string := String DQ (quote_body s +:+ String DQ EmptyString).

(** Number::toString on an integer.  A number written with a fraction
    or an exponent is printed as its mantissa and exponent ([m e e]),
    a text [JSON.parse] reads as the same number; [Number::toString]
    would print the double's shortest form.  No response holds one. *)
Definition number_text (z : Z) : string := NilZero.string_of_int (Z.to_int z).

Fixpoint stringify (j : json) : string :=
  match j with
  | JNull => "null"
  | JBool true => "true"
  | JBool false => "false"
  | JNum z => number_text z
  | JDec m e => number_text m +:+ "e" +:+ number_text e
  | JStr s => quote s
  | JArr l => "[" +:+ js_join "," (map stringify l) +:+ "]"
  | JObj fs => "{" +:+ js_join "," (map (fun kv => quote kv.1 +:+ ":" +:+ stringify kv.2) fs) +:+ "}"
  end.

(** ** [JSON.parse] *)

(** JSON's white space: space, tab, line feed, carriage return. *)
Definition is_ws (c : ascii) : bool :=
  let n := nat_of_ascii c in (n =? 32) || (n =? 9) || (n =? 10) || (n =? 13).

Fixpoint skip_ws (s : string) : string :=
  match s with
  | String c r => if is_ws c then skip_ws r else s
  | EmptyString => EmptyString
  end.

Definition hex_val (c : ascii) : option nat :=
  let n := nat_of_ascii c in
  if (48 <=? n) && (n <=? 57) then Some (n - 48)
  else if (97 <=? n) && (n <=? 102) then Some (n - 87)
  else if (65 <=? n) && (n <=? 70) then Some (n - 55)
  else None.

(** The code unit of the four hexadecimal digits of [\uXXXX]. *)
Definition hex4 (a b d h : ascii) : option nat :=
  match hex_val a, hex_val b, hex_val d, hex_val h with
  | Some a, Some b, Some d, Some h => Some (a * 4096 + b * 256 + d * 16 + h)
  | _, _, _, _ => None
  end.

(** The unit a two-character escape [\c] stands for. *)
Definition short_escape (c : ascii) : option ascii :=
  match c with
  | DQ => Some DQ
  | BS => Some BS
  | "/"%char => Some "/"%char
  | "b"%char => Some (ascii_of_nat 8)
  | "t"%char => Some (ascii_of_nat 9)
  | "n"%char => Some (ascii_of_nat 10)
  | "f"%char => Some (ascii_of_nat 12)
  | "r"%char => Some (ascii_of_nat 13)
  | _ => None
  end.

Definition cons_res (c : ascii) (o : option (string * string)) : option (string * string) :=
  match o with Some (s, r) => Some (String c s, r) | None => None end.

(** The characters of a string literal after its opening quote, up to
    and without its closing quote; a raw control character is an
    error. *)
Fixpoint parse_string (s : string) : option (string * string) :=
  match s with
  | EmptyString => None
  | String c r =>
      if Ascii.eqb c DQ then Some (EmptyString, r)
      else if Ascii.eqb c BS then
        match r with
        | String e r' =>
            if Ascii.eqb e "u" then
              match r' with
              | String a (String b (String d (String h r''))) =>
                  match hex4 a b d h with
                  | Some n => if n <? 256 then cons_res (ascii_of_nat n) (parse_string r'') else None
                  | None => None
                  end
              | _ => None
              end
            else
              match short_escape e with
              | Some c' => cons_res c' (parse_string r')
              | None => None
              end
        | EmptyString => None
        end
      else if nat_of_ascii c <? 32 then None
      else cons_res c (parse_string r)
  end.

Fixpoint span_digits (s : string) : string * string :=
  match s with
  | String c r => if is_digit c then let '(d, r') := span_digits r in (String c d, r') else (EmptyString, s)
  | EmptyString => (EmptyString, EmptyString)
  end.

(** The sign of a number and what follows it. *)
Definition sign_part (s : string) : string * string :=
  match s with
  | String c r => if Ascii.eqb c "-" then ("-", r) else (EmptyString, s)
  | EmptyString => (EmptyString, EmptyString)
  end.

(** The integer part of a number: [0] alone, or a run of digits. *)
Definition int_digits (s : string) : string * string :=
  match s with
  | String c r => if Ascii.eqb c "0" then ("0", r) else span_digits s
  | EmptyString => (EmptyString, EmptyString)
  end.

(** The fraction [( . [0-9]+ )?]: its digits and what follows it. *)
Definition frac_part (s : string) : option (string * string) :=
  match s with
  | String c r =>
      if Ascii.eqb c "." then
        let '(fd, r') := span_digits r in
        if String.eqb fd EmptyString then None else Some (fd, r')
      else Some (EmptyString, s)
  | EmptyString => Some (EmptyString, EmptyString)
  end.

(** The sign of an exponent, [[+-]?]. *)
Definition exp_sign (s : string) : string * string :=
  match s with
  | String c r =>
      if Ascii.eqb c "+" then (EmptyString, r)
      else if Ascii.eqb c "-" then ("-", r) else (EmptyString, s)
  | EmptyString => (EmptyString, EmptyString)
  end.

(** The exponent [( [eE] [+-]? [0-9]+ )?]: its value and what follows it. *)
Definition exp_part (s : string) : option (option Z * string) :=
  match s with
  | String c r =>
      if Ascii.eqb c "e" || Ascii.eqb c "E" then
        let '(esign, r1) := exp_sign r in
        let '(ed, r2) := span_digits r1 in
        if String.eqb ed EmptyString then None
        else match NilZero.int_of_string (esign +:+ ed) with
             | Some e => Some (Some (Z.of_int e), r2)
             | None => None
             end
      else Some (None, s)
  | EmptyString => Some (None, EmptyString)
  end.

(** [-? (0 | [1-9][0-9]* ) frac? exp?]: an integer, or the mantissa of
    the digits written and the exponent the fraction and the exponent
    give. *)
Definition parse_number (s : string) : option (json * string) :=
  let '(sign, s1) := sign_part s in
  let '(ds, rest) := int_digits s1 in
  if String.eqb ds EmptyString then None
  else match frac_part rest with
       | None => None
       | Some (fd, rest2) =>
           match exp_part rest2 with
           | None => None
           | Some (ex, rest3) =>
               match NilZero.int_of_string (sign +:+ ds +:+ fd) with
               | None => None
               | Some i =>
                   let m := Z.of_int i in
                   match fd, ex with
                   | EmptyString, None => Some (JNum m, rest3)
                   | _, _ => Some (JDec m (default 0%Z ex - Z.of_nat (String.length fd)), rest3)
                   end
               end
           end
       end.

(** [s] without its prefix [p], when [p] is one. *)
Fixpoint strip_prefix (p s : string) : option string :=
  match p, s with
  | EmptyString, _ => Some s
  | String c p', String d s' => if Ascii.eqb c d then strip_prefix p' s' else None
  | String _ _, EmptyString => None
  end.

(** One value, given the parsers of the rest of an array and of the
    rest of an object: by its first character, a string, an array, an
    object, a literal or a number. *)
Definition value_step (elems : list json -> string -> option (json * string))
    (membs : list (string * json) -> string -> option (json * string)) (s : string) :
    option (json * string) :=
  match skip_ws s with
  | EmptyString => None
  | String c r =>
      if Ascii.eqb c DQ then
        match parse_string r with Some (str, r') => Some (JStr str, r') | None => None end
      else if Ascii.eqb c "[" then
        match skip_ws r with
        | String c' r' => if Ascii.eqb c' "]" then Some (JArr [], r') else elems [] r
        | EmptyString => None
        end
      else if Ascii.eqb c "{" then
        match skip_ws r with
        | String c' r' => if Ascii.eqb c' "}" then Some (JObj [], r') else membs [] r
        | EmptyString => None
        end
      else
        match strip_prefix "null" (String c r), strip_prefix "true" (String c r),
              strip_prefix "false" (String c r) with
        | Some r', _, _ => Some (JNull, r')
        | None, Some r', _ => Some (JBool true, r')
        | None, None, Some r' => Some (JBool false, r')
        | None, None, None => parse_number (String c r)
        end
  end.

Fixpoint value (n : nat) (s : string) : option (json * string) :=
  match n with
  | O => None
  | S n => value_step (elements n) (members n) s
  end
(** The elements of an array after its [[]: a value, then [,] and
    more or []]. *)
with elements (n : nat) (acc : list json) (s : string) : option (json * string) :=
  match n with
  | O => None
  | S n =>
      match value n s with
      | Some (v, r) =>
          match skip_ws r with
          | String c r' =>
              if Ascii.eqb c "," then elements n (acc ++ [v]) r'
              else if Ascii.eqb c "]" then Some (JArr (acc ++ [v]), r')
              else None
          | EmptyString => None
          end
      | None => None
      end
  end
(** The members of an object after its [{]: a string key, [:], a
    value, then [,] and more or [}]. *)
with members (n : nat) (acc : list (string * json)) (s : string) : option (json * string) :=
  match n with
  | O => None
  | S n =>
      match skip_ws s with
      | String q r =>
          if negb (Ascii.eqb q DQ) then None else
          match parse_string r with
          | Some (k, r1) =>
              match skip_ws r1 with
              | String c1 r2 =>
                  if negb (Ascii.eqb c1 ":") then None else
                  match value n r2 with
                  | Some (v, r3) =>
                      match skip_ws r3 with
                      | String c r4 =>
                          if Ascii.eqb c "," then members n (acc ++ [(k, v)]) r4
                          else if Ascii.eqb c "}" then Some (JObj (acc ++ [(k, v)]), r4)
                          else None
                      | EmptyString => None
                      end
                  | None => None
                  end
              | EmptyString => None
              end
          | None => None
          end
      | EmptyString => None
      end
  end.

(** [JSON.parse(text)]: one value, white space around it, nothing else. *)
Definition JSON_parse (s : string) : option json :=
  match value (S (2 * String.length s)) s with
  | Some (v, r) => match skip_ws r with EmptyString => Some v | _ => None end
  | None => None
  end.


(** ** Predicates and measures of the proofs *)

(** The decimal digits of an integer: its sign and its digits, the
    first of which is 0 only for 0. *)
Definition lead_ok (ds : string) : Prop :=
  match ds with
  | String c r => if Ascii.eqb c "0" then r = EmptyString else is_digit c = true
  | EmptyString => False
  end.

(** What follows the digits of a number is not a digit. *)
Definition digit_end (rest : string) : Prop :=
  match rest with
  | String c _ => is_digit c = false
  | EmptyString => True
  end.

(** What may follow a value in a text: nothing, a separator, a closing
    bracket or white space. *)
Definition ends_value (rest : string) : Prop :=
  match rest with
  | EmptyString => True
  | String c _ => c = ","%char \/ c = "]"%char \/ c = "}"%char \/ is_ws c = true
  end.

(** Induction on JSON values, with the hypothesis on every element and
    every member. *)
Definition json_ind' (P : json -> Prop)
  (fnull : P JNull) (fbool : forall b, P (JBool b)) (fnum : forall z, P (JNum z))
  (fdec : forall m e, P (JDec m e)) (fstr : forall s, P (JStr s)) (farr : forall l, Forall P l -> P (JArr l))
  (fobj : forall fs, Forall (fun kv => P kv.2) fs -> P (JObj fs)) : forall j, P j :=
  fix F j :=
    match j with
    | JNull => fnull
    | JBool b => fbool b
    | JNum z => fnum z
    | JDec m e => fdec m e
    | JStr s => fstr s
    | JArr l => farr l ((fix G l : Forall P l := match l with
                                    | [] => List.Forall_nil _
                                    | v :: r => @List.Forall_cons _ _ v r (F v) (G r)
                                    end) l)
    | JObj fs => fobj fs ((fix G fs : Forall (fun kv => P kv.2) fs := match fs with
                                       | [] => List.Forall_nil _
                                       | kv :: r => @List.Forall_cons _ (fun kv => P kv.2) kv r (F kv.2) (G r)
                                       end) fs)
    end.

(** The fuel the parser spends on a value. *)
Fixpoint size (j : json) : nat :=
  match j with
  | JArr l => S (sum_list_with (fun v => S (size v)) l)
  | JObj fs => S (sum_list_with (fun kv => S (size kv.2)) fs)
  | _ => 1
  end.

(** ** Lemmas *)

Lemma to_uint_head p u : Pos.to_uint p <> Decimal.D0 u.
Proof.
  intros Hu.
  pose proof (DecimalPos.Unsigned.to_of (Pos.to_uint p)) as H.
  rewrite DecimalPos.Unsigned.of_to in H. simpl in H. rewrite Hu, unorm_D0 in H.
  destruct u as [|d|d|d|d|d|d|d|d|d|d];
    [apply (DecimalPos.Unsigned.to_uint_nonzero p); by rewrite Hu|..];
    lazymatch type of H with
    | _ = Decimal.unorm ?v => assert (Hl := nb_digits_unorm v ltac:(discriminate))
    end; rewrite <- H in Hl; simpl in Hl; lia.
Qed.

Lemma string_of_uint_digits d : str_forall is_digit (NilEmpty.string_of_uint d) = true.
Proof. induction d; simpl; rewrite ?IHd; reflexivity. Qed.

Lemma number_text_split z :
  exists sign ds, number_text z = sign +:+ ds /\ (sign = EmptyString \/ sign = "-") /\
                  lead_ok ds /\ str_forall is_digit ds = true.
Proof.
  assert (Hpos : forall p, lead_ok (NilZero.string_of_uint (Pos.to_uint p)) /\
                           str_forall is_digit (NilZero.string_of_uint (Pos.to_uint p)) = true).
  { intros p. pose proof (to_uint_head p) as Hh. pose proof (DecimalPos.Unsigned.to_uint_nonnil p) as Hn.
    destruct (Pos.to_uint p) as [|u|u|u|u|u|u|u|u|u|u]; try done; [by destruct (Hh u)|..];
      (split; [reflexivity | apply string_of_uint_digits]). }
  destruct z as [|p|p]; unfold number_text; simpl.
  - exists EmptyString, "0". split_and!; [done|by left|done|done].
  - exists EmptyString, (NilZero.string_of_uint (Pos.to_uint p)). split_and!; [done|by left|apply Hpos..].
  - exists "-", (NilZero.string_of_uint (Pos.to_uint p)). split_and!; [done|by right|apply Hpos..].
Qed.

Lemma ends_value_char c r : ends_value (String c r) ->
  is_digit c = false /\ Ascii.eqb c "." = false /\ (Ascii.eqb c "e" || Ascii.eqb c "E") = false.
Proof.
  intros H. destruct c as [[] [] [] [] [] [] [] []];
    try (split_and!; reflexivity); exfalso; destruct H as [H|[H|[H|H]]]; discriminate H.
Qed.

Lemma ends_value_digit_end rest : ends_value rest -> digit_end rest.
Proof. destruct rest as [|c r]; [done|]. by intros [? _]%ends_value_char. Qed.

Lemma frac_part_end rest : ends_value rest -> frac_part rest = Some (EmptyString, rest).
Proof. destruct rest as [|c r]; [done|]. intros (_ & Hc & _)%ends_value_char. unfold frac_part. by rewrite Hc. Qed.

Lemma exp_part_end rest : ends_value rest -> exp_part rest = Some (None, rest).
Proof. destruct rest as [|c r]; [done|]. intros (_ & _ & Hc)%ends_value_char. unfold exp_part. by rewrite Hc. Qed.

Lemma span_digits_app ds rest :
  str_forall is_digit ds = true -> digit_end rest -> span_digits (ds +:+ rest) = (ds, rest).
Proof.
  intros Hd He. induction ds as [|c r IH]; simpl in *.
  - destruct rest as [|c r]; [done|]. simpl in He. simpl. by rewrite He.
  - apply andb_prop in Hd as [-> Hr]. by rewrite IH.
Qed.

(** How the number grammar splits the text of an integer: its sign (an
    exponent's sign too) and its digits, which [int_of_string] reads
    back. *)
Lemma number_text_parts z rest : digit_end rest ->
  exists sign ds,
    sign_part (number_text z +:+ rest) = (sign, ds +:+ rest) /\
    exp_sign (number_text z +:+ rest) = (sign, ds +:+ rest) /\
    int_digits (ds +:+ rest) = (ds, rest) /\ span_digits (ds +:+ rest) = (ds, rest) /\
    ds <> EmptyString /\ NilZero.int_of_string (sign +:+ ds) = Some (Z.to_int z).
Proof.
  intros He. destruct (number_text_split z) as (sign & ds & Ht & Hs & Hl & Hd).
  assert (Hi : NilZero.int_of_string (sign +:+ ds) = Some (Z.to_int z)).
  { rewrite <- Ht. apply NilZero.isi; destruct z; simpl; try discriminate;
      intros [= ?]; by eapply DecimalPos.Unsigned.to_uint_nonnil. }
  exists sign, ds. rewrite Ht, str_app_assoc.
  destruct ds as [|c r]; [done|]. unfold lead_ok in Hl.
  pose proof Hd as Hc. simpl in Hc. apply andb_prop in Hc as [Hc _].
  assert (Hm : Ascii.eqb c "-" = false /\ Ascii.eqb c "+" = false)
    by (split; apply Ascii.eqb_neq; intros ->; discriminate).
  split_and!; [| | | by apply span_digits_app | done | done].
  - destruct Hs as [-> | ->]; [|done]. rewrite str_app_nil_l, str_app_cons. unfold sign_part. by rewrite (proj1 Hm).
  - destruct Hs as [-> | ->]; [|done]. rewrite str_app_nil_l, str_app_cons. unfold exp_sign. by rewrite (proj1 Hm), (proj2 Hm).
  - rewrite str_app_cons. unfold int_digits.
    destruct (Ascii.eqb_spec c "0") as [->|Hc0]; [by subst r|].
    rewrite <- str_app_cons. by apply span_digits_app.
Qed.

Lemma parse_number_text z rest :
  ends_value rest -> parse_number (number_text z +:+ rest) = Some (JNum z, rest).
Proof.
  intros He. destruct (number_text_parts z rest) as (sign & ds & Hs & _ & Hi & _ & Hne & Hz);
    [by apply ends_value_digit_end|].
  unfold parse_number. rewrite Hs, Hi. destruct (String.eqb_spec ds EmptyString); [done|].
  rewrite frac_part_end, exp_part_end, str_app_nil_r, Hz by done. cbv iota beta.
  by rewrite DecimalZ.of_to.
Qed.

Lemma parse_number_dec m e rest :
  ends_value rest -> parse_number (number_text m +:+ String "e" (number_text e +:+ rest)) = Some (JDec m e, rest).
Proof.
  intros He. destruct (number_text_parts m (String "e" (number_text e +:+ rest)))
    as (sign & ds & Hs & _ & Hi & _ & Hne & Hm); [done|].
  destruct (number_text_parts e rest) as (esign & eds & _ & Hes & _ & Hed & Hene & Hez);
    [by apply ends_value_digit_end|].
  unfold parse_number. rewrite Hs, Hi. destruct (String.eqb_spec ds EmptyString); [done|].
  assert (Hf : frac_part (String "e" (number_text e +:+ rest)) = Some (EmptyString, String "e" (number_text e +:+ rest)))
    by reflexivity.
  assert (Hx : exp_part (String "e" (number_text e +:+ rest)) = Some (Some e, rest)).
  { unfold exp_part. rewrite (Ascii.eqb_refl "e"). cbn [orb]. rewrite Hes. cbv iota beta. rewrite Hed.
    destruct (String.eqb_spec eds EmptyString); [done|]. by rewrite Hez, DecimalZ.of_to. }
  rewrite Hf, Hx, str_app_nil_r, Hm. cbv iota beta. cbn [default String.length]. by rewrite DecimalZ.of_to, Z.sub_0_r.
Qed.

Lemma parse_string_escape c t : parse_string (escape c +:+ t) = cons_res c (parse_string t).
Proof. destruct c as [[] [] [] [] [] [] [] []]; reflexivity. Qed.

Lemma parse_string_quote s t : parse_string (quote_body s +:+ String DQ t) = Some (s, t).
Proof.
  induction s as [|c r IH]; [reflexivity|]. simpl.
  by rewrite str_app_assoc, parse_string_escape, IH.
Qed.

Lemma skip_ws_solid c r : is_ws c = false -> skip_ws (String c r) = String c r.
Proof. intros H. cbn [skip_ws]. by rewrite H. Qed.

Lemma number_text_head z : exists c r, number_text z = String c r /\ (is_digit c || Ascii.eqb c "-") = true.
Proof.
  destruct (number_text_split z) as (sign & ds & -> & [-> | ->] & Hl & _); [|by eexists _, _].
  destruct ds as [|c r]; [done|]. exists c, r. split; [done|]. unfold lead_ok in Hl.
  destruct (Ascii.eqb_spec c "0") as [->|]; [done|]. by rewrite Hl.
Qed.

Lemma value_number n c r :
  (is_digit c || Ascii.eqb c "-") = true -> value (S n) (String c r) = parse_number (String c r).
Proof. destruct c as [[] [] [] [] [] [] [] []]; done. Qed.

Lemma stringify_head j : exists c r, stringify j = String c r /\ is_ws c = false /\ Ascii.eqb c "]" = false.
Proof.
  destruct j as [| [] | z | z e | s | l | fs]; try by eexists _, _.
  all: destruct (number_text_head z) as (c & r & Hz & Hc); cbn [stringify]; rewrite Hz;
    rewrite ?str_app_cons; (eexists _, _; split; [done|]);
    destruct c as [[] [] [] [] [] [] [] []]; done.
Qed.

Lemma value_number_text n z t : value (S n) (number_text z +:+ t) = parse_number (number_text z +:+ t).
Proof.
  destruct (number_text_head z) as (c & r & Hz & Hc). rewrite Hz, str_app_cons.
  by apply value_number.
Qed.

Ltac chars := cbv [Ascii.eqb Bool.eqb andb].

(** Evaluate the comparisons of two literal characters in [H]. *)
Ltac char_lits H :=
  repeat match type of H with
         | context [Ascii.eqb ?a ?b] =>
             let v := eval vm_compute in (Ascii.eqb a b) in
             lazymatch v with
             | true => change (Ascii.eqb a b) with true in H
             | false => change (Ascii.eqb a b) with false in H
             end
         end; cbv iota beta in H.

Lemma elements_stringify (l : list json) :
  Forall (fun v => forall n rest, size v <= n -> ends_value rest ->
                   value n (stringify v +:+ rest) = Some (v, rest)) l ->
  l <> [] -> forall n acc rest, sum_list_with (fun v => S (size v)) l <= n -> ends_value rest ->
  elements n acc (js_join "," (map stringify l) +:+ String "]"%char rest) = Some (JArr (acc ++ l), rest).
Proof.
  induction 1 as [|v l Hv Hl IH]; [done|]. intros _ n acc rest Hn He.
  destruct n as [|n]; simpl in Hn; [lia|]. destruct l as [|w l].
  - simpl. rewrite Hv by (simpl; lia || by right; left). by chars.
  - cbn [map]. rewrite js_join_cons2. cbn [elements].
    rewrite !str_app_assoc, Hv by (simpl; lia || by left).
    rewrite str_app_cons, str_app_nil_l, skip_ws_solid by done. cbv iota beta.
    rewrite IH by (done || simpl in *; lia). by rewrite <- app_assoc.
Qed.

Lemma members_step m acc k v t :
  value m (stringify v +:+ t) = Some (v, t) ->
  members (S m) acc (quote k +:+ ":" +:+ stringify v +:+ t) =
  match skip_ws t with
  | String ","%char r4 => members m (acc ++ [(k, v)]) r4
  | String "}"%char r4 => Some (JObj (acc ++ [(k, v)]), r4)
  | _ => None
  end.
Proof.
  intros Hv. unfold quote. rewrite str_app_cons. cbn [members]. rewrite skip_ws_solid by done. cbv iota beta.
  rewrite str_app_assoc, str_app_cons, str_app_nil_l, parse_string_quote. cbv iota beta.
  rewrite str_app_cons, str_app_nil_l, skip_ws_solid by done. cbv iota beta.
  rewrite Hv. cbv iota beta. by destruct (skip_ws t) as [|[[] [] [] [] [] [] [] []] ?].
Qed.

Lemma members_stringify (fs : list (string * json)) :
  Forall (fun kv => forall n rest, size kv.2 <= n -> ends_value rest ->
                    value n (stringify kv.2 +:+ rest) = Some (kv.2, rest)) fs ->
  fs <> [] -> forall n acc rest, sum_list_with (fun kv => S (size kv.2)) fs <= n -> ends_value rest ->
  members n acc (js_join "," (map (fun kv => quote kv.1 +:+ ":" +:+ stringify kv.2) fs) +:+ String "}"%char rest)
  = Some (JObj (acc ++ fs), rest).
Proof.
  induction 1 as [|[k v] fs Hv Hfs IH]; [done|]. intros _ n acc rest Hn He.
  destruct n as [|n]; simpl in Hn; [lia|]. simpl in Hv. destruct fs as [|kv' fs].
  - cbn [map js_join]. rewrite !str_app_assoc, members_step by (apply Hv; [lia | by right; right; left]).
    by rewrite skip_ws_solid.
  - cbn [map]. rewrite js_join_cons2, !str_app_assoc, members_step by (apply Hv; [lia | by left]).
    rewrite str_app_cons, str_app_nil_l, skip_ws_solid by done. cbv iota beta.
    rewrite IH by (done || simpl in *; lia). by rewrite <- app_assoc.
Qed.

Lemma value_stringify j : forall n rest, size j <= n -> ends_value rest -> value n (stringify j +:+ rest) = Some (j, rest).
Proof.
  induction j as [| b | z | m e | s | l Hl | fs Hfs] using json_ind'; intros [|n] rest Hn He; simpl in Hn; try lia.
  - reflexivity.
  - by destruct b.
  - cbn [stringify]. rewrite value_number_text. by apply parse_number_text.
  - cbn [stringify]. rewrite !str_app_assoc, str_app_cons, str_app_nil_l, value_number_text.
    by apply parse_number_dec.
  - unfold stringify, quote. rewrite str_app_cons. cbn [value]; unfold value_step. rewrite skip_ws_solid by done. cbv iota beta.
    by rewrite str_app_assoc, str_app_cons, str_app_nil_l, parse_string_quote.
  - cbn [stringify]. rewrite !str_app_assoc, str_app_cons, str_app_nil_l. cbn [value]; unfold value_step. rewrite skip_ws_solid by done. cbv iota beta.
    destruct l as [|v l]; [by rewrite str_app_nil_l|].
    assert (Hj : exists t, js_join "," (map stringify (v :: l)) = stringify v +:+ t)
      by (destruct l; [exists EmptyString; by rewrite str_app_nil_r | eexists; apply js_join_cons2]).
    destruct Hj as [t Ht]. rewrite Ht, str_app_assoc.
    destruct (stringify_head v) as (c & r & Hs & Hw & Hc). rewrite Hs, str_app_cons, skip_ws_solid by done.
    cbv iota beta. rewrite Hc, <- str_app_cons, <- Hs, <- str_app_assoc, <- Ht. apply (elements_stringify (v :: l)); [done|done|lia|done].
  - cbn [stringify]. rewrite !str_app_assoc, str_app_cons, str_app_nil_l. cbn [value]; unfold value_step. rewrite skip_ws_solid by done. cbv iota beta.
    destruct fs as [|[k v] fs]; [by rewrite str_app_nil_l|].
    assert (Hj : exists t, js_join "," (map (fun kv => quote kv.1 +:+ ":" +:+ stringify kv.2) ((k, v) :: fs))
                           = String DQ t)
      by (destruct fs; [by eexists | eexists; cbn [map]; rewrite js_join_cons2; reflexivity]).
    destruct Hj as [t Ht]. rewrite Ht, str_app_cons, skip_ws_solid by done. cbv iota beta.
    rewrite <- str_app_cons, <- Ht. apply (members_stringify ((k, v) :: fs)); [done|done|lia|done].
Qed.

Lemma js_join_length (l : list string) :
  sum_list_with (fun w => S (String.length w)) l <= S (String.length (js_join "," l)).
Proof.
  induction l as [|w [|w' l] IH]; [simpl; lia|simpl; lia|].
  rewrite js_join_cons2, !str_length_app. cbn [sum_list_with String.length] in *. lia.
Qed.

Lemma sum_list_with_map_le {A} (f : A -> nat) (g : A -> string) (l : list A) :
  Forall (fun x => f x <= String.length (g x)) l ->
  sum_list_with (fun x => S (f x)) l <= S (String.length (js_join "," (map g l))).
Proof.
  intros Hl. etrans; [|apply js_join_length].
  induction Hl as [|x l Hx _ IH]; simpl; lia.
Qed.

Lemma size_length j : size j <= String.length (stringify j).
Proof.
  induction j as [| [] | z | m e | s | l Hl | fs Hfs] using json_ind'; cbn [size stringify]; try (simpl; lia).
  - destruct (number_text_head z) as (c & r & -> & _). simpl. lia.
  - destruct (number_text_head m) as (c & r & -> & _). simpl. lia.
  - rewrite !str_length_app. cbn [String.length]. pose proof (sum_list_with_map_le size stringify l Hl). lia.
  - rewrite !str_length_app. cbn [String.length].
    enough (sum_list_with (fun kv => S (size kv.2)) fs <=
            S (String.length (js_join "," (map (fun kv => quote kv.1 +:+ ":" +:+ stringify kv.2) fs)))) by lia.
    apply (sum_list_with_map_le (fun kv => size kv.2)).
    eapply Forall_impl; [exact Hfs|]. intros [k v] Hv. simpl in *.
    rewrite !str_length_app. simpl. lia.
Qed.

Lemma skip_ws_blank w s : str_forall is_ws w = true -> skip_ws (w +:+ s) = skip_ws s.
Proof.
  induction w as [|c w IH]; [done|]. simpl. intros (-> & Hw)%andb_prop. by apply IH.
Qed.

Lemma value_blank n w s : str_forall is_ws w = true -> value n (w +:+ s) = value n s.
Proof. intros Hw. destruct n as [|n]; [done|]. cbn [value]. unfold value_step. by rewrite skip_ws_blank. Qed.

Lemma ends_value_blank w : str_forall is_ws w = true -> ends_value w.
Proof. destruct w as [|c w]; simpl; [done|]. intros (Hc & _)%andb_prop. by right; right; right. Qed.

(** [JSON.parse] reads back what [JSON.stringify] prints. *)
Lemma JSON_parse_stringify j : JSON_parse (stringify j) = Some j.
Proof.
  unfold JSON_parse. pose proof (size_length j) as Hs.
  pose proof (value_stringify j (S (2 * String.length (stringify j))) EmptyString) as Hv.
  rewrite str_app_nil_r in Hv. by rewrite Hv by (done || lia).
Qed.

(** [JSON.parse] gives back every value from the text
    [JSON.stringify] prints for it, with any JSON white space around it:
    escapes, integers, arrays and objects are read as they are printed. *)
Theorem json_roundtrip j w1 w2 :
  str_forall is_ws w1 = true -> str_forall is_ws w2 = true ->
  JSON_parse (w1 +:+ stringify j +:+ w2) = Some j.
Proof.
  intros H1 H2. unfold JSON_parse. pose proof (size_length j) as Hs.
  rewrite value_blank, value_stringify by (done || apply ends_value_blank, H2 || rewrite !str_length_app; lia).
  cbv iota beta. rewrite <- (str_app_nil_r w2), skip_ws_blank by done. done.
Qed.

(** ** The fuel is enough *)

Lemma skip_ws_length s : String.length (skip_ws s) <= String.length s.
Proof. induction s as [|c r IH]; simpl; [lia|]. destruct (is_ws c); simpl; lia. Qed.

Lemma strip_prefix_length p s r : strip_prefix p s = Some r -> String.length r < String.length s \/ p = EmptyString.
Proof.
  revert s. induction p as [|c p IH]; intros s; [by right|]. destruct s as [|d s]; simpl; [done|].
  destruct (Ascii.eqb c d); [|done]. intros H. left. destruct (IH s H) as [| ->]; [lia|].
  simpl in H. simplify_eq. lia.
Qed.

Lemma cons_res_some c o t r : cons_res c o = Some (t, r) -> exists t', o = Some (t', r).
Proof. destruct o as [[??]|]; simpl; [|done]. intros [= _ ->]. by eexists. Qed.

Lemma parse_string_length s t r : parse_string s = Some (t, r) -> String.length r < String.length s.
Proof.
  revert t r. induction s as [s IH] using (well_founded_induction (Wf_nat.well_founded_ltof _ String.length)). unfold Wf_nat.ltof in IH.
  intros t r H. destruct s as [|c s]; [done|].
  cbn [parse_string] in H.
  assert (Hc : forall c' s', String.length s' < String.length (String c s) ->
                            cons_res c' (parse_string s') = Some (t, r) -> String.length r < String.length (String c s))
    by (intros c' s' Hl (? & Hs)%cons_res_some; apply IH in Hs; lia).
  destruct (Ascii.eqb c DQ); [simplify_eq/=; lia|].
  destruct (Ascii.eqb c BS).
  - destruct s as [|e s]; [done|]. destruct (Ascii.eqb e "u").
    + destruct s as [|a [|b [|d [|h s]]]]; try done.
      destruct (hex4 a b d h); [|done].
      case_match; [|done]. eapply (Hc _ s); [simpl; lia | done].
    + destruct (short_escape e); [|done]. eapply (Hc _ s); [simpl; lia | done].
  - destruct (_ <? 32); [done|]. eapply (Hc _ s); [simpl; lia | done].
Qed.

Lemma span_digits_length s :
  String.length (span_digits s).1 + String.length (span_digits s).2 = String.length s.
Proof.
  induction s as [|c r IH]; simpl; [done|].
  destruct (is_digit c); [destruct (span_digits r); simpl in *; lia | simpl; lia].
Qed.

Lemma frac_part_length s fd r : frac_part s = Some (fd, r) -> String.length r <= String.length s.
Proof.
  unfold frac_part. destruct s as [|c s]; [by intros [= _ <-]|].
  destruct (Ascii.eqb c "."); [|by intros [= _ <-]].
  pose proof (span_digits_length s) as Hl. destruct (span_digits s) as [d r'].
  destruct (String.eqb d EmptyString); [done|]. intros [= _ <-]. simpl in *. lia.
Qed.

Lemma exp_part_length s ex r : exp_part s = Some (ex, r) -> String.length r <= String.length s.
Proof.
  unfold exp_part. destruct s as [|c s]; [by intros [= _ <-]|].
  destruct (_ || _); [|by intros [= _ <-]].
  assert (Hs : String.length (exp_sign s).2 <= String.length s)
    by (destruct s as [|c' s]; simpl; [|destruct (Ascii.eqb c' "+"); [|destruct (Ascii.eqb c' "-")]]; simpl; lia).
  destruct (exp_sign s) as [esign r1]. simpl in Hs.
  pose proof (span_digits_length r1) as Hl. destruct (span_digits r1) as [d r2].
  destruct (String.eqb d EmptyString); [done|]. case_match; [|done]. intros [= _ <-]. simpl in *. lia.
Qed.

Lemma parse_number_length s j r : parse_number s = Some (j, r) -> String.length r < String.length s.
Proof.
  unfold parse_number.
  assert (Hs : String.length (sign_part s).2 <= String.length s)
    by (destruct s as [|c s]; simpl; [|destruct (Ascii.eqb c "-")]; simpl; lia).
  destruct (sign_part s) as [sign s1]. simpl in Hs.
  assert (Hd : String.length (int_digits s1).1 + String.length (int_digits s1).2 = String.length s1).
  { destruct s1 as [|c s1]; [done|]. unfold int_digits. destruct (Ascii.eqb c "0"); [simpl; lia|].
    apply span_digits_length. }
  destruct (int_digits s1) as [ds rest]. simpl in Hd.
  destruct (String.eqb_spec ds EmptyString) as [->|Hne]; [done|].
  destruct (frac_part rest) as [[fd rest2]|] eqn:Hf; [|done]. apply frac_part_length in Hf.
  destruct (exp_part rest2) as [[ex rest3]|] eqn:Hx; [|done]. apply exp_part_length in Hx.
  destruct (NilZero.int_of_string _); [|done]. intros H.
  assert (rest3 = r) as <- by (destruct fd, ex; congruence).
  destruct ds; [done|]. simpl in Hd. lia.
Qed.

Lemma value_step_cases E M s x :
  value_step E M s = Some x ->
  (String.length x.2 < String.length s /\ forall E' M', value_step E' M' s = Some x) \/
  (exists r, String.length r < String.length s /\ E [] r = Some x /\ forall E' M', value_step E' M' s = E' [] r) \/
  (exists r, String.length r < String.length s /\ M [] r = Some x /\ forall E' M', value_step E' M' s = M' [] r).
Proof.
  unfold value_step. pose proof (skip_ws_length s) as Hw.
  destruct (skip_ws s) as [|c r] eqn:Hs; [done|]. simpl in Hw.
  destruct (Ascii.eqb c DQ).
  { destruct (parse_string r) as [[t r']|] eqn:Hp; [|done]. intros [= <-]. left. split; [|done].
    apply parse_string_length in Hp. simpl; lia. }
  pose proof (skip_ws_length r) as Hwr.
  destruct (Ascii.eqb c "[").
  { destruct (skip_ws r) as [|c' r'] eqn:Hr; [done|]. simpl in Hwr. destruct (Ascii.eqb c' "]").
    - intros [= <-]. left. split; [simpl; lia | done].
    - intros H. right; left. exists r. split_and!; [lia|done|done]. }
  destruct (Ascii.eqb c "{").
  { destruct (skip_ws r) as [|c' r'] eqn:Hr; [done|]. simpl in Hwr. destruct (Ascii.eqb c' "}").
    - intros [= <-]. left. split; [simpl; lia | done].
    - intros H. right; right. exists r. split_and!; [lia|done|done]. }
  intros H. left. split; [|done].
  destruct (strip_prefix "null" (String c r)) as [r1|] eqn:E1;
    [apply strip_prefix_length in E1 as [?|?]; [simplify_eq/=; lia|done]|].
  destruct (strip_prefix "true" (String c r)) as [r1|] eqn:E2;
    [apply strip_prefix_length in E2 as [?|?]; [simplify_eq/=; lia|done]|].
  destruct (strip_prefix "false" (String c r)) as [r1|] eqn:E3;
    [apply strip_prefix_length in E3 as [?|?]; [simplify_eq/=; lia|done]|].
  destruct x as [j r1]. apply parse_number_length in H. simpl in *. lia.
Qed.

Lemma fuel_enough_all n :
  (forall s x, value n s = Some x -> String.length x.2 < String.length s /\
     forall m, 2 * (String.length s - String.length x.2) <= m -> value m s = Some x) /\
  (forall acc s x, elements n acc s = Some x -> String.length x.2 < String.length s /\
     forall m, 2 * (String.length s - String.length x.2) <= m -> elements m acc s = Some x) /\
  (forall acc s x, members n acc s = Some x -> String.length x.2 < String.length s /\
     forall m, 2 * (String.length s - String.length x.2) <= m -> members m acc s = Some x).
Proof.
  induction n as [|n (IHv & IHe & IHm)]; [done|]. split_and!.
  - intros s x H. cbn [value] in H.
    apply value_step_cases in H as [[Hl Hall] | [(r & Hr & He & Hall) | (r & Hr & Hm & Hall)]].
    + split; [done|]. intros [|m] Hm; [lia|]. apply Hall.
    + apply IHe in He as [Hl He']. split; [lia|]. intros [|m] Hm; [lia|]. cbn [value].
      rewrite Hall. apply He'. lia.
    + apply IHm in Hm as [Hl Hm']. split; [lia|]. intros [|m] Hm; [lia|]. cbn [value].
      rewrite Hall. apply Hm'. lia.
  - intros acc s x H. cbn [elements] in H.
    destruct (value n s) as [[v r]|] eqn:Hv; [|done]. apply IHv in Hv as [Hlv Hv']. simpl in Hlv.
    pose proof (skip_ws_length r) as Hwr. destruct (skip_ws r) as [|c r'] eqn:Hr; [done|]. simpl in Hwr.
    destruct (Ascii.eqb c ",") eqn:Ec; [|destruct (Ascii.eqb c "]") eqn:Ec'; [|done]].
    + apply IHe in H as [Hl He']. split; [lia|]. intros [|m] Hm; [lia|]. cbn [elements].
      rewrite Hv' by (simpl; lia). rewrite Hr, Ec. apply He'. lia.
    + simplify_eq/=. split; [lia|]. intros [|m] Hm; [lia|]. cbn [elements].
      rewrite Hv' by (simpl; lia). by rewrite Hr, Ec, Ec'.
  - intros acc s x H. cbn [members] in H.
    pose proof (skip_ws_length s) as Hws. destruct (skip_ws s) as [|q r] eqn:Hs; [done|]. simpl in Hws.
    destruct (Ascii.eqb q DQ) eqn:Eq; [|done]. simpl in H.
    destruct (parse_string r) as [[k r1]|] eqn:Hp; [|done]. pose proof (parse_string_length _ _ _ Hp).
    pose proof (skip_ws_length r1) as Hw1. destruct (skip_ws r1) as [|c1 r2] eqn:Hr1; [done|]. simpl in Hw1.
    destruct (Ascii.eqb c1 ":") eqn:Ec1; [|done]. simpl in H.
    destruct (value n r2) as [[v r3]|] eqn:Hv; [|done]. apply IHv in Hv as [Hlv Hv']. simpl in Hlv.
    pose proof (skip_ws_length r3) as Hw3. destruct (skip_ws r3) as [|c r4] eqn:Hr3; [done|]. simpl in Hw3.
    assert (Hpre : forall m, 2 * (String.length r2 - String.length r3) <= m ->
                   members (S m) acc s =
                   if Ascii.eqb c "," then members m (acc ++ [(k, v)]) r4
                   else if Ascii.eqb c "}" then Some (JObj (acc ++ [(k, v)]), r4) else None).
    { intros m Hm. cbn [members]. rewrite Hs, Eq. simpl. rewrite Hp, Hr1, Ec1. simpl.
      by rewrite Hv', Hr3 by (simpl; lia). }
    destruct (Ascii.eqb c ",") eqn:Ec; [|destruct (Ascii.eqb c "}") eqn:Ec'; [|done]].
    + apply IHm in H as [Hl Hm']. split; [lia|]. intros [|m] Hm; [lia|].
      rewrite Hpre by lia. apply Hm'. lia.
    + simplify_eq. split; [simpl; lia|]. intros [|m] Hm; simpl in Hm; [lia|]. by rewrite Hpre by lia.
Qed.

(** The fuel of [JSON_parse] never decides its answer: whatever a
    text's value parses to with some fuel, [JSON_parse]'s fuel (twice
    the text's length, and one) parses it to the same. *)
Theorem parse_fuel_enough n s x : value n s = Some x -> value (S (2 * String.length s)) s = Some x.
Proof. intros H. apply (proj1 (fuel_enough_all n)) in H as [_ H]. apply H. lia. Qed.

(** ** The shape of a parsed value follows its first character *)

Lemma elements_members_shape n :
  (forall acc s j r, elements n acc s = Some (j, r) -> exists l, j = JArr l) /\
  (forall acc s j r, members n acc s = Some (j, r) -> exists fs, j = JObj fs).
Proof.
  induction n as [|n [IHe IHm]]; [done|]. split; intros acc s j r H; cbn [elements members] in H;
    repeat (case_match; simplify_eq; try done); eauto.
Qed.

Lemma JSON_parse_head text j c r :
  JSON_parse text = Some j -> skip_ws text = String c r ->
  (c = "{"%char -> exists fs, j = JObj fs) /\ (c = "["%char -> exists l, j = JArr l).
Proof.
  unfold JSON_parse. destruct (value _ text) as [[v rest]|] eqn:Hv; [|done].
  destruct (skip_ws rest); [|done]. intros [= <-] Hs.
  cbn [value] in Hv. unfold value_step in Hv. rewrite Hs in Hv.
  split; intros ->; char_lits Hv; destruct (skip_ws r) as [|c' r']; try done.
  - destruct (Ascii.eqb c' "}"); [simplify_eq; eauto|]. eapply elements_members_shape, Hv.
  - destruct (Ascii.eqb c' "]"); [simplify_eq; eauto|]. eapply elements_members_shape, Hv.
Qed.

(** ** Examples *)

Lemma json_roundtrip_witness :
  str_forall is_ws " " = true /\ str_forall is_ws (String (ascii_of_nat 10) EmptyString) = true /\
  JSON_parse (" " +:+ stringify (JObj [("a", JArr [JNum (-3); JStr "x"])]) +:+ String (ascii_of_nat 10) EmptyString)
  = Some (JObj [("a", JArr [JNum (-3); JStr "x"])]).
Proof. split_and!; [reflexivity | reflexivity | apply json_roundtrip; reflexivity]. Defined.

Lemma parse_fuel_enough_witness :
  value 4 " [1]" = Some (JArr [JNum 1], EmptyString) /\
  value (S (2 * String.length " [1]")) " [1]" = Some (JArr [JNum 1], EmptyString).
Proof. split; [vm_compute; reflexivity | apply (parse_fuel_enough 4); vm_compute; reflexivity]. Defined.

End Json.
