(* ===== verification/UserModel.v ===== *)
(** * The [User] model: [src/db/usersSchema.js] and the Mongoose calls on it

    The collection is an association list of documents in insertion
    order (the natural order in which [findOne] scans them) with the
    counter that stands for fresh [ObjectId]s.  The operations are the
    ones [src/routes/api/users.js] calls:
    - [create]: [User.create(obj)]: apply the schema defaults, run the
      schema validators (the [required] ones, the [enum] of
      [subscription]) in path order, then insert, where the unique index
      on [email] refuses a duplicate;
    - [findOne_email], [findById]: [User.findOne({ email })] and
      [User.findOne({ _id })];
    - [findByIdAndUpdate]: [User.findByIdAndUpdate(id, upd, { new: true })],
      which runs no validator (Mongoose's default [runValidators: false]).
    The schema invariant [store_wf] is what the schema promises of every
    stored document; the theorems show which operations keep it. *)

From S2P Require Import Prelude Http.

Module User.

(** The [enum] of the [subscription] path (lines 13-17). *)
Definition subscription_enum : list string := ["starter"; "pro"; "business"].

(** A stored document: the paths of [userSchema] and its [_id]. *)
Record user_doc : Type := mk_user {
  uid : nat;
  password : string;
  email : string;
  subscription : string;
  avatarURL : option string;
  token : string;
  verify : bool;
  verificationToken : string
  }.

(** The object given to [User.create]: a path may be missing. *)
Record user_input : Type := mk_input {
  in_password : option string;
  in_email : option string;
  in_subscription : option string;
  in_avatarURL : option string;
  in_token : option string;
  in_verify : option bool;
  in_verificationToken : option string
  }.

Record store : Type := mk_store {
  docs : list user_doc;
  next_id : nat
  }.

Definition empty_store : store := {| docs := []; next_id := 0 |}.

(** The schema defaults: [subscription: "starter"], [token: ""],
    [verify: false]. *)
Definition with_defaults (i : user_input) : user_input :=
  {| in_password := in_password i;
     in_email := in_email i;
     in_subscription := Some (default "starter" (in_subscription i));
     in_avatarURL := in_avatarURL i;
     in_token := Some (default "" (in_token i));
     in_verify := Some (default false (in_verify i));
     in_verificationToken := in_verificationToken i |}.

(** Mongoose's [required] check on a string path: present and not empty. *)
Definition required_ok (v : option string) : bool :=
  match v with Some s => negb (String.eqb s "") | None => false end.

Definition enum_ok (v : option string) : bool :=
  match v with
  | Some s => bool_decide (s ∈ subscription_enum)
  | None => true
  end.

Definition bquote : ascii := ascii_of_nat 96.
Definition backquoted (s : string) : string :=
  String bquote (s +:+ String bquote EmptyString).

(** The validators in path order, as [(path, message)] pairs. *)
Definition validation_errors (i : user_input) : list (string * string) :=
  (if required_ok (in_password i) then [] else [("password", "Set a password for the user")]) ++
  (if required_ok (in_email i) then [] else [("email", "Email is required")]) ++
  (if enum_ok (in_subscription i) then []
   else [("subscription", backquoted (default "" (in_subscription i)) +:+
            " is not a valid enum value for path " +:+ backquoted "subscription" +:+ ".")]) ++
  (if required_ok (in_verificationToken i) then []
   else [("verificationToken", "Verify token is required")]).

Definition validation_message (errs : list (string * string)) : string :=
  "User validation failed: " +:+ js_join ", " (map (fun pm => pm.1 +:+ ": " +:+ pm.2) errs).

Definition email_taken (e : string) (st : store) : bool :=
  existsb (fun d => String.eqb (email d) e) (docs st).

(** The document a validated input becomes, with the fresh id [n]. *)
Definition to_doc (n : nat) (i : user_input) : user_doc :=
  {| uid := n;
     password := default "" (in_password i);
     email := default "" (in_email i);
     subscription := default "starter" (in_subscription i);
     avatarURL := in_avatarURL i;
     token := default "" (in_token i);
     verify := default false (in_verify i);
     verificationToken := default "" (in_verificationToken i) |}.

(** [User.create(obj)] *)
Definition create (obj : user_input) : stexn store thrown user_doc :=
  fun st =>
    let i := with_defaults obj in
    match validation_errors i with
    | _ :: _ => (st, inl (RuntimeError (validation_message (validation_errors i))))
    | [] =>
        if email_taken (default "" (in_email i)) st
        then (st, inl (RuntimeError "E11000 duplicate key error collection: users index: email_1"))
        else let d := to_doc (next_id st) i in
             ({| docs := docs st ++ [d]; next_id := S (next_id st) |}, inr d)
    end.

(** [User.findOne({ email })] *)
Definition findOne_email (e : string) (st : store) : option user_doc :=
  find (fun d => String.eqb (email d) e) (docs st).

(** [User.findOne({ _id })] *)
Definition findById (i : nat) (st : store) : option user_doc :=
  find (fun d => Nat.eqb (uid d) i) (docs st).

(** The update documents the handlers pass: [{ subscription }] and
    [{ avatarURL }]. *)
Inductive user_update : Type :=
  | SetSubscription (s : string)
  | SetAvatarURL (a : string).

Definition apply_update (u : user_update) (d : user_doc) : user_doc :=
  match u with
  | SetSubscription s =>
      {| uid := uid d; password := password d; email := email d; subscription := s;
         avatarURL := avatarURL d; token := token d; verify := verify d;
         verificationToken := verificationToken d |}
  | SetAvatarURL a =>
      {| uid := uid d; password := password d; email := email d;
         subscription := subscription d; avatarURL := Some a; token := token d;
         verify := verify d; verificationToken := verificationToken d |}
  end.

(** Replace the first document with id [i]. *)
Fixpoint update_first (i : nat) (f : user_doc -> user_doc) (l : list user_doc) : list user_doc :=
  match l with
  | [] => []
  | d :: r => if Nat.eqb (uid d) i then f d :: r else d :: update_first i f r
  end.

(** [User.findByIdAndUpdate(id, upd, { new: true })]: the updated
    document, or [null] when no document has that id. *)
Definition findByIdAndUpdate (i : nat) (u : user_update) : stexn store thrown (option user_doc) :=
  fun st =>
    match findById i st with
    | None => (st, inr None)
    | Some d =>
        ({| docs := update_first i (apply_update u) (docs st); next_id := next_id st |},
         inr (Some (apply_update u d)))
    end.

(** ** The schema invariant *)

Definition doc_wf (d : user_doc) : Prop :=
  password d <> "" /\ email d <> "" /\ subscription d ∈ subscription_enum /\
  verificationToken d <> "".

Definition store_wf (st : store) : Prop :=
  NoDup (map uid (docs st)) /\ NoDup (map email (docs st)) /\
  Forall (fun d => uid d < next_id st) (docs st) /\ Forall doc_wf (docs st).

#[global] Instance doc_wf_dec d : Decision (doc_wf d).
Proof. unfold doc_wf. apply _. Defined.

#[global] Instance store_wf_dec st : Decision (store_wf st).
Proof. unfold store_wf. apply _. Defined.

(** ** Lemmas on the operations *)

Lemma validation_errors_nil_iff i :
  validation_errors i = [] <->
  required_ok (in_password i) = true /\ required_ok (in_email i) = true /\
  enum_ok (in_subscription i) = true /\ required_ok (in_verificationToken i) = true.
Proof.
  unfold validation_errors.
  destruct (required_ok (in_password i)), (required_ok (in_email i)),
    (enum_ok (in_subscription i)), (required_ok (in_verificationToken i));
    simpl; split; intros; destruct_and?; try split_and!; congruence.
Qed.

Lemma required_ok_spec v : required_ok v = true <-> exists s, v = Some s /\ s <> "".
Proof.
  destruct v as [s|]; simpl; [|split; [done | by intros (? & ? & _)]].
  destruct (String.eqb_spec s "") as [->|Hs]; simpl.
  - split; [done | intros (? & [= <-] & ?); done].
  - split; [eauto | done].
Qed.

(** A failed [create] leaves the collection as it was. *)
Lemma create_error_store obj st st' e :
  create obj st = (st', inl e) -> st' = st.
Proof.
  unfold create. destruct (validation_errors _); [|by intros [= <- _]].
  destruct (email_taken _ _); by intros [= <- _].
Qed.

(** What a successful [create] did. *)
Lemma create_ok_inv obj st st' d :
  create obj st = (st', inr d) ->
  validation_errors (with_defaults obj) = [] /\
  email_taken (email d) st = false /\
  d = to_doc (next_id st) (with_defaults obj) /\
  st' = {| docs := docs st ++ [d]; next_id := S (next_id st) |}.
Proof.
  unfold create. destruct (validation_errors _) eqn:Hv; [|done].
  destruct (email_taken _ _) eqn:Ht; [done|]. intros [= <- <-]. done.
Qed.

Lemma to_doc_wf n i :
  validation_errors i = [] -> doc_wf (to_doc n i).
Proof.
  intros (Hp & He & Hs & Hv)%validation_errors_nil_iff.
  apply required_ok_spec in Hp as (p & Hp & ?), He as (e & He & ?),
    Hv as (v & Hv & ?).
  unfold doc_wf, to_doc; simpl. rewrite Hp, He, Hv; simpl.
  repeat split; try done.
  destruct (in_subscription i) as [x|]; simpl in *; [by apply bool_decide_eq_true in Hs|].
  by left.
Qed.

Lemma email_taken_false e st :
  email_taken e st = false -> e ∉ map email (docs st).
Proof.
  unfold email_taken. intros H Hin. apply list_elem_of_In, in_map_iff in Hin as (d & <- & Hd).
  apply not_true_iff_false in H. apply H, existsb_exists. exists d.
  split; [done | apply String.eqb_refl].
Qed.

Lemma map_update_first {A} (f : user_doc -> A) i g l :
  (forall d, f (g d) = f d) -> map f (update_first i g l) = map f l.
Proof. intros Hg. induction l as [|d r IH]; simpl; [done|]. by destruct (_ =? _); simpl; rewrite ?Hg, ?IH. Qed.

Lemma Forall_update_first (P : user_doc -> Prop) i g l :
  (forall d, P d -> P (g d)) -> Forall P l -> Forall P (update_first i g l).
Proof.
  intros Hg. induction 1 as [|d r Hd Hr IH]; simpl; [constructor|].
  destruct (_ =? _); constructor; auto.
Qed.

Lemma find_Some_In {A} (p : A -> bool) l x : find p l = Some x -> In x l /\ p x = true.
Proof.
  induction l as [|y r IH]; simpl; [done|].
  destruct (p y) eqn:E; [intros [= <-]; auto | intros H; destruct (IH H); auto].
Qed.

(** An update that keeps a document well formed keeps the store so. *)
Lemma findByIdAndUpdate_wf i u st st' r :
  (forall d, doc_wf d -> doc_wf (apply_update u d)) ->
  store_wf st -> findByIdAndUpdate i u st = (st', r) -> store_wf st'.
Proof.
  intros Hu (Hid & Hem & Hlt & Hwf). unfold findByIdAndUpdate.
  destruct (findById i st); [|by intros [= <- _]]. intros [= <- _].
  unfold store_wf; simpl.
  rewrite !map_update_first by (by destruct u).
  repeat split; try done.
  - apply Forall_update_first; [|done]. by destruct u.
  - by apply Forall_update_first.
Qed.

Lemma apply_update_avatar_wf a d : doc_wf d -> doc_wf (apply_update (SetAvatarURL a) d).
Proof. done. Qed.

Lemma apply_update_subscription_wf s d :
  s ∈ subscription_enum -> doc_wf d -> doc_wf (apply_update (SetSubscription s) d).
Proof. intros Hs (? & ? & ? & ?). by repeat split. Qed.



(** In a well-formed store, [findOne({ email })] finds the document
    with that email. *)
Lemma findOne_email_In st d :
  store_wf st -> In d (docs st) -> findOne_email (email d) st = Some d.
Proof.
  intros (_ & Hem & _ & _). unfold findOne_email. revert Hem.
  induction (docs st) as [|x r IH]; simpl; [done|].
  intros (Hx & Hr)%NoDup_cons [->|Hin].
  - by rewrite String.eqb_refl.
  - destruct (String.eqb_spec (email x) (email d)) as [He|]; [|by apply IH].
    exfalso. apply Hx. rewrite He. apply list_elem_of_In, in_map_iff. eauto.
Qed.

(** [findByIdAndUpdate] keeps every field the update does not touch. *)
Lemma findByIdAndUpdate_map {A} (f : user_doc -> A) i u st st' r :
  (forall d, f (apply_update u d) = f d) ->
  findByIdAndUpdate i u st = (st', r) -> map f (docs st') = map f (docs st).
Proof.
  intros Hf. unfold findByIdAndUpdate. destruct (findById i st); [|by intros [= <- _]].
  intros [= <- _]. simpl. by apply map_update_first.
Qed.

Lemma uid_apply_update u d : uid (apply_update u d) = uid d.
Proof. by destruct u. Qed.

(** An update of one id leaves the document of another id as it was. *)
Lemma findById_update_other i j u st :
  i <> j -> findById i (fst (findByIdAndUpdate j u st)) = findById i st.
Proof.
  intros Hij. unfold findByIdAndUpdate. destruct (findById j st); [|done]. unfold findById. simpl.
  induction (docs st) as [|x r IH]; [done|]. simpl.
  destruct (Nat.eqb_spec (uid x) j) as [Hx|Hx]; simpl.
  - rewrite uid_apply_update. destruct (Nat.eqb_spec (uid x) i); [congruence | done].
  - by destruct (uid x =? i).
Qed.

Lemma find_update_first i f (l : list user_doc) :
  (forall d, uid (f d) = uid d) ->
  find (fun d => Nat.eqb (uid d) i) (update_first i f l) =
  option_map f (find (fun d => Nat.eqb (uid d) i) l).
Proof.
  intros Hf. induction l as [|d r IH]; [done|]. simpl.
  destruct (Nat.eqb (uid d) i) eqn:E; simpl; [by rewrite Hf, E | rewrite E; exact IH].
Qed.

(** What [findByIdAndUpdate] returns, and what a later [findById] reads. *)
Lemma findByIdAndUpdate_spec i u st :
  findByIdAndUpdate i u st =
  ({| docs := update_first i (apply_update u) (docs st); next_id := next_id st |},
   inr (option_map (apply_update u) (findById i st))) \/
  (findById i st = None /\ findByIdAndUpdate i u st = (st, inr None)).
Proof.
  unfold findByIdAndUpdate. destruct (findById i st) eqn:E; [by left | by right].
Qed.

Lemma findById_after_update i u st :
  findById i (fst (findByIdAndUpdate i u st)) = option_map (apply_update u) (findById i st).
Proof.
  unfold findByIdAndUpdate. destruct (findById i st) eqn:E; simpl; [|exact E].
  unfold findById in *. simpl. rewrite find_update_first by apply uid_apply_update.
  by rewrite E.
Qed.

(** [create] refuses a document without [verificationToken]. *)
Lemma create_requires_verificationToken obj st :
  required_ok (in_verificationToken obj) = false ->
  exists msg, create obj st = (st, inl (RuntimeError msg)).
Proof.
  intros Hv. unfold create. destruct (validation_errors (with_defaults obj)) eqn:E; [|eauto].
  apply validation_errors_nil_iff in E as (_ & _ & _ & E). simpl in E. congruence.
Qed.

Lemma findById_In st d :
  store_wf st -> In d (docs st) -> findById (uid d) st = Some d.
Proof.
  intros (Hid & _ & _ & _). unfold findById. revert Hid.
  induction (docs st) as [|x r IH]; simpl; [done|].
  intros (Hx & Hr)%NoDup_cons [->|Hin].
  - by rewrite Nat.eqb_refl.
  - destruct (Nat.eqb_spec (uid x) (uid d)) as [He|]; [|by apply IH].
    exfalso. apply Hx. rewrite He. apply list_elem_of_In, in_map_iff. eauto.
Qed.

(** A successful [User.create] keeps the schema invariant, its
    document is well formed, and [findOne({ email })] then finds it. *)
Theorem create_wf obj st st' d :
  store_wf st -> create obj st = (st', inr d) ->
  store_wf st' /\ doc_wf d /\ findOne_email (email d) st' = Some d.
Proof.
  intros (Hid & Hem & Hlt & Hwf) (Hv & Ht & -> & ->)%create_ok_inv.
  assert (Hd : doc_wf (to_doc (next_id st) (with_defaults obj))) by by apply to_doc_wf.
  enough (Hst : store_wf {| docs := docs st ++ [to_doc (next_id st) (with_defaults obj)];
                            next_id := S (next_id st) |}).
  { split_and!; [done | done | apply findOne_email_In; [done | apply in_or_app; by right; left]]. }
  unfold store_wf; simpl. rewrite !map_app; simpl.
  repeat split.
  - apply NoDup_app. repeat split; [done| |by apply NoDup_singleton].
    intros x Hx ->%list_elem_of_singleton. apply list_elem_of_In, in_map_iff in Hx as (y & Hy & Hin).
    rewrite Forall_forall in Hlt. apply list_elem_of_In in Hin.
    specialize (Hlt y Hin). simpl in *. lia.
  - apply NoDup_app. repeat split; [done| |by apply NoDup_singleton].
    intros x Hx ->%list_elem_of_singleton. simpl in Ht. by apply (email_taken_false _ _ Ht).
  - apply Forall_app. split; [|constructor; simpl; auto].
    eapply Forall_impl; [exact Hlt|]. simpl. intros; lia.
  - apply Forall_app. split; [done | by constructor].
Qed.

(** C20: [findByIdAndUpdate] runs no validator: setting a stored user's
    [subscription] to a value outside the schema's enum succeeds and
    breaks the schema invariant; only a handler's own check keeps it. *)
Theorem update_bypasses_enum st d s st' r :
  store_wf st -> In d (docs st) -> s ∉ subscription_enum ->
  findByIdAndUpdate (uid d) (SetSubscription s) st = (st', r) ->
  r = inr (Some (apply_update (SetSubscription s) d)) /\ ~ store_wf st'.
Proof.
  intros Hwf Hin Hs Hu. pose proof (findById_In st d Hwf Hin) as Hf.
  pose proof (findById_after_update (uid d) (SetSubscription s) st) as Ha.
  rewrite Hu, Hf in Ha. simpl in Ha.
  split; [unfold findByIdAndUpdate in Hu; rewrite Hf in Hu; congruence|].
  intros (_ & _ & _ & Hall). unfold findById in Ha.
  apply find_Some_In in Ha as [Hin' _]. rewrite Forall_forall in Hall.
  apply list_elem_of_In in Hin'. destruct (Hall _ Hin') as (_ & _ & Hsub & _). done.
Qed.

#[export] Hint Resolve apply_update_avatar_wf apply_update_subscription_wf : api.

(** ** The theorems on concrete documents *)

Definition carol_input : user_input :=
  {| in_password := Some "$2b$x"; in_email := Some "carol@example.com";
     in_subscription := None; in_avatarURL := None; in_token := None; in_verify := None;
     in_verificationToken := Some "v1" |}.

Lemma create_wf_witness :
  store_wf empty_store /\
  create carol_input empty_store = (fst (create carol_input empty_store), inr (to_doc 0 (with_defaults carol_input))) /\
  findOne_email "carol@example.com" (fst (create carol_input empty_store)) =
    Some (to_doc 0 (with_defaults carol_input)).
Proof.
  assert (Hwf : store_wf empty_store) by (apply (bool_decide_unpack _ (dec := store_wf_dec _)); vm_compute; exact I).
  assert (Hc : create carol_input empty_store =
               (fst (create carol_input empty_store), inr (to_doc 0 (with_defaults carol_input))))
    by (vm_compute; reflexivity).
  split; [exact Hwf | split; [exact Hc | exact (proj2 (proj2 (create_wf _ _ _ _ Hwf Hc)))]].
Defined.

Definition carol_store : store := fst (create carol_input empty_store).

Lemma update_bypasses_enum_witness :
  store_wf carol_store /\ In (to_doc 0 (with_defaults carol_input)) (docs carol_store) /\
  ("gold" ∉ subscription_enum) /\
  ~ store_wf (fst (findByIdAndUpdate 0 (SetSubscription "gold") carol_store)).
Proof.
  assert (Hwf : store_wf carol_store) by (apply (bool_decide_unpack _ (dec := store_wf_dec _)); vm_compute; exact I).
  assert (Hin : In (to_doc 0 (with_defaults carol_input)) (docs carol_store)) by (left; reflexivity).
  assert (Hs : "gold" ∉ subscription_enum) by (apply (bool_decide_unpack _); vm_compute; exact I).
  split_and!; [exact Hwf | exact Hin | exact Hs |].
  exact (proj2 (update_bypasses_enum carol_store _ "gold" _ _ Hwf Hin Hs
                  (surjective_pairing _))).
Defined.

End User.
