(* ===== verification/Validation.v ===== *)
(** * Request validation: [validateUser] of [src/routes/api/users.js]

    [validateUser({ email, password })] runs a Joi object schema:
    - [email]: [Joi.string().email({ minDomainSegments: 2,
      tlds: { allow: ["com", "net"] } }).required()]; the address rule is
      the one of Joi's address library ([email_valid]), modelled on
      ASCII strings: a string with a character above 127 is rejected by
      the model, where the library would check it as Unicode;
    - [password]: [Joi.string().pattern(/^[a-zA-Z0-9]{3,30}$/)
      .required().min(7)].
    Joi stops at the first error ([abortEarly]), keys in schema order and
    rules in the order they were added; [validateUser] returns that
    error's message, the [error.details[0].message] the handlers send. *)

From S2P Require Import Prelude Http.

Module Joi.

(** ** The email rule *)

Definition is_ascii (c : ascii) : bool := nat_of_ascii c <? 128.

(** [atextRx = /^[\w!#\$%&'\*\+\-/=\?\^`\{\|\}~]+$/] of one character. *)
Definition is_atext (c : ascii) : bool :=
  is_alnum c || str_exists (Ascii.eqb c) "_!#$%&'*+-/=?^`{|}~".

Definition is_label_char (c : ascii) : bool := is_alnum c || Ascii.eqb c "-".

(** Every local segment (between dots) is non-empty atext. *)
Definition local_ok (local : string) : bool :=
  forallb (fun seg => negb (String.eqb seg "") && str_forall is_atext seg) (js_split "." local).

(** [domainSegmentRx = /^[a-zA-Z0-9](?:[a-zA-Z0-9\-]*[a-zA-Z0-9])?$/] *)
Definition segment_ok (seg : string) : bool :=
  opt_test is_alnum (first_char seg) && opt_test is_alnum (last_char seg) &&
  str_forall is_label_char seg.

(** [tldSegmentRx = /^[a-zA-Z](?:[a-zA-Z0-9\-]*[a-zA-Z0-9])?$/] *)
Definition tld_segment_ok (seg : string) : bool :=
  opt_test is_alpha (first_char seg) && opt_test is_alnum (last_char seg) &&
  str_forall is_label_char seg.

(** [domainControlRx = /[\x00-\x20@\:\/\\#!\$&\'\(\)\*\+,;=\?]/] *)
Definition is_domain_control (c : ascii) : bool :=
  (nat_of_ascii c <=? 32) || str_exists (Ascii.eqb c) "@:/\#!$&'()*+,;=?".

Definition allowed_tlds : list string := ["com"; "net"].
Definition minDomainSegments : nat := 2.

Definition domain_ok (domain : string) : bool :=
  let segs := js_split "." domain in
  let n := List.length segs in
  let tld := List.last segs "" in
  negb (String.eqb domain "") && (String.length domain <=? 256) &&
  negb (str_exists is_domain_control domain) &&
  (minDomainSegments <=? n) &&
  bool_decide (to_lower (tld) ∈ allowed_tlds) &&
  forallb (fun seg => negb (String.eqb seg "") && (String.length seg <=? 63) &&
                      segment_ok seg) (take (n - 1) segs) &&
  opt_test (fun _ => true) (first_char (tld)) &&
  (String.length (tld) <=? 63) &&
  tld_segment_ok (tld).

(** The address library's [email.isValid(value, options)] on ASCII. *)
Definition email_valid (s : string) : bool :=
  str_forall is_ascii s &&
  match js_split "@" s with
  | [local; domain] =>
      negb (String.eqb local "") && (String.length s <=? 254) &&
      (String.length local <=? 64) && local_ok local && domain_ok domain
  | _ => false
  end.

(** ** The password rule *)

Definition password_regex : string := "/^[a-zA-Z0-9]{3,30}$/".

(** [new RegExp("^[a-zA-Z0-9]{3,30}$")] *)
Definition password_pattern_ok (s : string) : bool :=
  str_forall is_alnum s && (3 <=? String.length s) && (String.length s <=? 30).

(** ** The schema *)

Definition label (k : string) : string := quoted k.

(** The first error of [Joi.string()...required()] on one key, before
    the key's own rules. *)
Definition string_base_error (k : string) (v : option json) : option string :=
  match v with
  | None => Some (label k +:+ " is required")
  | Some (JStr s) => if String.eqb s "" then Some (label k +:+ " is not allowed to be empty") else None
  | Some _ => Some (label k +:+ " must be a string")
  end.

Definition email_error (v : option json) : option string :=
  match string_base_error "email" v with
  | Some m => Some m
  | None =>
      match v with
      | Some (JStr s) => if email_valid s then None else Some (label "email" +:+ " must be a valid email")
      | _ => None
      end
  end.

Definition password_error (v : option json) : option string :=
  match string_base_error "password" v with
  | Some m => Some m
  | None =>
      match v with
      | Some (JStr s) =>
          if negb (password_pattern_ok s) then
            Some (label "password" +:+ " with value " +:+ quoted s +:+
                  " fails to match the required pattern: " +:+ password_regex)
          else if String.length s <? 7 then
            Some (label "password" +:+ " length must be at least 7 characters long")
          else None
      | _ => None
      end
  end.

(** [validateUser({ email, password })]: the message of the first error. *)
Definition validateUser (email password : option json) : option string :=
  match email_error email with
  | Some m => Some m
  | None => password_error password
  end.

(** ** Lemmas *)

Lemma email_valid_nonempty : email_valid "" = false.
Proof. reflexivity. Qed.

Lemma string_base_error_None k v :
  string_base_error k v = None <-> exists s, v = Some (JStr s) /\ s <> "".
Proof.
  destruct v as [[| | | |s| |]|]; simpl; try (split; [done | by intros (? & ? & ?)]).
  destruct (String.eqb_spec s "") as [->|Hs]; simpl.
  - split; [done | by intros (? & [= <-] & ?)].
  - split; [eauto | done].
Qed.

Lemma email_error_None v :
  email_error v = None <-> exists s, v = Some (JStr s) /\ email_valid s = true.
Proof.
  unfold email_error. destruct (string_base_error "email" v) as [m|] eqn:Hb.
  - split; [done|]. intros (s & -> & Hs). simpl in Hb.
    destruct (String.eqb_spec s "") as [He|]; [|done].
    by rewrite He, email_valid_nonempty in Hs.
  - apply string_base_error_None in Hb as (s & -> & Hne).
    destruct (email_valid s) eqn:E; split; try done; eauto.
    intros (? & [= <-] & ?); congruence.
Qed.

(** A non-empty string password the pattern refuses is reported with
    its value, after a valid email. *)
Lemma validateUser_pattern_message email p :
  email_error email = None -> p <> EmptyString -> password_pattern_ok p = false ->
  validateUser email (Some (JStr p)) =
  Some (label "password" +:+ " with value " +:+ quoted p +:+ " fails to match the required pattern: " +:+ password_regex).
Proof.
  intros He Hne Hp. unfold validateUser, password_error. rewrite He. cbn [string_base_error].
  destruct (String.eqb_spec p EmptyString) as [|_]; [done|]. by rewrite Hp.
Qed.

Lemma password_error_None v :
  password_error v = None <->
  exists s, v = Some (JStr s) /\ str_forall is_alnum s = true /\
            7 <= String.length s <= 30.
Proof.
  unfold password_error. destruct (string_base_error "password" v) as [m|] eqn:Hb.
  - split; [done|]. intros (s & -> & Ha & Hl). simpl in Hb.
    destruct (String.eqb_spec s "") as [He|]; [|done].
    rewrite He in Hl. simpl in Hl. lia.
  - apply string_base_error_None in Hb as (s & -> & Hne).
    split.
    + destruct (password_pattern_ok s) eqn:P; simpl; [|done].
      destruct (String.length s <? 7) eqn:L; [done|]. intros _. exists s.
      unfold password_pattern_ok in P. apply andb_prop in P as [[Pa P3]%andb_prop P30].
      apply Nat.leb_le in P30. apply Nat.ltb_ge in L. split_and!; [done | done | lia | lia].
    + intros (s0 & [= <-] & Ha & Hl). unfold password_pattern_ok. rewrite Ha.
      replace (3 <=? String.length s) with true by (symmetry; apply Nat.leb_le; lia).
      replace (String.length s <=? 30) with true by (symmetry; apply Nat.leb_le; lia).
      replace (String.length s <? 7) with false by (symmetry; apply Nat.ltb_ge; lia).
      done.
Qed.

(** An accepted password is a string of at most 30 characters. *)
Lemma validated_password_length e p :
  validateUser e p = None -> exists sp, p = Some (JStr sp) /\ String.length sp <= 30.
Proof.
  unfold validateUser. destruct (email_error e); [done|].
  intros (sp & -> & _ & _ & Hl)%password_error_None. exists sp. split; [done | lia].
Qed.

(** C21: [validateUser] accepts exactly a string email the address rule
    accepts and a string password of 7 to 30 ASCII letters and digits:
    [min(7)] and the pattern's [{3,30}] together bound the length. *)
Theorem validateUser_None_iff e p :
  validateUser e p = None <->
  (exists se, e = Some (JStr se) /\ email_valid se = true) /\
  (exists sp, p = Some (JStr sp) /\ str_forall is_alnum sp = true /\
              7 <= String.length sp <= 30).
Proof.
  unfold validateUser. rewrite <- email_error_None, <- password_error_None.
  destruct (email_error e); [split; [done | by intros [? _]] | naive_solver].
Qed.

(** An address the email rule accepts has exactly one [@], a
    non-empty local part, at most 254 characters, at least two domain
    labels, and a top-level label that is [com] or [net] in any case. *)
Theorem email_valid_shape s :
  email_valid s = true ->
  exists local domain,
    js_split "@" s = [local; domain] /\ local <> "" /\ String.length s <= 254 /\
    2 <= List.length (js_split "." domain) /\
    to_lower (List.last (js_split "." domain) "") ∈ allowed_tlds.
Proof.
  unfold email_valid. intros [_ Hs]%andb_prop.
  destruct (js_split "@" s) as [|local [|domain [|? ?]]]; try done.
  apply andb_prop in Hs as [[[[Hl Hlen]%andb_prop _]%andb_prop _]%andb_prop Hd].
  exists local, domain. unfold domain_ok in Hd.
  repeat match type of Hd with (_ && _) = true => apply andb_prop in Hd as [Hd ?] end.
  repeat match goal with
  | H : (_ <=? _) = true |- _ => apply Nat.leb_le in H
  | H : bool_decide _ = true |- _ => apply bool_decide_eq_true in H
  end.
  split_and!; try assumption; [done | by destruct (String.eqb_spec local "")].
Qed.

Lemma email_valid_shape_witness :
  email_valid "Alice.B@mail.Example.COM" = true /\
  js_split "@" "Alice.B@mail.Example.COM" = ["Alice.B"; "mail.Example.COM"].
Proof.
  assert (H : email_valid "Alice.B@mail.Example.COM" = true) by (vm_compute; reflexivity).
  split; [exact H|].
  destruct (email_valid_shape _ H) as (l & d & Hsplit & _). vm_compute in Hsplit |- *.
  reflexivity.
Defined.

End Joi.
