(* ===== verification/Services.v ===== *)
(** * The external collaborators of the handlers, as interfaces

    The handlers call three libraries whose code is not part of the
    repository; each is an interface (a type class) stating what the
    handlers rely on, and the handlers' theorems are proved against it:
    - [PasswordHasher]: [bcrypt.hash(password, 10)] and
      [bcrypt.compare(password, hash)];
    - [TokenService]: [generateToken(user)] and [verifyToken(token)] of
      [routes/api/auth.js] (not under [src/]; modelled from the spec,
      sections 4.2-4.6): a signed token embedding the user's id, with no
      server-side revocation;
    - [Md5]: the digest gravatar applies to the address, 32 lowercase
      hexadecimal digits; its instance [md5_rfc1321] is the RFC 1321
      digest of [Md5.v].  [gravatar_url] is [gravatar.url(email,
      { protocol: "https", s: "100" })] on the trimmed, lower-cased
      address; its theorems are proved against the interface.
    Module [ExampleServices] gives toy bcrypt and token instances, used
    only to evaluate the theorems on concrete inputs. *)

From S2P Require Import Prelude UserModel Md5.
From Stdlib Require Import DecimalString DecimalNat.

(** bcrypt: [bcrypt_hash cost salt plaintext], [bcrypt_compare plaintext hash].
    The salt is the random part of a hash; the laws are the idealised
    contract of bcrypt: a hash verifies its own plaintext and no other
    plaintext of at most 72 bytes (bcrypt ignores the bytes after the
    72nd), and it is printed in the modular crypt format ["$2b$..."]. *)
Class PasswordHasher := {
  bcrypt_hash : nat -> string -> string -> string;
  bcrypt_compare : string -> string -> bool;
  bcrypt_compare_hash c salt p : bcrypt_compare p (bcrypt_hash c salt p) = true;
  bcrypt_compare_sound p h :
    bcrypt_compare p h = true -> exists c salt, h = bcrypt_hash c salt p;
  bcrypt_hash_inj c c' salt salt' p p' :
    String.length p <= 72 -> String.length p' <= 72 ->
    bcrypt_hash c salt p = bcrypt_hash c' salt' p' -> p = p';
  bcrypt_hash_format c salt p : exists rest, bcrypt_hash c salt p = "$2b$" +:+ rest
}.

(** The signed session token of [auth.js]: it decodes to the id of the
    user it was issued for. *)
Class TokenService := {
  generateToken : User.user_doc -> string;
  verifyToken : string -> option nat;
  verifyToken_generateToken u : verifyToken (generateToken u) = Some (User.uid u)
}.

(** The hexadecimal MD5 digest gravatar applies to the address: 32
    lowercase hexadecimal digits. *)
Class Md5 := {
  md5_hex : string -> string;
  md5_hex_length' s : String.length (md5_hex s) = 32;
  md5_hex_digits' s : str_forall MD5.is_hex_lower (md5_hex s) = true
}.

(** The digest node's [crypto] computes, as [Md5.v] defines it. *)
#[export] Instance md5_rfc1321 : Md5 :=
  {| md5_hex := MD5.md5_hex; md5_hex_length' := MD5.md5_hex_length;
     md5_hex_digits' := MD5.md5_hex_digits |}.

(** The white space of [String.prototype.trim] among the code units
    0-255: tab, line feed, vertical tab, form feed, carriage return,
    space and no-break space. *)
Definition is_space (c : ascii) : bool :=
  let n := nat_of_ascii c in
  ((9 <=? n) && (n <=? 13)) || (n =? 32) || (n =? 160).

Fixpoint trim_start (s : string) : string :=
  match s with
  | String c r => if is_space c then trim_start r else s
  | EmptyString => EmptyString
  end.

Fixpoint str_rev (s acc : string) : string :=
  match s with EmptyString => acc | String c r => str_rev r (String c acc) end.

(** [String.prototype.trim]. *)
Definition trim (s : string) : string :=
  str_rev (trim_start (str_rev (trim_start s) EmptyString)) EmptyString.

(** [gravatar.url(email, { protocol: "https", s: "100" })] (line 56 of
    users.js): the https base, the digest of the normalised address and
    the size query. *)
Definition gravatar_url `{Md5} (email : string) : string :=
  "https://s.gravatar.com/avatar/" +:+ md5_hex (to_lower (trim email)) +:+ "?s=100".

(** ** Lemmas on [trim] and [to_lower] *)

Lemma is_space_lower c : is_space (ascii_to_lower c) = is_space c.
Proof. destruct c as [[] [] [] [] [] [] [] []]; reflexivity. Qed.

Lemma ascii_to_lower_idem c : ascii_to_lower (ascii_to_lower c) = ascii_to_lower c.
Proof. destruct c as [[] [] [] [] [] [] [] []]; reflexivity. Qed.

Lemma to_lower_idem s : to_lower (to_lower s) = to_lower s.
Proof. unfold to_lower. induction s as [|c r IH]; simpl; [done|]. by rewrite ascii_to_lower_idem, IH. Qed.

Lemma str_rev_acc s acc : str_rev s acc = str_rev s EmptyString +:+ acc.
Proof.
  revert acc. induction s as [|c r IH]; intros acc; simpl; [done|].
  rewrite IH, (IH (String c EmptyString)), str_app_assoc. done.
Qed.

Lemma str_rev_involutive s : str_rev (str_rev s EmptyString) EmptyString = s.
Proof.
  enough (H : forall acc, str_rev (str_rev s acc) EmptyString = str_rev acc EmptyString +:+ s).
  { by rewrite H. }
  induction s as [|c r IH]; intros acc; simpl; [by rewrite str_app_nil_r|].
  rewrite IH. simpl. rewrite str_rev_acc, str_app_assoc. done.
Qed.

Lemma to_lower_rev s acc : to_lower (str_rev s acc) = str_rev (to_lower s) (to_lower acc).
Proof. revert acc. induction s as [|c r IH]; intros acc; simpl; [done|]. by rewrite IH. Qed.

Lemma to_lower_trim_start s : to_lower (trim_start s) = trim_start (to_lower s).
Proof.
  induction s as [|c r IH]; [done|]. simpl. rewrite is_space_lower.
  by destruct (is_space c).
Qed.

Lemma to_lower_trim s : to_lower (trim s) = trim (to_lower s).
Proof. unfold trim. by rewrite to_lower_rev, to_lower_trim_start, to_lower_rev, to_lower_trim_start. Qed.

(** [trim_start] stops at a character that is not white space. *)
Definition starts_solid (s : string) : Prop :=
  match s with String c _ => is_space c = false | EmptyString => True end.

Lemma trim_start_solid s : starts_solid (trim_start s).
Proof. induction s as [|c r IH]; simpl; [done|]. destruct (is_space c) eqn:E; [done | exact E]. Qed.

Lemma trim_start_id s : starts_solid s -> trim_start s = s.
Proof. destruct s as [|c r]; simpl; [done|]. by intros ->. Qed.

Lemma str_rev_snoc s c acc : str_rev (s +:+ String c EmptyString) acc = String c (str_rev s acc).
Proof. revert acc. induction s as [|d r IH]; intros acc; [done|]. rewrite str_app_cons. simpl. apply IH. Qed.

(** The last character of [s] is the first one of its reverse. *)
Definition ends_solid (s : string) : Prop := starts_solid (str_rev s EmptyString).

Lemma trim_start_rev_solid s :
  starts_solid s -> ends_solid (trim_start (str_rev s EmptyString)).
Proof.
  intros Hs. unfold ends_solid.
  remember (str_rev s EmptyString) as t eqn:Ht.
  assert (Hs' : ends_solid t) by (unfold ends_solid; subst t; by rewrite str_rev_involutive).
  clear Ht Hs. induction t as [|c r IH]; simpl; [done|].
  destruct (is_space c) eqn:E; [apply IH | exact Hs'].
  unfold ends_solid in Hs' |- *. simpl in Hs'. rewrite str_rev_acc in Hs'.
  destruct (str_rev r EmptyString) as [|d u] eqn:Er; simpl in Hs'; [by rewrite E in Hs'|exact Hs'].
Qed.

Lemma trim_idem s : trim (trim s) = trim s.
Proof.
  unfold trim. set (u := trim_start (str_rev (trim_start s) EmptyString)).
  assert (Hu : ends_solid u) by apply trim_start_rev_solid, trim_start_solid.
  assert (Hu' : starts_solid u) by apply trim_start_solid.
  rewrite (trim_start_id (str_rev u EmptyString)) by exact Hu.
  rewrite str_rev_involutive, (trim_start_id u) by exact Hu'. done.
Qed.

(** ** The avatar URL *)

Section Gravatar.
Context `{Md5}.

(** The avatar URL [register] stores is the https base, 32
    lowercase hexadecimal digits and [?s=100]: 68 characters. *)
Theorem gravatar_url_shape email :
  exists h, gravatar_url email = "https://s.gravatar.com/avatar/" +:+ h +:+ "?s=100" /\
            String.length h = 32 /\ str_forall MD5.is_hex_lower h = true /\
            String.length (gravatar_url email) = 68.
Proof.
  exists (md5_hex (to_lower (trim email))). split_and!; [done | apply md5_hex_length' | apply md5_hex_digits' |].
  unfold gravatar_url. rewrite !str_length_app, md5_hex_length'. reflexivity.
Qed.

(** The avatar URL depends only on the normalised address: an
    address and its trimmed, lower-cased form get the same avatar. *)
Theorem gravatar_url_normalised email :
  gravatar_url (to_lower (trim email)) = gravatar_url email.
Proof. unfold gravatar_url. by rewrite <- to_lower_trim, trim_idem, to_lower_idem. Qed.

End Gravatar.

Module ExampleServices.

Definition ex_hash (c : nat) (salt p : string) : string := "$2b$" +:+ p.

#[export] Program Instance ex_hasher : PasswordHasher := {|
  bcrypt_hash := ex_hash;
  bcrypt_compare p h := String.eqb h ("$2b$" +:+ p)
|}.
Next Obligation. intros. apply String.eqb_refl. Qed.
Next Obligation.
  intros p h H. apply String.eqb_eq in H. subst. by exists 0, "".
Qed.
Next Obligation. intros c c' s s' p p' _ _. apply (inj (String.append "$2b$")). Qed.
Next Obligation. intros. unfold ex_hash. eauto. Qed.

(** A token is ["t"] and the decimal id (an unsigned stand-in for a JWT). *)
Definition ex_generate (u : User.user_doc) : string :=
  String "t" (NilEmpty.string_of_uint (Nat.to_uint (User.uid u))).

Definition ex_verify (t : string) : option nat :=
  match t with
  | String c r =>
      if Ascii.eqb c "t" then option_map Nat.of_uint (NilEmpty.uint_of_string r) else None
  | EmptyString => None
  end.

Lemma ex_verify_generate u : ex_verify (ex_generate u) = Some (User.uid u).
Proof.
  unfold ex_verify, ex_generate. simpl. rewrite NilEmpty.usu. simpl.
  by rewrite DecimalNat.Unsigned.of_to.
Qed.

#[export] Instance ex_tokens : TokenService :=
  {| generateToken := ex_generate; verifyToken := ex_verify;
     verifyToken_generateToken := ex_verify_generate |}.

End ExampleServices.
