(* ===== verification/Upload.v ===== *)
(** * Avatar files: [path.join], multer's disk storage and [fs.rename]

    The avatar route of [src/routes/api/users.js] (lines 13-25 and
    187-224) places files with three library calls, modelled here:
    - [Path]: Node's POSIX [path.join(...)] and [path.normalize]:
      empty arguments dropped, the rest joined with ["/"], then [.] and
      [..] segments resolved ([normalize_segs] is [normalizeString]);
    - [busboy_basename]: the part of a client file name after its last
      ["/"] or ["\"], [""] for ["."] and [".."]: multer's
      [file.originalname], as the multipart parser hands it over;
    - [Disk]: the file system as a finite map from paths to contents,
      with [rename] ([fs.rename]);
    - [multer_single]: [multer({ storage: diskStorage({ destination:
      tempDir, filename: (req, file, cb) => cb(null, file.originalname) })
      }).single("avatar")], which stores the one file of field
      ["avatar"] at [path.join(tempDir, originalname)].
    A request with a file under another field, or with more than one
    file, is refused: a first file of another field before anything is
    written, a second file after multer wrote the first one, which it
    then removes. *)

From S2P Require Import Prelude Http.

Module Path.

(** The [".."] step of [normalizeString]: drop the last segment, or keep
    the [".."] when nothing can be dropped and the path is relative. *)
Definition dotdot (allow_above : bool) (acc : list string) : list string :=
  match acc with
  | top :: acc' => if String.eqb top ".." then (if allow_above then ".." :: acc else acc) else acc'
  | [] => if allow_above then [".."] else []
  end.

(** [normalizeString(path, allowAboveRoot)] on the segments of the path;
    [acc] holds the kept segments, last first. *)
Fixpoint normalize_segs (allow_above : bool) (segs acc : list string) : list string :=
  match segs with
  | [] => acc
  | s :: r =>
      if String.eqb s "" || String.eqb s "." then normalize_segs allow_above r acc
      else if String.eqb s ".." then normalize_segs allow_above r (dotdot allow_above acc)
      else normalize_segs allow_above r (s :: acc)
  end.

(** [path.posix.normalize(p)] *)
Definition normalize (p : string) : string :=
  if String.eqb p "" then "." else
  let absolute := opt_test (Ascii.eqb "/") (first_char p) in
  let trailing := opt_test (Ascii.eqb "/") (last_char p) in
  let body := js_join "/" (rev (normalize_segs (negb absolute) (js_split "/" p) [])) in
  if String.eqb body "" then (if absolute then "/" else if trailing then "./" else ".")
  else let body := if trailing then body +:+ "/" else body in
       if absolute then "/" +:+ body else body.

(** [path.posix.join(...args)] *)
Definition join (args : list string) : string :=
  match List.filter (fun a => negb (String.eqb a "")) args with
  | [] => "."
  | ne => normalize (js_join "/" ne)
  end.

Definition not_slash (c : ascii) : bool := negb (Ascii.eqb c "/").

(** A segment that [normalize] keeps as it is. *)
Definition clean_seg (s : string) : bool :=
  negb (String.eqb s "") && negb (String.eqb s ".") && negb (String.eqb s "..") &&
  str_forall not_slash s.

(** The absolute directory with the given clean segments. *)
Definition abs_dir (segs : list string) : string := "/" +:+ js_join "/" segs.

(** ** Lemmas: [normalize] keeps a path made of clean segments *)

Lemma opt_test_not_slash o :
  opt_test not_slash o = true -> opt_test (Ascii.eqb "/") o = false.
Proof.
  destruct o as [c|]; simpl; [|done]. unfold not_slash. intros H.
  destruct (Ascii.eqb_spec "/" c) as [<-|Hc]; [by rewrite Ascii.eqb_refl in H | done].
Qed.

Lemma clean_seg_props s :
  clean_seg s = true ->
  s <> "" /\ str_forall not_slash s = true /\
  opt_test not_slash (first_char s) = true /\ opt_test not_slash (last_char s) = true.
Proof.
  unfold clean_seg. intros [[[He _]%andb_prop _]%andb_prop Hf]%andb_prop.
  assert (Hs : s <> "") by (intros ->; by rewrite String.eqb_refl in He).
  split_and!; [done | done | | by apply str_forall_last].
  destruct s as [|c r]; [done|]. simpl in *. by apply andb_prop in Hf as [-> _].
Qed.

Lemma first_char_app (a b : string) : a <> "" -> first_char (a +:+ b) = first_char a.
Proof. by destruct a. Qed.

Lemma str_app_nonempty_l (a b : string) : a <> "" -> a +:+ b <> "".
Proof. by destruct a. Qed.

(** The join of clean segments: not empty, no slash at either end. *)
Lemma join_clean_props (l : list string) :
  l <> [] -> Forall (fun s => clean_seg s = true) l ->
  js_join "/" l <> "" /\ opt_test not_slash (first_char (js_join "/" l)) = true /\
  opt_test not_slash (last_char (js_join "/" l)) = true.
Proof.
  induction l as [|x [|y r] IH]; [done| |]; intros _ Hall; inversion Hall as [|? ? Hx Hr]; subst.
  - apply clean_seg_props in Hx as (? & ? & ? & ?). done.
  - apply clean_seg_props in Hx as (Hne & _ & Hfirst & _).
    destruct (IH ltac:(done) Hr) as (Hj & _ & Hlast).
    rewrite js_join_cons2, ?str_app_assoc. split_and!.
    + by apply str_app_nonempty_l.
    + by rewrite first_char_app.
    + by rewrite !last_char_app.
Qed.

Lemma normalize_segs_clean b (l acc : list string) :
  Forall (fun s => clean_seg s = true) l -> normalize_segs b l acc = rev l ++ acc.
Proof.
  revert acc. induction l as [|x r IH]; intros acc Hall; [done|].
  inversion Hall as [|? ? Hx Hr]; subst. unfold clean_seg in Hx. simpl.
  destruct (String.eqb x ""), (String.eqb x "."), (String.eqb x ".."); simpl in *;
    try discriminate.
  rewrite IH by done. by rewrite <- app_assoc.
Qed.

Lemma clean_no_slash l :
  Forall (fun s => clean_seg s = true) l -> Forall (fun w => str_forall not_slash w = true) l.
Proof. intros H. eapply Forall_impl; [exact H|]. intros s Hs. by apply clean_seg_props. Qed.

(** A relative path of clean segments is already normal. *)
Lemma normalize_clean_rel (l : list string) :
  l <> [] -> Forall (fun s => clean_seg s = true) l ->
  normalize (js_join "/" l) = js_join "/" l.
Proof.
  intros Hl Hall. destruct (join_clean_props l Hl Hall) as (Hne & Hf & Hla).
  unfold normalize. rewrite (proj2 (String.eqb_neq _ _) Hne).
  rewrite (opt_test_not_slash _ Hf), (opt_test_not_slash _ Hla). simpl.
  rewrite js_split_join by (done || by apply clean_no_slash).
  rewrite normalize_segs_clean, app_nil_r, rev_involutive by done.
  by rewrite (proj2 (String.eqb_neq _ _) Hne).
Qed.

Lemma normalize_segs_empty b (l acc : list string) :
  normalize_segs b ("" :: l) acc = normalize_segs b l acc.
Proof. reflexivity. Qed.

(** An absolute path of clean segments is already normal. *)
Lemma normalize_clean_abs (l : list string) :
  l <> [] -> Forall (fun s => clean_seg s = true) l ->
  normalize ("/" +:+ js_join "/" l) = "/" +:+ js_join "/" l.
Proof.
  intros Hl Hall. destruct (join_clean_props l Hl Hall) as (Hne & _ & Hla).
  unfold normalize.
  rewrite (proj2 (String.eqb_neq _ _) (str_app_nonempty_l "/" _ ltac:(done))).
  assert (Hf : first_char ("/" +:+ js_join "/" l) = Some "/"%char) by reflexivity.
  rewrite Hf, last_char_app, (opt_test_not_slash _ Hla) by done.
  simpl opt_test. rewrite Ascii.eqb_refl. simpl negb.
  replace (js_split "/" ("/" +:+ js_join "/" l)) with ("" :: js_split "/" (js_join "/" l))
    by (symmetry; apply (js_split_app_sep "/" ""); done).
  rewrite normalize_segs_empty, js_split_join by (done || by apply clean_no_slash).
  rewrite normalize_segs_clean, app_nil_r, rev_involutive by done.
  by rewrite (proj2 (String.eqb_neq _ _) Hne).
Qed.

End Path.

(** ** Multer's file name *)

Definition is_path_sep (c : ascii) : bool := Ascii.eqb c "/" || Ascii.eqb c "\".

Fixpoint after_last_sep (s : string) : string :=
  match s with
  | EmptyString => EmptyString
  | String c r =>
      if str_exists is_path_sep r then after_last_sep r
      else if is_path_sep c then r else s
  end.

(** busboy's [basename(filename)], which becomes [file.originalname]. *)
Definition busboy_basename (s : string) : string :=
  let b := after_last_sep s in
  if String.eqb b ".." || String.eqb b "." then "" else b.

(** ** The disk *)

Module Disk.

Abbreviation disk := (gmap string string).

(** [await fs.rename(src, dst)]: moves the file, replacing [dst]. *)
Definition rename (src dst : string) : stexn disk thrown unit :=
  fun fs =>
    match fs !! src with
    | None => (fs, inl (RuntimeError ("ENOENT: no such file or directory, rename " +:+ src)))
    | Some c => (<[dst := c]> (delete src fs), inr tt)
    end.

End Disk.

(** ** [upload.single("avatar")] *)

Record file_part : Type := mk_part {
  fieldname : string;
  filename : string;
  file_content : string
}.

(** The part of [req.file] the handler reads: [path] and [originalname]. *)
Record uploaded_file : Type := mk_uploaded {
  file_path : string;
  originalname : string
}.

(** [upload.single(field)] on the file parts of the request, in stream
    order: a first file of another field is refused ([LIMIT_UNEXPECTED_FILE])
    before anything is written; a first file of [field] is written under
    its basename (a directory name fails with [EISDIR]); any further file
    is unexpected, and multer then removes the file it wrote. *)
Definition multer_single (field destination : string) (parts : list file_part)
  : stexn Disk.disk thrown (option uploaded_file) :=
  match parts with
  | [] => ret None
  | p :: rest =>
      if String.eqb (fieldname p) field then
        let name := busboy_basename (filename p) in
        if String.eqb name "" then throw (RuntimeError "EISDIR: illegal operation on a directory")
        else
          let path := Path.join [destination; name] in
          fun fs =>
            let fs1 := <[path := file_content p]> fs in
            match rest with
            | [] => (fs1, inr (Some {| file_path := path; originalname := name |}))
            | _ :: _ => (delete path fs1, inl (RuntimeError "Unexpected field"))
            end
      else throw (RuntimeError "Unexpected field")
  end.

(** ** Lemmas: where multer and the handler put a file *)

Lemma after_last_sep_no_sep s : str_exists is_path_sep (after_last_sep s) = false.
Proof.
  induction s as [|c r IH]; [done|]. simpl.
  destruct (str_exists is_path_sep r) eqn:Er; [done|].
  destruct (is_path_sep c) eqn:Ec; [done|]. simpl. by rewrite Ec, Er.
Qed.

Lemma str_exists_forall_neg p s :
  str_exists p s = false -> str_forall (fun c => negb (p c)) s = true.
Proof.
  induction s as [|c r IH]; [done|]. simpl.
  intros [-> Hr]%orb_false_elim. by rewrite IH.
Qed.

(** The name multer keeps is a clean path segment, unless it is empty. *)
Lemma busboy_basename_clean s :
  busboy_basename s <> "" -> Path.clean_seg (busboy_basename s) = true.
Proof.
  unfold busboy_basename, Path.clean_seg.
  pose proof (after_last_sep_no_sep s) as Hns.
  destruct (String.eqb (after_last_sep s) "..") eqn:E1,
    (String.eqb (after_last_sep s) ".") eqn:E2; simpl; try done.
  intros Hne. rewrite E1, E2, (proj2 (String.eqb_neq _ _) Hne). simpl.
  apply str_exists_forall_neg in Hns. revert Hns.
  generalize (after_last_sep s). intros t. induction t as [|c r IH]; [done|].
  simpl. intros [Hc Hr]%andb_prop. rewrite IH by done.
  unfold is_path_sep, Path.not_slash in *. by destruct (Ascii.eqb c "/").
Qed.

Lemma filter_two_nonempty (a b : string) :
  a <> "" -> b <> "" -> List.filter (fun x => negb (String.eqb x "")) [a; b] = [a; b].
Proof.
  intros Ha Hb. simpl.
  by rewrite (proj2 (String.eqb_neq _ _) Ha), (proj2 (String.eqb_neq _ _) Hb).
Qed.

(** [path.join(dir, name)] for an absolute directory of clean segments
    and a clean name: the file lands directly in that directory. *)
Lemma join_abs_dir (segs : list string) (name : string) :
  segs <> [] -> Forall (fun s => Path.clean_seg s = true) segs ->
  Path.clean_seg name = true ->
  Path.join [Path.abs_dir segs; name] = Path.abs_dir (segs ++ [name]).
Proof.
  intros Hs Hall Hn. pose proof (Path.clean_seg_props _ Hn) as (Hne & _).
  unfold Path.join. rewrite filter_two_nonempty by (try done; by apply Path.str_app_nonempty_l).
  unfold Path.abs_dir. simpl js_join.
  rewrite js_join_snoc, str_app_assoc by done.
  rewrite <- js_join_snoc by done.
  apply Path.normalize_clean_abs; [by destruct segs|].
  apply Forall_app; split; [done | by constructor].
Qed.

(** [path.join(dir, name)] for a relative directory of clean segments. *)
Lemma join_rel_dir (segs : list string) (name : string) :
  segs <> [] -> Forall (fun s => Path.clean_seg s = true) segs ->
  Path.clean_seg name = true ->
  Path.join [js_join "/" segs; name] = js_join "/" (segs ++ [name]).
Proof.
  intros Hs Hall Hn. pose proof (Path.clean_seg_props _ Hn) as (Hne & _).
  destruct (Path.join_clean_props segs Hs Hall) as (Hj & _).
  unfold Path.join. rewrite filter_two_nonempty by done. simpl js_join.
  rewrite <- js_join_snoc by done.
  apply Path.normalize_clean_rel; [by destruct segs|].
  apply Forall_app; split; [done | by constructor].
Qed.

(** What [upload.single(field)] does with one file of that field. *)
Lemma multer_single_one field dest p fs :
  fieldname p = field -> busboy_basename (filename p) <> "" ->
  multer_single field dest [p] fs =
  (<[Path.join [dest; busboy_basename (filename p)] := file_content p]> fs,
   inr (Some {| file_path := Path.join [dest; busboy_basename (filename p)];
                originalname := busboy_basename (filename p) |})).
Proof.
  intros <- Hn. unfold multer_single. rewrite String.eqb_refl.
  by rewrite (proj2 (String.eqb_neq _ _) Hn).
Qed.

(** C18: Multer stores an accepted file directly inside its destination
    directory, under a clean name: whatever name the client sends
    (["../../x"], ["C:\x"], [".."]), no file lands elsewhere. *)
Theorem multer_stays_in_destination field dsegs parts fs fs' f :
  dsegs <> [] -> Forall (fun s => Path.clean_seg s = true) dsegs ->
  multer_single field (Path.abs_dir dsegs) parts fs = (fs', inr (Some f)) ->
  Path.clean_seg (originalname f) = true /\
  file_path f = Path.abs_dir (dsegs ++ [originalname f]) /\
  exists c, fs' = <[file_path f := c]> fs.
Proof.
  intros Hd Hall. unfold multer_single.
  destruct parts as [|p rest]; [done|].
  destruct (String.eqb (fieldname p) field); [|done].
  destruct (String.eqb (busboy_basename (filename p)) "") eqn:Hn; [done|].
  destruct rest as [|p' r]; [|done].
  apply String.eqb_neq in Hn. intros [= <- <-]. simpl.
  pose proof (busboy_basename_clean _ Hn) as Hc.
  split_and!; [done | by apply join_abs_dir | eauto].
Qed.

(** A client name that tries to climb out of [/app/temp]. *)
Definition traversal_part : file_part := mk_part "avatar" "../../etc/passwd" "x".

Lemma multer_stays_in_destination_witness :
  ["app"; "temp"] <> [] /\ Forall (fun s => Path.clean_seg s = true) ["app"; "temp"] /\
  multer_single "avatar" (Path.abs_dir ["app"; "temp"]) [traversal_part] ∅ =
    (<["/app/temp/passwd" := "x"]> ∅, inr (Some (mk_uploaded "/app/temp/passwd" "passwd"))) /\
  file_path (mk_uploaded "/app/temp/passwd" "passwd") =
    Path.abs_dir (["app"; "temp"] ++ [originalname (mk_uploaded "/app/temp/passwd" "passwd")]).
Proof.
  assert (Hd : ["app"; "temp"] <> []) by done.
  assert (Hc : Forall (fun s => Path.clean_seg s = true) ["app"; "temp"])
    by (repeat constructor).
  assert (Hm : multer_single "avatar" (Path.abs_dir ["app"; "temp"]) [traversal_part] ∅ =
               (<["/app/temp/passwd" := "x"]> ∅, inr (Some (mk_uploaded "/app/temp/passwd" "passwd"))))
    by (vm_compute; reflexivity).
  split_and!; [exact Hd | exact Hc | exact Hm |].
  exact (proj1 (proj2 (multer_stays_in_destination "avatar" _ _ _ _ _ Hd Hc Hm))).
Defined.
