(* ===== verification/Handlers.v ===== *)
(** * The route handlers of [src/routes/api/users.js]

    The server state is the [User] collection and the disk.  Each route
    is the composition Express runs for it: [passportAuthenticate] (from
    [auth.js], not under [src/]: modelled from spec section 4.6), then
    multer for the avatar route, then the handler body, whose awaited
    calls run in the state and exception monad of the prelude; [serve]
    sends what the handler returns, or what the central error handler
    makes of what it throws.  The bcrypt salt, random in the code, is an
    argument of [serve]; [dirname] is the [__dirname] of users.js. *)

From S2P Require Import Prelude Http UserModel Validation Services Upload.

Module Users.

Record server : Type := mk_server {
  db : User.store;
  disk : Disk.disk
  }.

Record request : Type := mk_request {
  req_body : list (string * json);
  req_authorization : option string;
  req_files : list file_part
  }.

Definition on_db {A} (m : stexn User.store thrown A) : stexn server thrown A :=
  fun sv => let '(st', r) := m (db sv) in ({| db := st'; disk := disk sv |}, r).

Definition on_disk {A} (m : stexn Disk.disk thrown A) : stexn server thrown A :=
  fun sv => let '(fs', r) := m (disk sv) in ({| db := db sv; disk := fs' |}, r).

(** A body value the handler goes on with once Joi has accepted it. *)
Definition str_of (v : option json) : string :=
  match v with Some (JStr s) => s | _ => "" end.

(** [{ email, subscription, avatarURL }] as [res.json] prints it. *)
Definition user_json (email subscription : string) (avatarURL : option string) : json :=
  jobj [("email", Some (JStr email)); ("subscription", Some (JStr subscription));
        ("avatarURL", option_map JStr avatarURL)].

(** [{ status: "success", code: 200, data: {...} }] *)
Definition envelope (u : User.user_doc) : json :=
  jobj [("status", Some (JStr "success")); ("code", Some (JNum 200));
        ("data", Some (user_json (User.email u) (User.subscription u) (User.avatarURL u)))].

(** [req.headers.authorization.split(" ")[1]] on a present header. *)
Definition bearer_part (h : string) : option string := js_split " " h !! 1.

Definition header_error : thrown :=
  RuntimeError "TypeError: Cannot read properties of undefined (reading 'split')".

(** [const allowedSubscriptions = ["starter", "pro", "business"]] *)
Definition allowedSubscriptions : list string := ["starter"; "pro"; "business"].

(** [allowedSubscriptions.includes(subscription)] *)
Definition js_includes (l : list string) (v : option json) : bool :=
  match v with Some (JStr s) => bool_decide (s ∈ l) | _ => false end.

(** [passportAuthenticate]: the bearer token of the header, its user id,
    the user; 401 otherwise. *)
Definition bearer_token (h : option string) : option string :=
  match h with
  | Some h =>
      match js_split " " h with
      | [scheme; tok] =>
          if String.eqb (to_lower scheme) "bearer" && negb (String.eqb tok "") then Some tok else None
      | _ => None
      end
  | None => None
  end.

Section Handlers.
Context `{PasswordHasher} `{TokenService} `{Md5}.

(** The user a header authenticates: its bearer token, the id the
    token decodes to, the document with that id. *)
Definition auth_user (h : option string) (st : User.store) : option User.user_doc :=
  match bearer_token h with
  | Some tok => match verifyToken tok with
                | Some id => User.findById id st
                | None => None
                end
  | None => None
  end.

Definition passportAuthenticate (h : option string) : stexn server thrown User.user_doc :=
  fun sv =>
    match auth_user h (db sv) with
    | Some u => (sv, inr u)
    | None => (sv, inl (HttpError 401 "Unauthorized"))
    end.

(** POST /users/register *)
Definition register (salt : string) (req : request) : stexn server thrown response :=
  let email := body_get (req_body req) "email" in
  let password := body_get (req_body req) "password" in
  match Joi.validateUser email password with
  | Some msg => throw (HttpError 400 msg)
  | None =>
      let email := str_of email in
      let password := str_of password in
      existingUser <- on_db (gets (User.findOne_email email)) ;;
      match existingUser with
      | Some _ => throw (HttpError 409 "Email in use")
      | None =>
          let avatarURL := gravatar_url email in
          let hashedPassword := bcrypt_hash 10 salt password in
          user <- on_db (User.create
                           {| User.in_password := Some hashedPassword;
                              User.in_email := Some email;
                              User.in_subscription := None;
                              User.in_avatarURL := Some avatarURL;
                              User.in_token := None;
                              User.in_verify := None;
                              User.in_verificationToken := None |}) ;;
          let token := generateToken user in
          ret (res_json 201 (jobj [("token", Some (JStr token));
                                   ("user", Some (user_json (User.email user) "starter"
                                                            (Some avatarURL)))]))
      end
  end.

(** POST /users/login *)
Definition login (req : request) : stexn server thrown response :=
  let email := body_get (req_body req) "email" in
  let password := body_get (req_body req) "password" in
  match Joi.validateUser email password with
  | Some msg => throw (HttpError 400 msg)
  | None =>
      let email := str_of email in
      let password := str_of password in
      user <- on_db (gets (User.findOne_email email)) ;;
      match user with
      | Some u =>
          if bcrypt_compare password (User.password u) then
            let token := generateToken u in
            ret (res_json 200 (jobj [("token", Some (JStr token));
                                     ("user", Some (user_json (User.email u) "starter"
                                                              (User.avatarURL u)))]))
          else throw (HttpError 401 "Invalid credentials")
      | None => throw (HttpError 401 "Invalid credentials")
      end
  end.

(** POST /users/logout *)
Definition logout (req : request) : stexn server thrown response :=
  match req_authorization req with
  | None => throw header_error
  | Some h =>
      let decodedToken := match bearer_part h with Some t => verifyToken t | None => None end in
      match decodedToken with
      | None => throw (HttpError 401 "Token is invalid")
      | Some userId =>
          user <- on_db (gets (User.findById userId)) ;;
          match user with
          | None => throw (HttpError 401 "Not authorized")
          | Some _ => ret (res_json 204 (jobj [("message", Some (JStr "Successful Log Out"))]))
          end
      end
  end.

(** GET /users/current, after [passportAuthenticate] set [req.user]. *)
Definition current (user : option User.user_doc) (req : request) : stexn server thrown response :=
  match req_authorization req with
  | None => throw header_error
  | Some h =>
      let token := bearer_part h in
      match user with
      | None => throw (HttpError 401 "Token is invalid")
      | Some u =>
          ret (res_json 200 (jobj [("token", option_map JStr token);
                                   ("user", Some (user_json (User.email u) (User.subscription u)
                                                            (User.avatarURL u)))]))
      end
  end.

(** PATCH /users *)
Definition updateSubscription (user : User.user_doc) (req : request) : stexn server thrown response :=
  let userId := User.uid user in
  let subscription := body_get (req_body req) "subscription" in
  if negb (js_includes allowedSubscriptions subscription) then
    throw (HttpError 400 "Invalid subscription value")
  else
    u <- on_db (User.findByIdAndUpdate userId (User.SetSubscription (str_of subscription))) ;;
    match u with
    | None => throw (HttpError 404 "User not found")
    | Some u => ret (res_json 200 (envelope u))
    end.

Variable dirname : string.

(** [path.join(__dirname, "../", "../", "temp")] *)
Definition tempDir : string := Path.join [dirname; "../"; "../"; "temp"].
(** [path.join(__dirname, "../", "../", "public", "avatars")] *)
Definition avatrsDir : string := Path.join [dirname; "../"; "../"; "public"; "avatars"].

(** PATCH /users/avatars, after passport and [upload.single("avatar")]. *)
Definition updateAvatar (user : User.user_doc) (file : option uploaded_file)
  : stexn server thrown response :=
  let userId := User.uid user in
  match file with
  | None => throw (RuntimeError "TypeError: Cannot destructure property 'path' of 'req.file' as it is undefined.")
  | Some f =>
      let resultUpload := Path.join [avatrsDir; originalname f] in
      on_disk (Disk.rename (file_path f) resultUpload) ;;;
      let avatarURL := Path.join ["avatars"; originalname f] in
      u <- on_db (User.findByIdAndUpdate userId (User.SetAvatarURL avatarURL)) ;;
      match u with
      | None => throw (HttpError 404 "User not found")
      | Some u => ret (res_json 200 (envelope u))
      end
  end.

Inductive route : Type :=
  | Register | Login | Logout | Current | PatchSubscription | PatchAvatar.

(** The middleware chain of each route. *)
Definition route_handler (r : route) (salt : string) (req : request)
  : stexn server thrown response :=
  match r with
  | Register => register salt req
  | Login => login req
  | Logout => logout req
  | Current => u <- passportAuthenticate (req_authorization req) ;; current (Some u) req
  | PatchSubscription =>
      u <- passportAuthenticate (req_authorization req) ;; updateSubscription u req
  | PatchAvatar =>
      u <- passportAuthenticate (req_authorization req) ;;
      f <- on_disk (multer_single "avatar" tempDir (req_files req)) ;;
      updateAvatar u f
  end.

(** One request, answered: the handler's response or the error
    middleware's. *)
Definition serve (r : route) (salt : string) (req : request) (sv : server) : server * response :=
  match route_handler r salt req sv with
  | (sv', inl e) => (sv', error_handler e)
  | (sv', inr res) => (sv', res)
  end.

End Handlers.

End Users.

(** * Lemmas on the handlers *)

Module UsersFacts.
Import Users.

Ltac unfold_routes :=
  unfold serve, route_handler, register, login, logout, current, updateSubscription,
    updateAvatar, passportAuthenticate, on_db, on_disk in *; run_monad.

Section Facts.
Context `{PasswordHasher} `{TokenService} `{Md5}.
Variable dirname : string.

Definition login_ok_json (u : User.user_doc) : json :=
  jobj [("token", Some (JStr (generateToken u)));
        ("user", Some (user_json (User.email u) "starter" (User.avatarURL u)))].

Definition invalid_credentials : response := error_handler (HttpError 401 "Invalid credentials").

(** The whole behaviour of POST /users/login on a valid body. *)
Lemma serve_login salt req sv :
  Joi.validateUser (body_get (req_body req) "email") (body_get (req_body req) "password") = None ->
  serve dirname Login salt req sv =
  (sv, match User.findOne_email (str_of (body_get (req_body req) "email")) (db sv) with
       | Some u => if bcrypt_compare (str_of (body_get (req_body req) "password")) (User.password u)
                   then res_json 200 (login_ok_json u) else invalid_credentials
       | None => invalid_credentials
       end).
Proof.
  intros Hv. destruct sv as [st fs]. unfold_routes. rewrite Hv.
  destruct (User.findOne_email _ _) as [u|]; [|reflexivity].
  destruct (bcrypt_compare _ _); reflexivity.
Qed.

Lemma str_of_JStr s : str_of (Some (JStr s)) = s.
Proof. reflexivity. Qed.

(** C5: On a body that passes validation, POST /users/login changes
    nothing and answers 200 exactly when a user has that email and
    [bcrypt.compare] accepts the password against the stored hash. *)
Theorem login_succeeds_iff salt req sv :
  Joi.validateUser (body_get (req_body req) "email") (body_get (req_body req) "password") = None ->
  fst (serve dirname Login salt req sv) = sv /\
  (res_status (snd (serve dirname Login salt req sv)) = 200%Z <->
   exists u, User.findOne_email (str_of (body_get (req_body req) "email")) (db sv) = Some u /\
             bcrypt_compare (str_of (body_get (req_body req) "password")) (User.password u) = true).
Proof.
  intros Hv. rewrite serve_login by done. split; [done|]. simpl.
  destruct (User.findOne_email _ _) as [u|]; [|split; [done | by intros (? & ? & _)]].
  destruct (bcrypt_compare _ _) eqn:Hc; split; try done; [eauto|].
  by intros (? & [= <-] & ?); congruence.
Qed.

(** C6: The two ways a login with a valid body can fail, an unknown
    email and a wrong password, give the very same response, so the
    answer does not tell whether the account exists. *)
Theorem login_401_uniform salt req sv :
  Joi.validateUser (body_get (req_body req) "email") (body_get (req_body req) "password") = None ->
  (User.findOne_email (str_of (body_get (req_body req) "email")) (db sv) = None \/
   exists u, User.findOne_email (str_of (body_get (req_body req) "email")) (db sv) = Some u /\
             bcrypt_compare (str_of (body_get (req_body req) "password")) (User.password u) = false) ->
  serve dirname Login salt req sv = (sv, error_handler (HttpError 401 "Invalid credentials")).
Proof.
  intros Hv Hfail. rewrite serve_login by done.
  destruct Hfail as [-> | (u & -> & ->)]; reflexivity.
Qed.

(** C7: Against a stored bcrypt hash of [p0] (at most 72 bytes), a
    login for that user's email succeeds with the password [p0] and
    with no other password. *)
Theorem login_password_check salt req sv u c salt0 p0 p :
  User.store_wf (db sv) -> In u (User.docs (db sv)) ->
  User.password u = bcrypt_hash c salt0 p0 -> String.length p0 <= 72 ->
  body_get (req_body req) "email" = Some (JStr (User.email u)) ->
  body_get (req_body req) "password" = Some (JStr p) ->
  Joi.validateUser (Some (JStr (User.email u))) (Some (JStr p)) = None ->
  (res_status (snd (serve dirname Login salt req sv)) = 200%Z <-> p = p0).
Proof.
  intros Hwf Hin Hpw Hl0 He Hp Hv.
  destruct (Joi.validated_password_length _ _ Hv) as (sp & [= <-] & Hl).
  rewrite serve_login by (by rewrite He, Hp). rewrite He, Hp, !str_of_JStr.
  rewrite User.findOne_email_In by done. rewrite Hpw.
  destruct (bcrypt_compare p (bcrypt_hash c salt0 p0)) eqn:Hc; simpl; split; try done.
  - intros _. apply bcrypt_compare_sound in Hc as (c' & s' & Hh).
    symmetry. apply (bcrypt_hash_inj c c' salt0 s'); [done | lia | done].
  - intros ->. by rewrite bcrypt_compare_hash in Hc.
Qed.

(** C8: A successful login answers [subscription: "starter"] whatever
    the user's stored subscription, unlike GET /users/current. *)
Theorem login_reports_starter salt req sv u :
  Joi.validateUser (body_get (req_body req) "email") (body_get (req_body req) "password") = None ->
  User.findOne_email (str_of (body_get (req_body req) "email")) (db sv) = Some u ->
  bcrypt_compare (str_of (body_get (req_body req) "password")) (User.password u) = true ->
  res_body (snd (serve dirname Login salt req sv)) =
  Some (jobj [("token", Some (JStr (generateToken u)));
              ("user", Some (user_json (User.email u) "starter" (User.avatarURL u)))]).
Proof. intros Hv Hu Hc. rewrite serve_login by done. by rewrite Hu, Hc. Qed.

(** C15: The password is echoed in the response: a register or login
    request whose email is valid and whose password is a non-empty string
    that is not 3 to 30 ASCII letters and digits is answered 400 with
    Joi's pattern message, which quotes the submitted password (spec
    section 8: the password is never present in a response body). *)
Theorem validation_echoes_password r salt req sv p :
  r = Register \/ r = Login ->
  Joi.email_error (body_get (req_body req) "email") = None ->
  body_get (req_body req) "password" = Some (JStr p) -> p <> EmptyString ->
  str_forall is_alnum p = false \/ String.length p < 3 \/ 30 < String.length p ->
  serve dirname r salt req sv =
  (sv, error_handler (HttpError 400 (quoted "password" +:+ " with value " +:+ quoted p +:+
                                     " fails to match the required pattern: /^[a-zA-Z0-9]{3,30}$/"))).
Proof.
  intros Hr He Hp Hne Hbad.
  assert (Hpat : Joi.password_pattern_ok p = false).
  { unfold Joi.password_pattern_ok.
    destruct Hbad as [-> | [Hl | Hl]]; [done| |];
      [rewrite (proj2 (Nat.leb_gt 3 _) Hl) | rewrite (proj2 (Nat.leb_gt _ 30) Hl)];
      by rewrite ?andb_false_r. }
  destruct sv as [st fs]. destruct Hr as [-> | ->]; unfold_routes;
    rewrite Hp, Joi.validateUser_pattern_message by done; reflexivity.
Qed.

(** C1: POST /users/register never changes the server: whatever the
    body, it answers 400 (validation), 409 (email in use) or 500, the
    last because [User.create] is called without [verificationToken],
    a path the schema requires, so Mongoose's validation always
    refuses the new document. *)
Theorem register_never_persists salt req sv :
  fst (serve dirname Register salt req sv) = sv /\
  res_status (snd (serve dirname Register salt req sv)) ∈ [400; 409; 500]%Z.
Proof.
  destruct sv as [st fs]. unfold_routes.
  destruct (Joi.validateUser _ _); [simpl; split; [done | by left]|].
  destruct (User.findOne_email _ _); [simpl; split; [done | by right; left]|].
  match goal with |- context [User.create ?obj ?st0] =>
    destruct (User.create_requires_verificationToken obj st0) as [msg ->]; [done|] end.
  cbn. split; [reflexivity | by right; right; left].
Qed.

(** ** The authorization gate and the routes behind it *)

Lemma auth_user_findById h st u :
  auth_user h st = Some u -> User.findById (User.uid u) st = Some u.
Proof.
  unfold auth_user. destruct (bearer_token h); [|done]. destruct (verifyToken s) as [id|]; [|done].
  intros Hf. pose proof Hf as Hf'. unfold User.findById in Hf'.
  apply User.find_Some_In in Hf' as [_ Hid%Nat.eqb_eq]. by rewrite Hid.
Qed.

Lemma auth_user_header h st u : auth_user h st = Some u -> exists h', h = Some h'.
Proof. unfold auth_user, bearer_token. destruct h; [eauto | done]. Qed.

(** The user a token authenticates, read again after an update of it. *)
Lemma auth_user_after_update h st u upd :
  auth_user h st = Some u ->
  auth_user h (fst (User.findByIdAndUpdate (User.uid u) upd st)) = Some (User.apply_update upd u).
Proof.
  intros Ha. pose proof (auth_user_findById _ _ _ Ha) as Hid. revert Ha.
  unfold auth_user. destruct (bearer_token h); [|done]. destruct (verifyToken s) as [id|]; [|done].
  intros Hf. pose proof Hf as Hf'. unfold User.findById in Hf'.
  apply User.find_Some_In in Hf' as [_ ->%Nat.eqb_eq].
  rewrite User.findById_after_update. unfold User.findById in *. by rewrite Hf.
Qed.

Definition current_json (h : string) (u : User.user_doc) : json :=
  jobj [("token", option_map JStr (bearer_part h));
        ("user", Some (user_json (User.email u) (User.subscription u) (User.avatarURL u)))].

Lemma serve_current salt req sv u h :
  req_authorization req = Some h -> auth_user (Some h) (db sv) = Some u ->
  serve dirname Current salt req sv = (sv, res_json 200 (current_json h u)).
Proof.
  intros Hh Ha. unfold serve, route_handler, bind, passportAuthenticate. cbv beta.
  rewrite Hh, Ha. unfold current. rewrite Hh. reflexivity.
Qed.

Lemma serve_patch_ok salt req sv u s :
  auth_user (req_authorization req) (db sv) = Some u ->
  body_get (req_body req) "subscription" = Some (JStr s) -> s ∈ allowedSubscriptions ->
  serve dirname PatchSubscription salt req sv =
  ({| db := fst (User.findByIdAndUpdate (User.uid u) (User.SetSubscription s) (db sv));
      disk := disk sv |},
   res_json 200 (envelope (User.apply_update (User.SetSubscription s) u))).
Proof.
  intros Ha Hb Hs. pose proof (auth_user_findById _ _ _ Ha) as Hid.
  unfold serve, route_handler, bind, passportAuthenticate. cbv beta. rewrite Ha.
  unfold updateSubscription. rewrite Hb. simpl. rewrite (bool_decide_eq_true_2 _ Hs). simpl.
  unfold on_db, bind, User.findByIdAndUpdate. cbv beta. rewrite Hid. reflexivity.
Qed.

(** C9: PATCH /users with a [subscription] that is not one of the
    strings ["starter"], ["pro"], ["business"] (another string, a number,
    [null], a missing key) answers 400 and writes nothing. *)
Theorem subscription_guard salt req sv u :
  auth_user (req_authorization req) (db sv) = Some u ->
  js_includes allowedSubscriptions (body_get (req_body req) "subscription") = false ->
  serve dirname PatchSubscription salt req sv =
  (sv, error_handler (HttpError 400 "Invalid subscription value")).
Proof.
  intros Ha Hs. unfold serve, route_handler, bind, passportAuthenticate. cbv beta.
  rewrite Ha. unfold updateSubscription. rewrite Hs. reflexivity.
Qed.

(** C10: A subscription accepted by PATCH /users is stored: the patch
    answers 200, and a later GET /users/current with the same token
    reports the new subscription (spec section 8). *)
Theorem patch_then_current salt salt' sv u h s :
  auth_user (Some h) (db sv) = Some u -> s ∈ allowedSubscriptions ->
  res_status (snd (serve dirname PatchSubscription salt
                     (mk_request [("subscription", JStr s)] (Some h) []) sv)) = 200%Z /\
  snd (serve dirname Current salt' (mk_request [] (Some h) [])
         (fst (serve dirname PatchSubscription salt
                 (mk_request [("subscription", JStr s)] (Some h) []) sv))) =
  res_json 200 (jobj [("token", option_map JStr (bearer_part h));
                      ("user", Some (user_json (User.email u) s (User.avatarURL u)))]).
Proof.
  intros Ha Hs. rewrite (serve_patch_ok salt _ sv u s) by done. split; [done|].
  rewrite (serve_current salt' _ _ (User.apply_update (User.SetSubscription s) u) h);
    [reflexivity | reflexivity | by apply auth_user_after_update].
Qed.

(** C11: Every route behind [passportAuthenticate] (GET /users/current,
    PATCH /users, PATCH /users/avatars) answers 401 and changes nothing
    when the header does not authenticate a stored user: no header, no
    bearer token, a token that does not verify, an unknown id. *)
Theorem protected_routes_reject r salt req sv :
  r = Current \/ r = PatchSubscription \/ r = PatchAvatar ->
  auth_user (req_authorization req) (db sv) = None ->
  serve dirname r salt req sv = (sv, error_handler (HttpError 401 "Unauthorized")).
Proof.
  intros Hr Ha.
  destruct Hr as [-> | [-> | ->]]; unfold serve, route_handler, bind, passportAuthenticate;
    cbv beta; rewrite Ha; reflexivity.
Qed.

(** C12: POST /users/logout without an [Authorization] header answers
    500: the handler reads [req.headers.authorization.split] before any
    check, and the [TypeError] reaches the error middleware. *)
Theorem logout_without_header salt req sv :
  req_authorization req = None ->
  serve dirname Logout salt req sv = (sv, error_handler header_error) /\
  res_status (snd (serve dirname Logout salt req sv)) = 500%Z.
Proof.
  intros Hh. destruct sv as [st fs].
  unfold serve, route_handler, logout. rewrite Hh. split; reflexivity.
Qed.

Lemma serve_logout_state salt req sv : fst (serve dirname Logout salt req sv) = sv.
Proof.
  destruct sv as [st fs]. unfold serve, route_handler, logout.
  destruct (req_authorization req) as [h|]; [|reflexivity].
  destruct (match bearer_part h with Some t => verifyToken t | None => None end) as [id|];
    [|reflexivity].
  unfold bind, on_db, gets. simpl. by destruct (User.findById id st).
Qed.

(** C13: POST /users/logout revokes nothing: after it, every request is
    answered as if the logout had not happened, so the token stays
    valid. *)
Theorem logout_changes_nothing salt req sv r' salt' req' :
  serve dirname r' salt' req' (fst (serve dirname Logout salt req sv)) =
  serve dirname r' salt' req' sv.
Proof. by rewrite serve_logout_state. Qed.

(** ** The avatar route *)

Lemma avatar_url_join n : Path.clean_seg n = true -> Path.join ["avatars"; n] = "avatars/" +:+ n.
Proof.
  intros Hn. change "avatars" with (js_join "/" ["avatars"]) at 1.
  rewrite join_rel_dir; [reflexivity | done | by repeat constructor | done].
Qed.

Lemma serve_avatar_ok salt req sv u p :
  auth_user (req_authorization req) (db sv) = Some u ->
  req_files req = [p] -> fieldname p = "avatar" -> busboy_basename (filename p) <> "" ->
  serve dirname PatchAvatar salt req sv =
  ({| db := fst (User.findByIdAndUpdate (User.uid u)
                   (User.SetAvatarURL (Path.join ["avatars"; busboy_basename (filename p)])) (db sv));
      disk := <[Path.join [avatrsDir dirname; busboy_basename (filename p)] := file_content p]>
                (delete (Path.join [tempDir dirname; busboy_basename (filename p)])
                   (<[Path.join [tempDir dirname; busboy_basename (filename p)] := file_content p]>
                      (disk sv))) |},
   res_json 200 (envelope (User.apply_update
                             (User.SetAvatarURL (Path.join ["avatars"; busboy_basename (filename p)])) u))).
Proof.
  intros Ha Hf Hp Hn. pose proof (auth_user_findById _ _ _ Ha) as Hid.
  unfold serve, route_handler, bind, passportAuthenticate. cbv beta. rewrite Ha.
  unfold on_disk at 1. rewrite Hf, multer_single_one by done. cbv beta iota.
  unfold updateAvatar, bind, on_disk, Disk.rename. cbn [db disk]. rewrite lookup_insert_eq.
  cbv beta iota. unfold on_db, User.findByIdAndUpdate. cbn [db disk]. rewrite Hid. reflexivity.
Qed.

(** C16: An avatar accepted by PATCH /users/avatars is moved into the
    avatars directory under the name multer kept, the route answers
    200, and a later GET /users/current with the same token reports
    [avatarURL] ["avatars/" ++ name] (spec section 8). *)
Theorem avatar_then_current salt salt' req sv u p h asegs :
  req_authorization req = Some h -> auth_user (Some h) (db sv) = Some u ->
  req_files req = [p] -> fieldname p = "avatar" -> busboy_basename (filename p) <> "" ->
  avatrsDir dirname = Path.abs_dir asegs -> asegs <> [] ->
  Forall (fun s => Path.clean_seg s = true) asegs ->
  res_status (snd (serve dirname PatchAvatar salt req sv)) = 200%Z /\
  disk (fst (serve dirname PatchAvatar salt req sv))
    !! Path.abs_dir (asegs ++ [busboy_basename (filename p)]) = Some (file_content p) /\
  snd (serve dirname Current salt' (mk_request [] (Some h) []) (fst (serve dirname PatchAvatar salt req sv))) =
  res_json 200 (jobj [("token", option_map JStr (bearer_part h));
                      ("user", Some (user_json (User.email u) (User.subscription u)
                                       (Some ("avatars/" +:+ busboy_basename (filename p)))))]).
Proof.
  intros Hh Ha Hf Hp Hn Hdir Hs Hall.
  pose proof (busboy_basename_clean _ Hn) as Hc.
  rewrite <- Hh in Ha. rewrite (serve_avatar_ok salt req sv u p) by done. simpl.
  rewrite Hdir, join_abs_dir, lookup_insert_eq by done. split_and!; [done | done |].
  rewrite Hh in Ha.
  rewrite (serve_current salt' _ _ (User.apply_update (User.SetAvatarURL
             (Path.join ["avatars"; busboy_basename (filename p)])) u) h);
    [| reflexivity | by apply auth_user_after_update].
  by rewrite avatar_url_join.
Qed.

(** C17: The avatar handler moves the uploaded file before it updates
    the user: when the user is gone by then, it answers 404 and the file
    stays moved into the avatars directory. *)
Theorem avatar_moved_before_update u f sv c :
  disk sv !! file_path f = Some c -> User.findById (User.uid u) (db sv) = None ->
  updateAvatar dirname u (Some f) sv =
  ({| db := db sv;
      disk := <[Path.join [avatrsDir dirname; originalname f] := c]> (delete (file_path f) (disk sv)) |},
   inl (HttpError 404 "User not found")).
Proof.
  intros Hc Hu. unfold updateAvatar, bind, on_disk, Disk.rename. rewrite Hc.
  cbv beta iota. unfold on_db, User.findByIdAndUpdate. cbn [db disk]. rewrite Hu. reflexivity.
Qed.

(** ** What the responses disclose *)

Lemma res_json_no_key k st body :
  json_has_key k body = false -> resp_has_key k (res_json st body) = false.
Proof. intros Hb. unfold resp_has_key, res_json. simpl. by destruct (Z.eqb st 204). Qed.

Lemma user_json_no_password e s a : json_has_key "password" (user_json e s a) = false.
Proof. unfold user_json. by destruct a. Qed.

Lemma envelope_no_password u : json_has_key "password" (envelope u) = false.
Proof.
  unfold envelope, user_json. by destruct (User.avatarURL u).
Qed.

Ltac no_key :=
  unfold envelope, user_json, jobj;
  repeat match goal with
         | |- context [option_map JStr (Some ?y)] =>
             change (option_map JStr (Some y)) with (Some (JStr y))
         | |- context [option_map JStr None] => change (option_map JStr None) with (@None json)
         | |- context [option_map JStr ?x] => destruct x
         end; reflexivity.

Ltac returns_step :=
  match goal with
  | |- returns _ (let _ := _ in _) => cbv zeta
  | |- returns _ (bind _ _) => apply returns_bind; intros ?
  | |- returns _ (match ?x with _ => _ end) => destruct x eqn:?
  | |- returns _ (throw _) => apply returns_throw
  | |- returns _ (ret _) => apply returns_ret, res_json_no_key; no_key
  end.

Lemma route_handler_no_password r salt req :
  returns (fun res => resp_has_key "password" res = false) (route_handler dirname r salt req).
Proof.
  destruct r; simpl;
    unfold register, login, logout, current, updateSubscription, updateAvatar;
    repeat returns_step.
Qed.

(** C14: No response of any route, success or error, has a [password]
    key anywhere in its JSON body (spec section 8). *)
Theorem no_password_in_responses r salt req sv :
  resp_has_key "password" (snd (serve dirname r salt req sv)) = false.
Proof.
  unfold serve. destruct (route_handler dirname r salt req sv) as [sv' [e|res]] eqn:E; simpl.
  - by apply error_handler_keys.
  - exact (route_handler_no_password r salt req sv sv' res E).
Qed.

(** ** Invariants of the store kept by every route *)

Lemma preserves_on_db {A} (Q : User.store -> Prop) (m : stexn User.store thrown A) :
  preserves Q m -> preserves (fun sv => Q (db sv)) (on_db m).
Proof.
  intros Hm [st fs] sv' r HQ. unfold on_db. simpl.
  destruct (m st) as [st' r'] eqn:E. intros [= <- _]. by eapply Hm.
Qed.

Lemma preserves_on_disk {A} (Q : User.store -> Prop) (m : stexn Disk.disk thrown A) :
  preserves (fun sv => Q (db sv)) (on_disk m).
Proof.
  intros [st fs] sv' r HQ. unfold on_disk. simpl.
  destruct (m fs) as [fs' r'] eqn:E. by intros [= <- _].
Qed.

Lemma preserves_passport (P : server -> Prop) h : preserves P (passportAuthenticate h).
Proof. intros sv sv' r HP. unfold passportAuthenticate. by destruct (auth_user h (db sv)); intros [= <- _]. Qed.

Lemma preserves_create_no_token (Q : User.store -> Prop) obj :
  User.required_ok (User.in_verificationToken obj) = false -> preserves Q (User.create obj).
Proof.
  intros Hv st st' r HQ. destruct (User.create_requires_verificationToken obj st Hv) as [msg ->].
  by intros [= <- _].
Qed.

Lemma js_includes_str_of l v : js_includes l v = true -> str_of v ∈ l.
Proof. destruct v as [[| | | |s| |]|]; simpl; try done. by intros ?%bool_decide_eq_true. Qed.

Lemma avatarURL_after_update i u st url :
  User.findById i st = Some u ->
  option_map User.avatarURL (User.findById i (fst (User.findByIdAndUpdate i (User.SetAvatarURL url) st))) =
  Some (Some url).
Proof. intros Hu. by rewrite User.findById_after_update, Hu. Qed.

(** C27: Avatar files are named by the client's file name alone: when
    two PATCH /users/avatars, one after the other, upload files whose
    names have the same basename, both users' [avatarURL] point to the
    same file, and that file holds the second upload: the first user's
    picture is overwritten (spec 4.7: no collision-avoidance scheme). *)
Theorem avatar_names_collide salt1 salt2 req1 req2 sv u1 u2 p1 p2 :
  auth_user (req_authorization req1) (db sv) = Some u1 ->
  auth_user (req_authorization req2) (db (fst (serve dirname PatchAvatar salt1 req1 sv))) = Some u2 ->
  req_files req1 = [p1] -> req_files req2 = [p2] ->
  fieldname p1 = "avatar" -> fieldname p2 = "avatar" ->
  busboy_basename (filename p1) <> "" ->
  busboy_basename (filename p2) = busboy_basename (filename p1) ->
  let sv2 := fst (serve dirname PatchAvatar salt2 req2 (fst (serve dirname PatchAvatar salt1 req1 sv))) in
  let n := busboy_basename (filename p1) in
  option_map User.avatarURL (User.findById (User.uid u1) (db sv2)) = Some (Some (Path.join ["avatars"; n])) /\
  option_map User.avatarURL (User.findById (User.uid u2) (db sv2)) = Some (Some (Path.join ["avatars"; n])) /\
  disk sv2 !! Path.join [avatrsDir dirname; n] = Some (file_content p2).
Proof.
  intros Ha1 Ha2 Hf1 Hf2 Hp1 Hp2 Hn Heq sv2 n. subst sv2 n.
  rewrite (serve_avatar_ok salt1 req1 sv u1 p1 Ha1 Hf1 Hp1 Hn) in Ha2 |- *.
  rewrite (serve_avatar_ok salt2 req2 _ u2 p2 Ha2 Hf2 Hp2 ltac:(by rewrite Heq)).
  cbn [db disk fst]. rewrite Heq, lookup_insert_eq.
  pose proof (auth_user_findById _ _ _ Ha2) as Hu2. cbn [db fst] in Hu2.
  split_and!; [|by eapply avatarURL_after_update, Hu2 | done].
  destruct (decide (User.uid u1 = User.uid u2)) as [Hid|Hid].
  - rewrite Hid in Hu2 |- *. by eapply avatarURL_after_update, Hu2.
  - rewrite User.findById_update_other by done.
    eapply avatarURL_after_update, (auth_user_findById _ _ _ Ha1).
Qed.

(** The store properties the two updates of the handlers keep. *)
Context (Q : User.store -> Prop).
Hypothesis Q_subscription : forall i s, s ∈ User.subscription_enum ->
  preserves Q (User.findByIdAndUpdate i (User.SetSubscription s)).
Hypothesis Q_avatar : forall i a, preserves Q (User.findByIdAndUpdate i (User.SetAvatarURL a)).

Ltac preserve_step :=
  match goal with
  | |- preserves _ (let _ := _ in _) => cbv zeta
  | |- preserves _ (bind _ _) => apply preserves_bind; [|intros ?]
  | |- preserves _ (on_db (gets _)) => apply preserves_on_db, preserves_gets
  | |- preserves _ (on_db (User.create _)) => apply preserves_on_db, preserves_create_no_token; done
  | |- preserves _ (on_db (User.findByIdAndUpdate _ (User.SetAvatarURL _))) =>
      apply preserves_on_db, Q_avatar
  | |- preserves _ (on_disk _) => apply preserves_on_disk
  | |- preserves _ (passportAuthenticate _) => apply preserves_passport
  | |- preserves _ (match ?x with _ => _ end) => destruct x eqn:?
  | |- preserves _ (ret _) => apply preserves_ret
  | |- preserves _ (throw _) => apply preserves_throw
  end.

Lemma route_handler_preserves r salt req :
  preserves (fun sv => Q (db sv)) (route_handler dirname r salt req).
Proof.
  destruct r; simpl;
    unfold register, login, logout, current, updateSubscription, updateAvatar;
    repeat preserve_step.
  apply preserves_on_db, Q_subscription.
  apply js_includes_str_of. by apply negb_false_iff.
Qed.

Lemma serve_preserves r salt req sv :
  Q (db sv) -> Q (db (fst (serve dirname r salt req sv))).
Proof.
  intros HQ. unfold serve.
  destruct (route_handler dirname r salt req sv) as [sv' [e|res]] eqn:E; simpl;
    eapply route_handler_preserves; eauto.
Qed.

End Facts.
End UsersFacts.

(** * The handler theorems on a concrete service *)

Module UsersExamples.
Import Users UsersFacts ExampleServices.

Definition demo_dirname : string := "/app/routes/api".

Definition alice : User.user_doc :=
  {| User.uid := 0; User.password := "$2b$secret12"; User.email := "alice@example.com";
     User.subscription := "pro"; User.avatarURL := None; User.token := "";
     User.verify := false; User.verificationToken := "v0" |}.

Definition demo_server : server :=
  {| db := {| User.docs := [alice]; User.next_id := 1 |}; disk := ∅ |}.

Definition empty_server : server := {| db := User.empty_store; disk := ∅ |}.

Definition demo_request (body : list (string * json)) (auth : option string) : request :=
  {| req_body := body; req_authorization := auth; req_files := [] |}.

Definition demo_patch : request :=
  demo_request [("subscription", JStr "business")] (Some "Bearer t0").

Definition demo_register : request :=
  demo_request [("email", JStr "bob@example.net"); ("password", JStr "hunter22")] None.

Definition demo_login : request :=
  demo_request [("email", JStr "bob@example.net"); ("password", JStr "hunter22")] None.

Definition alice_login (pw : string) : request :=
  demo_request [("email", JStr "alice@example.com"); ("password", JStr pw)] None.

Lemma login_succeeds_iff_witness :
  Joi.validateUser (body_get (req_body (alice_login "secret12")) "email")
    (body_get (req_body (alice_login "secret12")) "password") = None /\
  fst (serve demo_dirname Login "s" (alice_login "secret12") demo_server) = demo_server /\
  (res_status (snd (serve demo_dirname Login "s" (alice_login "secret12") demo_server)) = 200%Z <->
   exists u, User.findOne_email "alice@example.com" (db demo_server) = Some u /\
             bcrypt_compare "secret12" (User.password u) = true).
Proof.
  assert (Hv : Joi.validateUser (body_get (req_body (alice_login "secret12")) "email")
                 (body_get (req_body (alice_login "secret12")) "password") = None) by (vm_compute; reflexivity).
  split; [exact Hv | exact (login_succeeds_iff demo_dirname "s" (alice_login "secret12") demo_server Hv)].
Defined.

Lemma login_401_uniform_witness :
  Joi.validateUser (body_get (req_body (alice_login "wrongpw1")) "email")
    (body_get (req_body (alice_login "wrongpw1")) "password") = None /\
  serve demo_dirname Login "s" (alice_login "wrongpw1") demo_server =
  (demo_server, error_handler (HttpError 401 "Invalid credentials")).
Proof.
  assert (Hv : Joi.validateUser (body_get (req_body (alice_login "wrongpw1")) "email")
                 (body_get (req_body (alice_login "wrongpw1")) "password") = None) by (vm_compute; reflexivity).
  split; [exact Hv|]. apply (login_401_uniform demo_dirname "s" _ _ Hv).
  right. exists alice. split; vm_compute; reflexivity.
Defined.

Lemma login_password_check_witness :
  User.store_wf (db demo_server) /\ In alice (User.docs (db demo_server)) /\
  (res_status (snd (serve demo_dirname Login "s" (alice_login "secret12") demo_server)) = 200%Z <->
   "secret12" = "secret12").
Proof.
  assert (Hwf : User.store_wf (db demo_server))
    by (apply (bool_decide_unpack _ (dec := User.store_wf_dec _)); vm_compute; exact I).
  assert (Hin : In alice (User.docs (db demo_server))) by (left; reflexivity).
  split; [exact Hwf | split; [exact Hin|]].
  apply (login_password_check demo_dirname "s" (alice_login "secret12") demo_server alice 10 ""
           "secret12" "secret12" Hwf Hin); first [vm_compute; reflexivity | simpl; lia].
Defined.

Lemma login_reports_starter_witness :
  User.subscription alice = "pro" /\
  res_body (snd (serve demo_dirname Login "s" (alice_login "secret12") demo_server)) =
  Some (jobj [("token", Some (JStr (generateToken alice)));
              ("user", Some (user_json (User.email alice) "starter" (User.avatarURL alice)))]).
Proof.
  split; [reflexivity|]. apply login_reports_starter; vm_compute; reflexivity.
Defined.

Definition gold_patch : request := demo_request [("subscription", JStr "gold")] (Some "Bearer t0").

Lemma subscription_guard_witness :
  auth_user (req_authorization gold_patch) (db demo_server) = Some alice /\
  js_includes allowedSubscriptions (body_get (req_body gold_patch) "subscription") = false /\
  serve demo_dirname PatchSubscription "s" gold_patch demo_server =
  (demo_server, error_handler (HttpError 400 "Invalid subscription value")).
Proof.
  assert (Ha : auth_user (req_authorization gold_patch) (db demo_server) = Some alice)
    by (vm_compute; reflexivity).
  assert (Hs : js_includes allowedSubscriptions (body_get (req_body gold_patch) "subscription") = false)
    by (vm_compute; reflexivity).
  split; [exact Ha | split; [exact Hs | exact (subscription_guard demo_dirname "s" _ _ _ Ha Hs)]].
Defined.

Lemma patch_then_current_witness :
  auth_user (Some "Bearer t0") (db demo_server) = Some alice /\
  "business" ∈ allowedSubscriptions /\
  snd (serve demo_dirname Current "s" (mk_request [] (Some "Bearer t0") [])
         (fst (serve demo_dirname PatchSubscription "s"
                 (mk_request [("subscription", JStr "business")] (Some "Bearer t0") []) demo_server))) =
  res_json 200 (jobj [("token", Some (JStr "t0"));
                      ("user", Some (user_json "alice@example.com" "business" None))]).
Proof.
  assert (Ha : auth_user (Some "Bearer t0") (db demo_server) = Some alice) by (vm_compute; reflexivity).
  assert (Hs : "business" ∈ allowedSubscriptions) by (right; right; left).
  split; [exact Ha | split; [exact Hs|]].
  exact (proj2 (patch_then_current demo_dirname "s" "s" demo_server alice "Bearer t0" "business" Ha Hs)).
Defined.

Definition stale_token_request : request := demo_request [] (Some "Bearer t7").

Lemma protected_routes_reject_witness :
  auth_user (req_authorization stale_token_request) (db demo_server) = None /\
  serve demo_dirname Current "s" stale_token_request demo_server =
  (demo_server, error_handler (HttpError 401 "Unauthorized")).
Proof.
  assert (Ha : auth_user (req_authorization stale_token_request) (db demo_server) = None)
    by (vm_compute; reflexivity).
  split; [exact Ha|]. apply (protected_routes_reject demo_dirname Current); [by left | exact Ha].
Defined.

Lemma logout_without_header_witness :
  req_authorization (demo_request [] None) = None /\
  res_status (snd (serve demo_dirname Logout "s" (demo_request [] None) demo_server)) = 500%Z.
Proof.
  split; [reflexivity|].
  exact (proj2 (logout_without_header demo_dirname "s" (demo_request [] None) demo_server eq_refl)).
Defined.

Definition avatar_request : request :=
  {| req_body := []; req_authorization := Some "Bearer t0";
     req_files := [mk_part "avatar" "../../me.png" "PNG"] |}.

Lemma avatar_then_current_witness :
  avatrsDir demo_dirname = Path.abs_dir ["app"; "public"; "avatars"] /\
  disk (fst (serve demo_dirname PatchAvatar "s" avatar_request demo_server))
    !! "/app/public/avatars/me.png" = Some "PNG" /\
  snd (serve demo_dirname Current "s" (mk_request [] (Some "Bearer t0") [])
         (fst (serve demo_dirname PatchAvatar "s" avatar_request demo_server))) =
  res_json 200 (jobj [("token", Some (JStr "t0"));
                      ("user", Some (user_json "alice@example.com" "pro" (Some "avatars/me.png")))]).
Proof.
  assert (Hdir : avatrsDir demo_dirname = Path.abs_dir ["app"; "public"; "avatars"])
    by (vm_compute; reflexivity).
  assert (Hall : Forall (fun s => Path.clean_seg s = true) ["app"; "public"; "avatars"])
    by (repeat constructor).
  destruct (avatar_then_current demo_dirname "s" "s" avatar_request demo_server alice
              (mk_part "avatar" "../../me.png" "PNG") "Bearer t0" ["app"; "public"; "avatars"])
    as (_ & Hdisk & Hcur);
    [reflexivity | vm_compute; reflexivity | reflexivity | reflexivity | vm_compute; discriminate
    | exact Hdir | discriminate | exact Hall |].
  split; [exact Hdir | split; [exact Hdisk | exact Hcur]].
Defined.

Definition moved_file : uploaded_file := mk_uploaded "/app/temp/me.png" "me.png".

Definition server_without_alice : server :=
  {| db := User.empty_store; disk := <["/app/temp/me.png" := "PNG"]> ∅ |}.

Lemma avatar_moved_before_update_witness :
  disk server_without_alice !! file_path moved_file = Some "PNG" /\
  User.findById (User.uid alice) (db server_without_alice) = None /\
  updateAvatar demo_dirname alice (Some moved_file) server_without_alice =
  ({| db := User.empty_store;
      disk := <["/app/public/avatars/me.png" := "PNG"]> (delete "/app/temp/me.png" (disk server_without_alice)) |},
   inl (HttpError 404 "User not found")).
Proof.
  assert (Hc : disk server_without_alice !! file_path moved_file = Some "PNG") by (vm_compute; reflexivity).
  assert (Hu : User.findById (User.uid alice) (db server_without_alice) = None) by reflexivity.
  split; [exact Hc | split; [exact Hu|]].
  exact (avatar_moved_before_update demo_dirname alice moved_file server_without_alice "PNG" Hc Hu).
Defined.

Definition bob : User.user_doc :=
  {| User.uid := 1; User.password := "$2b$hunter22"; User.email := "bob@example.net";
     User.subscription := "starter"; User.avatarURL := None; User.token := "";
     User.verify := false; User.verificationToken := "v1" |}.

Definition two_users : server :=
  {| db := {| User.docs := [alice; bob]; User.next_id := 2 |}; disk := ∅ |}.

Definition bob_avatar_request : request :=
  {| req_body := []; req_authorization := Some "Bearer t1";
     req_files := [mk_part "avatar" "C:\pics\me.png" "BOB"] |}.

Lemma avatar_names_collide_witness :
  let sv2 := fst (serve demo_dirname PatchAvatar "s2" bob_avatar_request
                    (fst (serve demo_dirname PatchAvatar "s1" avatar_request two_users))) in
  option_map User.avatarURL (User.findById 0 (db sv2)) = Some (Some "avatars/me.png") /\
  disk sv2 !! "/app/public/avatars/me.png" = Some "BOB".
Proof.
  destruct (avatar_names_collide demo_dirname "s1" "s2" avatar_request bob_avatar_request two_users
              alice bob (mk_part "avatar" "../../me.png" "PNG") (mk_part "avatar" "C:\pics\me.png" "BOB"))
    as (H1 & _ & Hd);
    [vm_compute; reflexivity | vm_compute; reflexivity | reflexivity | reflexivity | reflexivity
    | reflexivity | vm_compute; discriminate | vm_compute; reflexivity |].
  split; [exact H1 | exact Hd].
Defined.

(** Bob registers with a password holding a [!]. *)
Definition weak_register : request :=
  demo_request [("email", JStr "bob@example.net"); ("password", JStr "hunter2!")] None.

Lemma validation_echoes_password_witness :
  Joi.email_error (body_get (req_body weak_register) "email") = None /\
  body_get (req_body weak_register) "password" = Some (JStr "hunter2!") /\
  str_forall is_alnum "hunter2!" = false /\
  serve demo_dirname Register "s" weak_register demo_server =
  (demo_server, error_handler (HttpError 400 (quoted "password" +:+ " with value " +:+ quoted "hunter2!" +:+
                                              " fails to match the required pattern: /^[a-zA-Z0-9]{3,30}$/"))).
Proof.
  assert (He : Joi.email_error (body_get (req_body weak_register) "email") = None) by (vm_compute; reflexivity).
  assert (Hp : body_get (req_body weak_register) "password" = Some (JStr "hunter2!")) by reflexivity.
  assert (Ha : str_forall is_alnum "hunter2!" = false) by reflexivity.
  split_and!; [exact He | exact Hp | exact Ha |].
  exact (validation_echoes_password demo_dirname Register "s" weak_register demo_server "hunter2!"
           (or_introl eq_refl) He Hp ltac:(discriminate) (or_introl Ha)).
Defined.

End UsersExamples.
