(* ===== verification/Responses.v ===== *)
(** * The shapes of the responses

    Spec section 6 lists, per route, the body of a successful answer
    ([{token, user:{email, subscription, avatarURL}}] for register, login
    and current; [{status, code, data:{...}}] for the two PATCH routes;
    nothing with the 204 of logout) and section 7 the body of an error
    ([{message}] with the error's status).  [jtype] is a small JSON
    schema language (required and optional keys, no other key allowed),
    [has_type] its checker, and [response_ok] the contract of one
    route's response; the theorem is that every response of [serve]
    meets it. *)

From S2P Require Import Prelude Http UserModel Validation Services Upload Handlers.

Set Warnings "-register-all".

Module Responses.
Import Users UsersFacts.

(** ** A schema language for JSON bodies *)

Inductive jtype : Type :=
  | TNull
  | TBool
  | TNum
  | TStr
  | TObj (fields : list (string * bool * jtype)).  (* key, required, type *)

Fixpoint has_type (t : jtype) (j : json) : bool :=
  match t, j with
  | TNull, JNull | TBool, JBool _ | TNum, JNum _ | TNum, JDec _ _ | TStr, JStr _ => true
  | TObj ts, JObj fs =>
      forallb (fun kv => existsb (fun '(k, _, _) => String.eqb k kv.1) ts) fs &&
      (fix go (ts : list (string * bool * jtype)) : bool :=
         match ts with
         | [] => true
         | (k, required, t') :: r =>
             match body_get fs k with
             | Some v => has_type t' v
             | None => negb required
             end && go r
         end) ts
  | _, _ => false
  end.

(** [{ email, subscription, avatarURL }]: the avatar URL may be unset. *)
Definition user_t : jtype :=
  TObj [("email", true, TStr); ("subscription", true, TStr); ("avatarURL", false, TStr)].

Definition token_user_t : jtype := TObj [("token", true, TStr); ("user", true, user_t)].

Definition envelope_t : jtype :=
  TObj [("status", true, TStr); ("code", true, TNum); ("data", true, user_t)].

Definition error_t : jtype := TObj [("message", true, TStr)].

#[global] Instance route_eq_dec : EqDecision route.
Proof. solve_decision. Defined.

(** The body of a 2xx answer of each route (spec section 6). *)
Definition route_type (r : route) : option jtype :=
  match r with
  | Register | Login | Current => Some token_user_t
  | PatchSubscription | PatchAvatar => Some envelope_t
  | Logout => None
  end.

Definition is_2xx (st : Z) : bool := (200 <=? st)%Z && (st <? 300)%Z.

(** The contract of a response of route [r]: a 2xx with the route's
    body, a 204 without body for logout, or an error status with a
    [{ message }] body. *)
Definition response_ok (r : route) (res : response) : bool :=
  match res_body res with
  | None => (res_status res =? 204)%Z && bool_decide (r = Logout)
  | Some b =>
      if is_2xx (res_status res) then
        match route_type r with Some t => has_type t b | None => false end
      else has_type error_t b
  end.

(** What a handler may throw: anything but a 2xx status. *)
Definition error_status_ok (e : thrown) : Prop := is_2xx (status_of e) = false.

(** ** Lemmas *)

Lemma throws_on_db {A} (P : thrown -> Prop) (m : stexn User.store thrown A) :
  throws P m -> throws P (on_db m).
Proof. intros Hm sv sv' e. unfold on_db. destruct (m (db sv)) eqn:E. intros [= _ ->]. by eapply Hm. Qed.

Lemma throws_on_disk {A} (P : thrown -> Prop) (m : stexn Disk.disk thrown A) :
  throws P m -> throws P (on_disk m).
Proof. intros Hm sv sv' e. unfold on_disk. destruct (m (disk sv)) eqn:E. intros [= _ ->]. by eapply Hm. Qed.

(** The library calls throw runtime errors only, which answer 500. *)
Ltac runtime_only :=
  intros ? ? ?; repeat (case_match || unfold ret, throw, bind); intros; simplify_eq; reflexivity.

Lemma create_throws obj : throws error_status_ok (User.create obj).
Proof. unfold User.create. runtime_only. Qed.

Lemma update_throws i u : throws error_status_ok (User.findByIdAndUpdate i u).
Proof. unfold User.findByIdAndUpdate. runtime_only. Qed.

Lemma rename_throws src dst : throws error_status_ok (Disk.rename src dst).
Proof. unfold Disk.rename. runtime_only. Qed.

Lemma multer_throws field dest parts : throws error_status_ok (multer_single field dest parts).
Proof. unfold multer_single. runtime_only. Qed.

Ltac typed :=
  unfold envelope, user_json; cbn [option_map];
  repeat match goal with
         | |- context [option_map JStr ?x] =>
             lazymatch x with Some _ => fail | None => fail | _ => destruct x; cbn [option_map] end
         end;
  vm_compute; reflexivity.

Ltac returns_step :=
  match goal with
  | |- returns _ (let _ := _ in _) => cbv zeta
  | |- returns _ (bind _ _) => apply returns_bind; intros ?
  | |- returns _ (match ?x with _ => _ end) => destruct x eqn:?
  | |- returns _ (throw _) => apply returns_throw
  | |- returns _ (ret _) => apply returns_ret; typed
  end.

Section Walk.
Context `{PasswordHasher} `{TokenService} `{Md5}.
Variable dirname : string.

Lemma passport_throws h : throws error_status_ok (passportAuthenticate h).
Proof. unfold passportAuthenticate. runtime_only. Qed.

Ltac throws_step :=
  match goal with
  | |- throws _ (let _ := _ in _) => cbv zeta
  | |- throws _ (bind _ _) => apply throws_bind; [|intros ?]
  | |- throws _ (match ?x with _ => _ end) => destruct x eqn:?
  | |- throws _ (throw _) => apply throws_throw; reflexivity
  | |- throws _ (ret _) => apply throws_ret
  | |- throws _ (on_db (gets _)) => apply throws_on_db, throws_gets
  | |- throws _ (on_db (User.create _)) => apply throws_on_db, create_throws
  | |- throws _ (on_db (User.findByIdAndUpdate _ _)) => apply throws_on_db, update_throws
  | |- throws _ (on_disk (Disk.rename _ _)) => apply throws_on_disk, rename_throws
  | |- throws _ (on_disk (multer_single _ _ _)) => apply throws_on_disk, multer_throws
  | |- throws _ (passportAuthenticate _) => apply passport_throws
  end.

(** Every error a route throws has a status outside 2xx. *)
Lemma route_handler_throws r salt req : throws error_status_ok (route_handler dirname r salt req).
Proof.
  destruct r; simpl;
    unfold register, login, logout, current, updateSubscription, updateAvatar;
    repeat throws_step.
Qed.

Lemma error_handler_ok r e : error_status_ok e -> response_ok r (error_handler e) = true.
Proof.
  unfold error_status_ok, response_ok. destruct e as [st msg|msg]; simpl; [|reflexivity].
  intros Hst. unfold res_json. destruct (Z.eqb_spec st 204) as [->|]; [done|]. simpl.
  by rewrite Hst.
Qed.

(** A user the header authenticates comes with a bearer token, which
    GET /users/current echoes. *)
Lemma auth_user_bearer h st u :
  auth_user h st = Some u -> exists h' tok, h = Some h' /\ bearer_part h' = Some tok.
Proof.
  unfold auth_user, bearer_token. destruct h as [h'|]; [|done].
  destruct (js_split " " h') as [|sch [|tok [|]]] eqn:E; try done.
  intros _. exists h', tok. split; [done|]. unfold bearer_part. by rewrite E.
Qed.

End Walk.

(** C26: Every response of every route has the shape the API promises
    (spec sections 6 and 7): a 2xx status with the route's body, where
    [token] and the user's [email] and [subscription] are strings and no
    other key appears; a 204 without body only for logout; otherwise an
    error status with a [{ message }] body. *)
Theorem responses_conform `{PasswordHasher} `{TokenService} `{Md5} dirname r salt req sv :
  response_ok r (snd (serve dirname r salt req sv)) = true.
Proof.
  unfold serve. destruct (route_handler dirname r salt req sv) as [sv' [e|res]] eqn:E; simpl.
  - apply error_handler_ok. by eapply route_handler_throws.
  - assert (Hret : returns (fun res => response_ok r res = true) (route_handler dirname r salt req)).
    { destruct r; simpl.
      4: { (* GET /users/current echoes the bearer token passport accepted *)
           intros sv1 sv2 res1. unfold bind, passportAuthenticate.
           destruct (auth_user (req_authorization req) (db sv1)) as [usr|] eqn:Ha; [|cbn; by intros [=]].
           destruct (auth_user_bearer _ _ _ Ha) as (h & tok & Hh & Hb).
           unfold current. rewrite Hh, Hb. intros [= _ <-]. typed. }
      all: unfold register, login, logout, updateSubscription, updateAvatar; repeat returns_step. }
    exact (Hret _ _ _ E).
Qed.

End Responses.
