(* ===== verification/Wire.v ===== *)
(** * The HTTP exchange: the text of a request in, the text of its answer out

    Before the router of [src/routes/api/users.js] runs, the application
    parses the request's body with [express.json()] (body-parser's JSON
    parser with its defaults, registered in [app.js], which is not under
    [src/]: modelled from the spec, section 6, and body-parser's
    documented behaviour):
    - a body whose Content-Type is not JSON is not read: [req.body] is
      [{}] (the avatar route's multipart body is multer's);
    - a body above the default limit of 100kb is refused with 413
      before it is parsed (raw-body); each code unit of the text counts
      as one byte;
    - an empty JSON body is [{}];
    - in strict mode the first character after white space must open an
      object or an array, and the text must be one JSON value
      ([Json.JSON_parse]); otherwise the request goes, with status 400
      and [JSON.parse]'s message, to the error middleware, and no route
      runs.
    The route then answers ([Users.serve]) and [res.json] sends the text
    [JSON.stringify] prints ([wire]).  [exchange] is this composition.

    The lemmas: a client that sends the text of a JSON object within the
    limit gets the very state change, status and body (read back with
    [JSON.parse]) that [serve] gives on that object; and a body within
    the limit that the parser refuses is answered 400, on every route,
    before any handler, changing nothing. *)

From S2P Require Import Prelude Http Json UserModel Validation Services Upload Handlers.

Module Wire.
Import Users Json.

(** A request as it arrives: its Authorization header, the text of its
    body when its Content-Type is JSON, and the parts of a multipart
    body. *)
Record http_request : Type := mk_http_request {
  http_authorization : option string;
  http_json : option string;
  http_files : list file_part
}.

Section Exchange.
Context `{PasswordHasher} `{TokenService} `{Md5}.
Variable dirname : string.
(** The message of the [SyntaxError] body-parser reports for a text: the
    JavaScript engine's wording. *)
Variable syntax_message : string -> string.

(** [express.json()]'s default [limit]: 100kb, in bytes. *)
Definition body_limit : nat := 102400.

(** [express.json()] on the text of a JSON body: raw-body refuses a body
    above the limit with 413 before anything is parsed; then an empty
    body is [{}] and, in strict mode, the text must open an object or an
    array and be one JSON value. *)
Definition body_parser (text : string) : thrown + json :=
  if body_limit <? String.length text then inl (HttpError 413 "request entity too large")
  else if String.eqb text EmptyString then inr (JObj [])
  else match skip_ws text with
       | String c _ =>
           if Ascii.eqb c "{" || Ascii.eqb c "[" then
             match JSON_parse text with
             | Some j => inr j
             | None => inl (HttpError 400 (syntax_message text))
             end
           else inl (HttpError 400 (syntax_message text))
       | EmptyString => inl (HttpError 400 (syntax_message text))
       end.

(** [req.body] as the handlers read it: the members of an object; an
    array has none of the keys they read. *)
Definition body_fields (j : json) : list (string * json) :=
  match j with JObj fs => fs | _ => [] end.

(** What [res.status(st).json(body)] puts on the wire: the status and
    [JSON.stringify(body)], nothing with a 204. *)
Definition wire (res : response) : Z * string :=
  (res_status res, match res_body res with Some j => stringify j | None => EmptyString end).

(** The body parser, then the route and its answer. *)
Definition exchange (r : route) (salt : string) (hr : http_request) (sv : server)
  : server * (Z * string) :=
  let route_with body :=
    let '(sv', res) := serve dirname r salt (mk_request body (http_authorization hr) (http_files hr)) sv in
    (sv', wire res) in
  match http_json hr with
  | None => route_with []
  | Some text =>
      match body_parser text with
      | inl e => (sv, wire (error_handler e))
      | inr j => route_with (body_fields j)
      end
  end.

(** ** Lemmas *)

Lemma stringify_object fs : exists t, stringify (JObj fs) = String "{" t.
Proof. by eexists. Qed.

(** The text of a JSON object passes the body parser as that object. *)
Lemma body_parser_object fs :
  String.length (stringify (JObj fs)) <= body_limit -> body_parser (stringify (JObj fs)) = inr (JObj fs).
Proof.
  intros Hl. unfold body_parser. rewrite (proj2 (Nat.ltb_ge _ _) Hl).
  destruct (stringify_object fs) as [t Ht].
  rewrite Ht, skip_ws_solid by done. simpl.
  by rewrite <- Ht, JSON_parse_stringify.
Qed.

Lemma wire_error_400 m : wire (error_handler (HttpError 400 m)) = (400%Z, stringify (JObj [("message", JStr m)])).
Proof. reflexivity. Qed.

(** The text [wire] sends reads back, with [JSON.parse], as the body. *)
Lemma wire_json res : JSON_parse (wire res).2 = res_body res.
Proof. unfold wire. destruct (res_body res) as [j|]; [apply JSON_parse_stringify | reflexivity]. Qed.

(** A request whose body is the text of an object is served on that object. *)
Lemma exchange_object r salt fs auth files sv :
  String.length (stringify (JObj fs)) <= body_limit ->
  exchange r salt (mk_http_request auth (Some (stringify (JObj fs))) files) sv =
  let '(sv', res) := serve dirname r salt (mk_request fs auth files) sv in (sv', wire res).
Proof. intros Hl. unfold exchange. cbn [http_json http_authorization http_files]. by rewrite body_parser_object. Qed.

(** The HTTP exchange refines [serve]: a request whose body is the
    text of a JSON object changes the server as [serve] does on that
    object, is answered with [serve]'s status, and its text is read back
    by [JSON.parse] as [serve]'s body (no text for a 204). *)
Theorem exchange_refines_serve r salt fs auth files sv :
  String.length (stringify (JObj fs)) <= body_limit ->
  let x := exchange r salt (mk_http_request auth (Some (stringify (JObj fs))) files) sv in
  let y := serve dirname r salt (mk_request fs auth files) sv in
  fst x = fst y /\ fst (snd x) = res_status (snd y) /\ JSON_parse (snd (snd x)) = res_body (snd y).
Proof.
  intros Hl. cbv zeta. rewrite exchange_object by done.
  destruct (serve dirname r salt _ sv) as [sv' res]. split_and!; [done | done | apply wire_json].
Qed.

(** A JSON body the parser refuses (not empty, and not the text of
    one object or one array) is answered 400 with [{ message }] on every
    route, before any handler runs: the server is unchanged. *)
Theorem exchange_malformed_body r salt auth text files sv :
  String.length text <= body_limit -> text <> EmptyString ->
  (forall j, JSON_parse text = Some j -> match j with JObj _ | JArr _ => False | _ => True end) ->
  exchange r salt (mk_http_request auth (Some text) files) sv =
  (sv, (400%Z, stringify (JObj [("message", JStr (syntax_message text))]))).
Proof.
  intros Hl Hne Hj. unfold exchange, body_parser. cbn [http_json]. rewrite (proj2 (Nat.ltb_ge _ _) Hl).
  destruct (String.eqb_spec text EmptyString) as [|_]; [done|].
  destruct (skip_ws text) as [|c t] eqn:Hs; [by rewrite wire_error_400|].
  destruct (Ascii.eqb_spec c "{") as [->|Hc1]; [|destruct (Ascii.eqb_spec c "[") as [->|Hc2]]; cbn [orb];
    try (by rewrite wire_error_400);
    (destruct (JSON_parse text) as [j|] eqn:Hp; [|by rewrite wire_error_400]);
    destruct (JSON_parse_head _ _ _ _ Hp Hs) as [Ho Ha];
    [destruct (Ho eq_refl) as [? ->] | destruct (Ha eq_refl) as [? ->]]; by destruct (Hj _ eq_refl).
Qed.

End Exchange.

(** ** Examples *)

Module WireExamples.
Import ExampleServices UsersExamples.

Definition demo_syntax_message (text : string) : string := "Unexpected token in JSON".

(** A body cut short: [{"email":]. *)
Definition cut_body : string := "{" +:+ quoted "email" +:+ ":".

Lemma exchange_malformed_body_witness :
  String.length cut_body <= body_limit /\ cut_body <> EmptyString /\
  (forall j, JSON_parse cut_body = Some j -> match j with JObj _ | JArr _ => False | _ => True end) /\
  exchange demo_dirname demo_syntax_message Login "salt" (mk_http_request None (Some cut_body) []) demo_server =
  (demo_server, (400%Z, stringify (JObj [("message", JStr (demo_syntax_message cut_body))]))).
Proof.
  assert (Hl : String.length cut_body <= body_limit) by (apply Nat.leb_le; vm_compute; reflexivity).
  split_and!; [exact Hl | done | vm_compute; done |].
  apply exchange_malformed_body; [exact Hl | done | vm_compute; done].
Defined.

End WireExamples.

End Wire.
