(* ===== verification/Router.v ===== *)
(** * Routing: which handler of [src/routes/api/users.js] a request reaches

    [users.js] builds an Express router: [router.post("/register")],
    [router.post("/login")], [router.post("/logout")],
    [router.get("/current")], [router.patch("/")] and
    [router.patch("/avatars")], exported and mounted by [app.js] under
    [/users] (as the route comments of [users.js] say; [app.js] is not
    under [src/]).  Express 4 matches them as [path-to-regexp] 0.1 does
    with Express's defaults (case-insensitive, not strict, route paths
    end-anchored, the mount path a prefix followed by [/] or the end):
    - [pathname]: the path without its query string;
    - [mount_strip]: the [/users] prefix and what the router sees after
      it ([req.url] with the matched part cut, ["/"] when nothing is left);
    - [path_matches]: [^<path>\/?$] with the [i] flag;
    - [route_request]: the first route, in the order of the source,
      whose path matches and which handles the method ([HEAD] is served
      by a [GET] route); an [OPTIONS] request no route handles is
      answered by the router with the methods of the routes whose path
      matches ([Allow]); anything else leaves the router ([NotFound]).
    [handle] is the application: the JSON body parser first, then the
    router, then [Wire.exchange].

    The theorems state the route table of [users.js] with its literal
    methods and paths: a request reaches a handler exactly by that table
    ([HEAD] with [GET]), its path read in any case with an optional [/]
    after [/users] and at the end (C29); [OPTIONS] is answered on the
    table's paths with the methods registered there (C30).  The lemmas
    [handle_head] and [handle_refines_serve] are Express's [HEAD] rule
    and the composition with [Wire.exchange]. *)

From S2P Require Import Prelude Http Json UserModel Validation Services Upload Handlers Wire.

Module Router.
Import Users Json Wire.

Inductive http_method : Type :=
  | GET | HEAD | POST | PATCH | OPTIONS
  | OtherMethod (m : string).

#[global] Instance http_method_eq_dec : EqDecision http_method.
Proof. solve_decision. Defined.

(** The method a route is registered with. *)
Definition route_method (r : route) : http_method :=
  match r with
  | Register | Login | Logout => POST
  | Current => GET
  | PatchSubscription | PatchAvatar => PATCH
  end.

(** The path a route is registered with. *)
Definition route_path (r : route) : string :=
  match r with
  | Register => "/register"
  | Login => "/login"
  | Logout => "/logout"
  | Current => "/current"
  | PatchSubscription => "/"
  | PatchAvatar => "/avatars"
  end.

(** The routes of the router, in the order of the source. *)
Definition routes : list route := [Register; Login; Logout; Current; PatchSubscription; PatchAvatar].

(** [app.use("/users", router)] *)
Definition mount : string := "/users".

(** ** Matching *)

(** [parseurl(req).pathname]: the path before the query string. *)
Fixpoint pathname (url : string) : string :=
  match url with
  | String c r => if Ascii.eqb c "?" then EmptyString else String c (pathname r)
  | EmptyString => EmptyString
  end.

(** [s] without its last character when that is [/]. *)
Fixpoint drop_slash (s : string) : string :=
  match s with
  | EmptyString => EmptyString
  | String c EmptyString => if Ascii.eqb c "/" then EmptyString else s
  | String c r => String c (drop_slash r)
  end.

(** [^<p>] with the [i] flag: [p] matched at the start of [q], each
    letter in either case; what follows the match. *)
Fixpoint strip_prefix_ci (p q : string) : option string :=
  match p, q with
  | EmptyString, _ => Some q
  | String c p', String d q' =>
      if Ascii.eqb (ascii_to_lower c) (ascii_to_lower d) then strip_prefix_ci p' q' else None
  | String _ _, EmptyString => None
  end.

(** A route path [p] compiled by path-to-regexp 0.1 (not strict, [end]):
    [^<p>\/?$] with the [i] flag, a trailing [/] of [p] made optional. *)
Definition path_matches (p q : string) : bool :=
  match strip_prefix_ci (drop_slash p) q with
  | Some EmptyString => true
  | Some (String c EmptyString) => Ascii.eqb c "/"
  | _ => false
  end.

(** The mount layer: [^\/users\/?(?=\/|$)] with the [i] flag (the
    optional [/] taken when a [/] or the end follows it), and the path
    the router then sees: the rest of the path, ["/"] when it is empty. *)
Definition mount_strip (q : string) : option string :=
  match strip_prefix_ci mount q with
  | None => None
  | Some EmptyString => Some "/"
  | Some (String c r) =>
      if Ascii.eqb c "/" then
        match r with
        | EmptyString => Some "/"
        | String c' _ => if Ascii.eqb c' "/" then Some r else Some (String c r)
        end
      else None
  end.

(** [route._handles_method(method)]: [HEAD] is served by a [GET] route. *)
Definition handles (r : route) (m : http_method) : bool :=
  bool_decide (m = route_method r) || (bool_decide (m = HEAD) && bool_decide (route_method r = GET)).

(** [route._options()]: the route's methods, [HEAD] added to [GET]. *)
Definition route_options (r : route) : list string :=
  match route_method r with
  | GET => ["GET"; "HEAD"]
  | POST => ["POST"]
  | PATCH => ["PATCH"]
  | HEAD => ["HEAD"]
  | OPTIONS => ["OPTIONS"]
  | OtherMethod m => [m]
  end.

(** [appendMethods]: add the methods not yet listed. *)
Definition append_methods (acc new : list string) : list string :=
  foldl (fun acc m => if bool_decide (m ∈ acc) then acc else acc ++ [m]) acc new.

Inductive dispatch : Type :=
  | Dispatch (r : route)
  | Allow (methods : list string)
  | NotFound.

(** [router.handle] on a pathname: the first route that matches and handles the
    method; for [OPTIONS], the methods of the routes that match. *)
Definition router (m : http_method) (q : string) : dispatch :=
  match mount_strip q with
  | None => NotFound
  | Some p =>
      let matching := List.filter (fun r => path_matches (route_path r) p) routes in
      match find (fun r => handles r m) matching with
      | Some r => Dispatch r
      | None =>
          if bool_decide (m = OPTIONS) then
            match foldl (fun acc r => append_methods acc (route_options r)) [] matching with
            | [] => NotFound
            | ms => Allow ms
            end
          else NotFound
      end
  end.

(** The request's method and URL: the router runs on the pathname. *)
Definition route_request (m : http_method) (url : string) : dispatch := router m (pathname url).

(** The spellings of a route's URL the router accepts: [/users], an
    optional [/], the route's path without its trailing [/], an optional
    [/], in any case. *)
Definition spelled_as (q : string) (r : route) : Prop :=
  exists s t, (s = EmptyString \/ s = "/") /\ (t = EmptyString \/ t = "/") /\
    to_lower q = mount +:+ s +:+ drop_slash (route_path r) +:+ t.

(** ** The application *)

Section App.
Context `{PasswordHasher} `{TokenService} `{Md5}.
Variable dirname : string.
Variable syntax_message : string -> string.

(** [res.send] on a [HEAD] request ends the response without its body. *)
Definition head_strip (m : http_method) (x : server * (Z * string)) : server * (Z * string) :=
  if bool_decide (m = HEAD) then (x.1, (x.2.1, EmptyString)) else x.

(** [express.json()], then the router: a route's exchange, the router's
    answer to [OPTIONS] ([res.send] of the methods), or nothing: the
    request leaves the router for the rest of [app.js]. *)
Definition handle (m : http_method) (url : string) (salt : string) (hr : http_request) (sv : server)
  : option (server * (Z * string)) :=
  let routed :=
    match route_request m url with
    | Dispatch r => Some (exchange dirname syntax_message r salt hr sv)
    | Allow ms => Some (sv, (200%Z, js_join "," ms))
    | NotFound => None
    end in
  option_map (head_strip m)
    match http_json hr with
    | Some text =>
        match body_parser syntax_message text with
        | inl e => Some (sv, wire (error_handler e))
        | inr _ => routed
        end
    | None => routed
    end.

End App.

(** ** Case-insensitive matching *)

Lemma lower_eqb_nonalpha c d : is_alpha d = false -> Ascii.eqb (ascii_to_lower c) d = Ascii.eqb c d.
Proof.
  intros Hd. unfold ascii_to_lower. destruct (is_upper c) eqn:Hu; [|done].
  destruct (Ascii.eqb_spec c d) as [<-|_]; [by unfold is_alpha in Hd; rewrite Hu in Hd|].
  destruct (Ascii.eqb_spec (ascii_of_nat (nat_of_ascii c + 32)) d) as [<-|]; [exfalso|done].
  unfold is_alpha, is_upper, is_lower in *. apply andb_true_iff in Hu as [H1 H2].
  apply Nat.leb_le in H1, H2. rewrite Ascii.nat_ascii_embedding in Hd by lia.
  rewrite (proj2 (Nat.leb_le 97 _)), (proj2 (Nat.leb_le _ 122)), orb_true_r in Hd by lia. done.
Qed.

Lemma to_lower_cons c s : to_lower (String c s) = String (ascii_to_lower c) (to_lower s).
Proof. reflexivity. Qed.

Lemma strip_prefix_ci_some p q r : strip_prefix_ci p q = Some r -> to_lower q = to_lower p +:+ to_lower r.
Proof.
  revert q. induction p as [|c p IH]; intros [|d q] H; cbn [strip_prefix_ci] in H; try discriminate.
  - by simplify_eq.
  - by simplify_eq.
  - destruct (Ascii.eqb_spec (ascii_to_lower c) (ascii_to_lower d)) as [E|]; [|done].
    by rewrite !to_lower_cons, (IH _ H), E, str_app_cons.
Qed.

Lemma strip_prefix_ci_app p s : strip_prefix_ci p (p +:+ s) = Some s.
Proof.
  induction p as [|c p IH]; [done|]. rewrite str_app_cons. cbn [strip_prefix_ci].
  by rewrite Ascii.eqb_refl.
Qed.

Lemma drop_slash_plain s : str_forall (fun c => negb (Ascii.eqb c "/")) s = true -> drop_slash s = s.
Proof.
  induction s as [|c [|c' r] IH]; [done| |]; cbn [str_forall]; intros (Hc & Hr)%andb_prop.
  - cbn [drop_slash]. by apply negb_true_iff in Hc as ->.
  - change (drop_slash (String c (String c' r))) with (String c (drop_slash (String c' r))). by rewrite IH.
Qed.

Lemma drop_slash_length s :
  String.length (drop_slash s) <= String.length s /\
  (String.length (drop_slash s) = String.length s -> drop_slash s = s).
Proof.
  induction s as [|c [|c' r] IH]; [done| |].
  - cbn [drop_slash]. destruct (Ascii.eqb c "/"); simpl; split; [lia|done|lia|done].
  - change (drop_slash (String c (String c' r))) with (String c (drop_slash (String c' r))).
    destruct IH as [IH1 IH2]. cbn [String.length] in *. split; [lia|]. intros H. rewrite IH2; [done|lia].
Qed.

Lemma strip_prefix_ci_lower p q : strip_prefix_ci p (to_lower q) = option_map to_lower (strip_prefix_ci p q).
Proof.
  revert q. induction p as [|c p IH]; intros [|d q]; try done.
  rewrite to_lower_cons. cbn [strip_prefix_ci]. rewrite ascii_to_lower_idem.
  by destruct (Ascii.eqb _ _).
Qed.

Lemma path_matches_lower p q : path_matches p (to_lower q) = path_matches p q.
Proof.
  unfold path_matches. rewrite strip_prefix_ci_lower.
  destruct (strip_prefix_ci _ q) as [[|c [|]]|]; try done.
  by apply lower_eqb_nonalpha.
Qed.

Lemma mount_strip_lower q : mount_strip (to_lower q) = option_map to_lower (mount_strip q).
Proof.
  unfold mount_strip. rewrite strip_prefix_ci_lower.
  destruct (strip_prefix_ci mount q) as [[|c r]|]; try done. cbn [option_map].
  rewrite to_lower_cons, lower_eqb_nonalpha by done. destruct (Ascii.eqb c "/"); [|done].
  destruct r as [|c' r]; [done|]. rewrite to_lower_cons, lower_eqb_nonalpha by done.
  by destruct (Ascii.eqb c' "/").
Qed.

Lemma pathname_lower url : pathname (to_lower url) = to_lower (pathname url).
Proof.
  induction url as [|c r IH]; [done|]. rewrite to_lower_cons. cbn [pathname].
  rewrite lower_eqb_nonalpha by done. destruct (Ascii.eqb c "?"); [done|].
  by rewrite IH, to_lower_cons.
Qed.

Lemma router_lower m q : router m (to_lower q) = router m q.
Proof.
  unfold router. rewrite mount_strip_lower. destruct (mount_strip q) as [p|]; [|done]. cbn [option_map].
  by rewrite (List.filter_ext _ (fun r => path_matches (route_path r) p)) by (intros; apply path_matches_lower).
Qed.


(** ** What a path matches *)

Lemma mount_strip_some q p : mount_strip q = Some p ->
  (p = "/" /\ (to_lower q = mount \/ to_lower q = mount +:+ "/")) \/
  (exists s, (s = EmptyString \/ s = "/") /\ to_lower q = mount +:+ s +:+ to_lower p).
Proof.
  unfold mount_strip. destruct (strip_prefix_ci mount q) as [rest|] eqn:E; [|done].
  apply strip_prefix_ci_some in E. change (to_lower mount) with mount in E. rewrite E.
  destruct rest as [|c r]; [intros [= <-]; left; split; [done|left; apply str_app_nil_r]|].
  destruct (Ascii.eqb_spec c "/") as [->|]; [|done].
  destruct r as [|c' r]; [intros [= <-]; left; by split; [|right]|].
  destruct (Ascii.eqb_spec c' "/") as [->|]; intros [= <-]; right.
  - exists "/". split; [by right|]. by rewrite to_lower_cons.
  - exists EmptyString. split; [by left|]. by rewrite str_app_nil_l.
Qed.

Lemma path_matches_true p q : path_matches p q = true ->
  exists t, (t = EmptyString \/ t = "/") /\ to_lower q = to_lower (drop_slash p) +:+ t.
Proof.
  unfold path_matches. destruct (strip_prefix_ci _ q) as [[|c [|]]|] eqn:E; try done;
    apply strip_prefix_ci_some in E.
  - intros _. exists EmptyString. split; [by left|]. by rewrite E.
  - intros Hc%Ascii.eqb_eq. subst c. exists "/". split; [by right|]. by rewrite E.
Qed.

Lemma route_base_lower r : to_lower (drop_slash (route_path r)) = drop_slash (route_path r).
Proof. by destruct r. Qed.

Lemma matched_spelled q p r : mount_strip q = Some p -> path_matches (route_path r) p = true -> spelled_as q r.
Proof.
  intros Hm Hp. apply path_matches_true in Hp as [t [Ht Hp]]. rewrite route_base_lower in Hp.
  destruct (mount_strip_some _ _ Hm) as [[-> Hq]|[s [Hs Hq]]].
  - destruct r, Ht; subst t; vm_compute in Hp; try discriminate.
    destruct Hq as [Hq|Hq]; [exists EmptyString, EmptyString | exists EmptyString, "/"];
      (split; [by left|]); (split; [by (left + right)|]); by rewrite Hq.
  - exists s, t. split_and!; [done | done |]. by rewrite Hq, Hp.
Qed.

(** No two routes' paths match the same path. *)
Lemma path_unique p r1 r2 :
  path_matches (route_path r1) p = true -> path_matches (route_path r2) p = true -> r1 = r2.
Proof.
  intros (t1 & Ht1 & H1)%path_matches_true (t2 & Ht2 & H2)%path_matches_true.
  rewrite H1, !route_base_lower in H2.
  destruct r1, r2; try done; destruct Ht1, Ht2; subst; vm_compute in H2; discriminate.
Qed.

Lemma matching_cases p :
  List.filter (fun r => path_matches (route_path r) p) routes = [] \/
  exists r, List.filter (fun r => path_matches (route_path r) p) routes = [r] /\ path_matches (route_path r) p = true.
Proof.
  unfold routes. cbn [List.filter].
  repeat match goal with |- context [path_matches (route_path ?r) p] => destruct (path_matches (route_path r) p) eqn:? end;
    first [by left | by right; eexists |
           exfalso; match goal with
                    | H1 : path_matches (route_path ?a) p = true, H2 : path_matches (route_path ?b) p = true |- _ =>
                        assert (a = b) by (eapply path_unique; eauto); discriminate
                    end].
Qed.

Lemma handles_spec r m : handles r m = true <-> m = route_method r \/ (m = HEAD /\ route_method r = GET).
Proof. unfold handles. by rewrite orb_true_iff, andb_true_iff, !bool_decide_eq_true. Qed.

(** ** What the router answers *)

Lemma router_dispatch_inv m q r : router m q = Dispatch r -> handles r m = true /\ spelled_as q r.
Proof.
  unfold router. destruct (mount_strip q) as [p|] eqn:Hm; [|done].
  destruct (find _ _) as [r'|] eqn:Hf.
  - intros [= <-]. apply List.find_some in Hf as [Hin Hh]. apply List.filter_In in Hin as [_ Hp].
    eauto using matched_spelled.
  - case_bool_decide; [destruct (foldl _ _ _)|]; done.
Qed.

Lemma router_spelled m q r : handles r m = true -> spelled_as q r -> router m q = Dispatch r.
Proof.
  intros [->|[-> Hg]]%handles_spec (s & t & Hs & Ht & Hq); rewrite <- router_lower, Hq;
    destruct r; try discriminate; destruct Hs, Ht; subst; reflexivity.
Qed.

Lemma router_allow_inv m q ms : router m q = Allow ms -> m = OPTIONS /\ exists r, spelled_as q r /\ ms = route_options r.
Proof.
  unfold router. destruct (mount_strip q) as [p|] eqn:Hm; [|done].
  destruct (find _ _); [done|]. case_bool_decide as Ho; [subst m|done]. intros H. split; [done|].
  destruct (matching_cases p) as [E|[r [E Hp]]]; rewrite E in H; cbn [foldl] in H; [done|].
  exists r. split; [eauto using matched_spelled|].
  destruct r; vm_compute in H; by injection H as <-.
Qed.

Lemma router_options q r : spelled_as q r -> router OPTIONS q = Allow (route_options r).
Proof. intros (s & t & Hs & Ht & Hq). rewrite <- router_lower, Hq. destruct r, Hs, Ht; subst; reflexivity. Qed.

Lemma find_ext {A} (f g : A -> bool) (l : list A) : (forall x, f x = g x) -> find f l = find g l.
Proof. intros Hfg. induction l as [|x l IH]; [done|]. cbn [find]. by rewrite Hfg, IH. Qed.

(** [HEAD] and [GET] reach the same routes. *)
Lemma router_head q : router HEAD q = router GET q.
Proof.
  unfold router. destruct (mount_strip q); [|done].
  by rewrite (find_ext (fun r => handles r HEAD) (fun r => handles r GET)) by (intros []; reflexivity).
Qed.

Lemma route_method_not_head r : route_method r <> HEAD.
Proof. by destruct r. Qed.

(** A request reaches a route exactly when the route handles its method
    and its path spells the route's URL. *)
Lemma route_request_dispatch_iff m url r :
  route_request m url = Dispatch r <-> handles r m = true /\ spelled_as (pathname url) r.
Proof.
  unfold route_request.
  split; [apply router_dispatch_inv | intros [??]; by apply router_spelled].
Qed.

(** The route table of [users.js], read off the definitions. *)
Lemma handles_table r m :
  handles r m = true <->
  (m, r) ∈ [(POST, Register); (POST, Login); (POST, Logout); (GET, Current); (HEAD, Current);
            (PATCH, PatchSubscription); (PATCH, PatchAvatar)].
Proof.
  rewrite handles_spec, !elem_of_cons, elem_of_nil. split.
  - intros [-> | [-> Hg]]; destruct r; try discriminate; cbn [route_method];
      repeat (first [left; reflexivity | right]).
  - intros H. repeat destruct H as [H|H]; simplify_eq; first [done | by left | by right].
Qed.

Lemma spelled_table q r :
  spelled_as q r <->
  exists s t, (s = EmptyString \/ s = "/") /\ (t = EmptyString \/ t = "/") /\
    to_lower q = "/users" +:+ s +:+
      match r with
      | Register => "/register" | Login => "/login" | Logout => "/logout"
      | Current => "/current" | PatchSubscription => EmptyString | PatchAvatar => "/avatars"
      end +:+ t.
Proof. by destruct r. Qed.

Lemma route_options_table r :
  route_options r = match r with Current => ["GET"; "HEAD"] | PatchSubscription | PatchAvatar => ["PATCH"] | _ => ["POST"] end.
Proof. by destruct r. Qed.

(** C29: The router of [users.js], mounted under [/users], sends a
    request to a handler exactly by this table: [POST] to [/register],
    [/login], [/logout], [GET] (and [HEAD]) to [/current], [PATCH] to
    [/] and to [/avatars]; the path, before any query string, is read in
    any case, with an optional [/] after [/users] and at the end: [post
    /USERS//Login/?next=1] logs in, [GET /users/login] and
    [POST /userslogin] reach no handler. *)
Theorem route_request_dispatch m url r :
  route_request m url = Dispatch r <->
  (m, r) ∈ [(POST, Register); (POST, Login); (POST, Logout); (GET, Current); (HEAD, Current);
            (PATCH, PatchSubscription); (PATCH, PatchAvatar)] /\
  exists s t, (s = EmptyString \/ s = "/") /\ (t = EmptyString \/ t = "/") /\
    to_lower (pathname url) = "/users" +:+ s +:+
      match r with
      | Register => "/register" | Login => "/login" | Logout => "/logout"
      | Current => "/current" | PatchSubscription => EmptyString | PatchAvatar => "/avatars"
      end +:+ t.
Proof. by rewrite route_request_dispatch_iff, handles_table, spelled_table. Qed.

(** C30: An [OPTIONS] request, which no route of [users.js] handles, is
    answered by the router exactly on the paths of the table, with the
    methods registered there: [POST] for [/register], [/login],
    [/logout]; [GET,HEAD] for [/current]; [PATCH] for [/] and
    [/avatars]. *)
Theorem route_request_allow m url ms :
  route_request m url = Allow ms <->
  m = OPTIONS /\
  exists r s t, (s = EmptyString \/ s = "/") /\ (t = EmptyString \/ t = "/") /\
    to_lower (pathname url) = "/users" +:+ s +:+
      match r with
      | Register => "/register" | Login => "/login" | Logout => "/logout"
      | Current => "/current" | PatchSubscription => EmptyString | PatchAvatar => "/avatars"
      end +:+ t /\
    ms = match r with Current => ["GET"; "HEAD"] | PatchSubscription | PatchAvatar => ["PATCH"] | _ => ["POST"] end.
Proof.
  unfold route_request. split.
  - intros (-> & r & Hr%spelled_table & ->)%router_allow_inv. split; [done|].
    destruct Hr as (s & t & Hs & Ht & Hq). exists r, s, t. by rewrite route_options_table.
  - intros [-> (r & s & t & Hs & Ht & Hq & ->)]. rewrite <- route_options_table.
    apply router_options, spelled_table. by exists s, t.
Qed.

Section AppProofs.
Context `{PasswordHasher} `{TokenService} `{Md5}.
Variable dirname : string.
Variable syntax_message : string -> string.

Lemma handle_dispatch m url r salt hr sv : route_request m url = Dispatch r ->
  handle dirname syntax_message m url salt hr sv = Some (head_strip m (exchange dirname syntax_message r salt hr sv)).
Proof.
  intros Hr. unfold handle. rewrite Hr.
  destruct (http_json hr) as [text|] eqn:Hj; [|done].
  destruct (body_parser syntax_message text) as [e|j] eqn:Hb; [|done].
  cbn [option_map]. unfold exchange. by rewrite Hj, Hb.
Qed.

(** From the text of the request to the text of the answer: a
    request with a route's method, on any spelling of its path, whose
    body is the text of a JSON object, changes the server as [serve]
    does for that route on that object, and is answered with [serve]'s
    status and a text [JSON.parse] reads back as [serve]'s body. *)
Theorem handle_refines_serve r url salt fs auth files sv :
  String.length (stringify (JObj fs)) <= body_limit -> spelled_as (pathname url) r ->
  let y := serve dirname r salt (mk_request fs auth files) sv in
  exists x, handle dirname syntax_message (route_method r) url salt (mk_http_request auth (Some (stringify (JObj fs))) files) sv = Some x /\
    x.1 = y.1 /\ x.2.1 = res_status y.2 /\ JSON_parse x.2.2 = res_body y.2.
Proof.
  intros Hl Hs. cbv zeta.
  rewrite (handle_dispatch _ _ r) by (apply router_spelled; [apply handles_spec; by left | done]).
  eexists. split; [done|]. unfold head_strip.
  rewrite bool_decide_false by apply route_method_not_head. rewrite exchange_object by done.
  destruct (serve dirname r salt _ sv) as [sv' res]. split_and!; [done | done | apply wire_json].
Qed.

(** A [HEAD] request is answered as the [GET] request on the same
    URL would be (the same state change and status, errors included),
    without a body. *)
Theorem handle_head url salt hr sv :
  handle dirname syntax_message HEAD url salt hr sv =
  option_map (fun x => (x.1, (x.2.1, EmptyString))) (handle dirname syntax_message GET url salt hr sv).
Proof.
  unfold handle, route_request. rewrite router_head.
  destruct (router GET (pathname url)); destruct (http_json hr) as [text|];
    try destruct (body_parser syntax_message text); reflexivity.
Qed.

End AppProofs.

(** ** Examples *)

Module RouterExamples.

Definition demo_url : string := "/USERS//Login/?next=1".

Example route_request_examples :
  route_request POST demo_url = Dispatch Login /\
  route_request HEAD "/users/current" = Dispatch Current /\
  route_request PATCH "/Users" = Dispatch PatchSubscription /\
  route_request OPTIONS "/users/current/" = Allow ["GET"; "HEAD"] /\
  route_request GET "/users/login" = NotFound /\
  route_request POST "/userslogin" = NotFound.
Proof. vm_compute. tauto. Qed.

End RouterExamples.

End Router.
