(* ===== verification/Api.v ===== *)
(** * The API as a transition system

    A state of the running service is a [Users.server] (the [User]
    collection and the disk); a step is one request served by one route
    of [src/routes/api/users.js], with any body, header, files and bcrypt
    salt.  [reachable init] is the set of states a sequence of requests
    leads to.  The theorems are the invariants of the service: the
    schema invariant of the collection, and the fact that no request
    ever adds or removes an account. *)

From S2P Require Import Prelude Http UserModel Validation Services Upload Handlers.

Module Api.
Import Users UsersFacts.

Section System.
Context `{PasswordHasher} `{TokenService} `{Md5}.
Variable dirname : string.

Inductive step : server -> server -> Prop :=
  | step_serve r salt req sv : step sv (fst (serve dirname r salt req sv)).

Inductive reachable (init : server) : server -> Prop :=
  | reach_init : reachable init init
  | reach_step sv sv' : reachable init sv -> step sv sv' -> reachable init sv'.

(** A store property kept by both updates holds in every reachable state. *)
Lemma reachable_preserves (Q : User.store -> Prop) init sv :
  (forall i s, s ∈ User.subscription_enum ->
     preserves Q (User.findByIdAndUpdate i (User.SetSubscription s))) ->
  (forall i a, preserves Q (User.findByIdAndUpdate i (User.SetAvatarURL a))) ->
  Q (db init) -> reachable init sv -> Q (db sv).
Proof.
  intros Hs Ha HQ. induction 1 as [|sv sv' _ IH Hstep]; [done|].
  destruct Hstep. by apply serve_preserves.
Qed.

Lemma update_keeps_wf u :
  (forall d, User.doc_wf d -> User.doc_wf (User.apply_update u d)) ->
  forall i, preserves User.store_wf (User.findByIdAndUpdate i u).
Proof. intros Hu i st st' r. by apply User.findByIdAndUpdate_wf. Qed.

Lemma update_keeps_emails E u :
  (forall d, User.email (User.apply_update u d) = User.email d) ->
  forall i, preserves (fun st => map User.email (User.docs st) = E) (User.findByIdAndUpdate i u).
Proof.
  intros Hu i st st' r HE Hupd. rewrite <- HE. by eapply User.findByIdAndUpdate_map.
Qed.

(** C2: The schema invariant of [usersSchema.js] (unique ids and
    emails, required paths present, [subscription] in its enum) holds
    in every state a sequence of requests reaches from a state where it
    holds: the only write that bypasses Mongoose's validators, the
    [findByIdAndUpdate] of PATCH /users, is guarded by the handler's
    [allowedSubscriptions] check. *)
Theorem reachable_store_wf init sv :
  User.store_wf (db init) -> reachable init sv -> User.store_wf (db sv).
Proof.
  apply reachable_preserves.
  - intros i s Hs. apply update_keeps_wf. intros d Hd. by apply User.apply_update_subscription_wf.
  - intros i a. apply update_keeps_wf, User.apply_update_avatar_wf.
Qed.

Lemma reachable_emails init sv :
  reachable init sv -> map User.email (User.docs (db sv)) = map User.email (User.docs (db init)).
Proof.
  intros Hr. eapply (reachable_preserves (fun st => map User.email (User.docs st) = _));
    [intros i s _; apply update_keeps_emails; by intros [] | intros i a; apply update_keeps_emails;
     by intros [] | done | exact Hr].
Qed.

(** C3: No request adds or removes an account: the list of emails of
    the collection is the same in every reachable state.  In
    particular POST /users/register never creates a user. *)
Theorem reachable_accounts_fixed init sv :
  reachable init sv -> map User.email (User.docs (db sv)) = map User.email (User.docs (db init)).
Proof. apply reachable_emails. Qed.

Lemma findOne_email_no_docs st e : User.docs st = [] -> User.findOne_email e st = None.
Proof. unfold User.findOne_email. by intros ->. Qed.

Lemma login_status_empty salt req sv :
  User.docs (db sv) = [] -> res_status (snd (serve dirname Login salt req sv)) <> 200%Z.
Proof.
  intros He.
  destruct (Joi.validateUser (body_get (req_body req) "email")
              (body_get (req_body req) "password")) eqn:Hv.
  - destruct sv as [st fs]. unfold serve, route_handler, login. rewrite Hv. cbn. done.
  - rewrite serve_login by done. rewrite findOne_email_no_docs by done. done.
Qed.

(** C4: Started with an empty collection, the service never lets
    anyone log in: every POST /users/login in every reachable state
    answers something other than 200. *)
Theorem no_login_from_empty_store init sv salt req :
  User.docs (db init) = [] -> reachable init sv ->
  res_status (snd (serve dirname Login salt req sv)) <> 200%Z.
Proof.
  intros He Hr. apply login_status_empty.
  pose proof (reachable_emails init sv Hr) as Hm. rewrite He in Hm.
  by apply map_eq_nil in Hm.
Qed.

End System.

(** ** The theorems on a concrete service *)

Import ExampleServices UsersExamples.

Lemma reachable_store_wf_witness :
  User.store_wf (db demo_server) /\
  reachable demo_dirname demo_server (fst (serve demo_dirname PatchSubscription "s" demo_patch demo_server)) /\
  User.store_wf (db (fst (serve demo_dirname PatchSubscription "s" demo_patch demo_server))).
Proof.
  assert (Hwf : User.store_wf (db demo_server)) by (apply (bool_decide_unpack _ (dec := User.store_wf_dec _)); vm_compute; exact I).
  assert (Hr : reachable demo_dirname demo_server
                 (fst (serve demo_dirname PatchSubscription "s" demo_patch demo_server)))
    by (eapply reach_step; [apply reach_init | constructor]).
  split; [exact Hwf | split; [exact Hr | exact (reachable_store_wf demo_dirname _ _ Hwf Hr)]].
Defined.

Lemma reachable_accounts_fixed_witness :
  reachable demo_dirname demo_server (fst (serve demo_dirname PatchSubscription "s" demo_patch demo_server)) /\
  map User.email (User.docs (db (fst (serve demo_dirname PatchSubscription "s" demo_patch demo_server)))) =
  map User.email (User.docs (db demo_server)).
Proof.
  assert (Hr : reachable demo_dirname demo_server
                 (fst (serve demo_dirname PatchSubscription "s" demo_patch demo_server)))
    by (eapply reach_step; [apply reach_init | constructor]).
  split; [exact Hr | exact (reachable_accounts_fixed demo_dirname _ _ Hr)].
Defined.

(** Bob registers on an empty service, then tries to log in. *)
Lemma no_login_from_empty_store_witness :
  User.docs (db empty_server) = [] /\
  reachable demo_dirname empty_server (fst (serve demo_dirname Register "s" demo_register empty_server)) /\
  res_status (snd (serve demo_dirname Login "s" demo_login
                        (fst (serve demo_dirname Register "s" demo_register empty_server)))) <> 200%Z.
Proof.
  assert (Hr : reachable demo_dirname empty_server
                 (fst (serve demo_dirname Register "s" demo_register empty_server)))
    by (eapply reach_step; [apply reach_init | constructor]).
  split; [reflexivity | split; [exact Hr |]].
  exact (no_login_from_empty_store demo_dirname empty_server _ "s" demo_login eq_refl Hr).
Defined.

End Api.
