(* ===== verification/Concurrency.v ===== *)
(** * Concurrent requests: the handlers with their await points

    Node runs the handlers of [src/routes/api/users.js] concurrently:
    a handler runs until its next [await], and while the awaited call is
    pending another request may run (spec section 5).  Here a handler is
    a [prog]: a tree whose [Await] nodes are its awaited calls, each an
    atomic action on the server (the collection and the disk), and whose
    leaves are the response or the error it ends with.  The progs of the
    routes are written from the source with one [Await] per [await]
    (and one per middleware: [passportAuthenticate] and multer).

    - [run] reads a prog sequentially; the first theorem is that it gives
      back the handlers of [Handlers.v], so the two readings agree.
    - [cstep] is the pool of pending requests: any pending request may
      take its next atomic step.  Every schedule terminates, every
      request is answered, a request alone is answered as [serve]
      answers it, and the store invariants hold at every point of every
      interleaving. *)

From S2P Require Import Prelude Http UserModel Validation Services Upload Handlers Api.

Module Concurrency.
Import Users UsersFacts Api.

(** ** Programs with await points *)

Inductive prog (A : Type) : Type :=
  | Ret (a : A)
  | Throw (e : thrown)
  | Await {B : Type} (act : stexn server thrown B) (k : B -> prog A).
Arguments Ret {A} a.
Arguments Throw {A} e.
Arguments Await {A B} act k.

Notation "'await' x <- m ;; k" := (Await m (fun x => k))
  (at level 62, x name, m at next level, right associativity) : api_scope.

(** The sequential reading: each awaited call runs to completion. *)
Fixpoint run {A} (p : prog A) : stexn server thrown A :=
  match p with
  | Ret a => ret a
  | Throw e => throw e
  | Await act k => bind act (fun b => run (k b))
  end.

(** ** The routes as programs *)

Section Progs.
Context `{PasswordHasher} `{TokenService} `{Md5}.
Variable dirname : string.

(** POST /users/register: [await User.findOne], [await bcrypt.hash],
    [await User.create]. *)
Definition register_p (salt : string) (req : request) : prog response :=
  let email := body_get (req_body req) "email" in
  let password := body_get (req_body req) "password" in
  match Joi.validateUser email password with
  | Some msg => Throw (HttpError 400 msg)
  | None =>
      let email := str_of email in
      let password := str_of password in
      await existingUser <- on_db (gets (User.findOne_email email)) ;;
      match existingUser with
      | Some _ => Throw (HttpError 409 "Email in use")
      | None =>
          let avatarURL := gravatar_url email in
          await hashedPassword <- ret (bcrypt_hash 10 salt password) ;;
          await user <- on_db (User.create
                           {| User.in_password := Some hashedPassword;
                              User.in_email := Some email;
                              User.in_subscription := None;
                              User.in_avatarURL := Some avatarURL;
                              User.in_token := None;
                              User.in_verify := None;
                              User.in_verificationToken := None |}) ;;
          let token := generateToken user in
          Ret (res_json 201 (jobj [("token", Some (JStr token));
                                   ("user", Some (user_json (User.email user) "starter"
                                                            (Some avatarURL)))]))
      end
  end.

(** POST /users/login: [await User.findOne], [await bcrypt.compare]. *)
Definition login_p (req : request) : prog response :=
  let email := body_get (req_body req) "email" in
  let password := body_get (req_body req) "password" in
  match Joi.validateUser email password with
  | Some msg => Throw (HttpError 400 msg)
  | None =>
      let email := str_of email in
      let password := str_of password in
      await user <- on_db (gets (User.findOne_email email)) ;;
      match user with
      | Some u =>
          await ok <- ret (bcrypt_compare password (User.password u)) ;;
          if ok then
            let token := generateToken u in
            Ret (res_json 200 (jobj [("token", Some (JStr token));
                                     ("user", Some (user_json (User.email u) "starter"
                                                              (User.avatarURL u)))]))
          else Throw (HttpError 401 "Invalid credentials")
      | None => Throw (HttpError 401 "Invalid credentials")
      end
  end.

(** POST /users/logout: [await User.findOne({ _id })]. *)
Definition logout_p (req : request) : prog response :=
  match req_authorization req with
  | None => Throw header_error
  | Some h =>
      let decodedToken := match bearer_part h with Some t => verifyToken t | None => None end in
      match decodedToken with
      | None => Throw (HttpError 401 "Token is invalid")
      | Some userId =>
          await user <- on_db (gets (User.findById userId)) ;;
          match user with
          | None => Throw (HttpError 401 "Not authorized")
          | Some _ => Ret (res_json 204 (jobj [("message", Some (JStr "Successful Log Out"))]))
          end
      end
  end.

(** GET /users/current: no await after the middleware. *)
Definition current_p (user : option User.user_doc) (req : request) : prog response :=
  match req_authorization req with
  | None => Throw header_error
  | Some h =>
      let token := bearer_part h in
      match user with
      | None => Throw (HttpError 401 "Token is invalid")
      | Some u =>
          Ret (res_json 200 (jobj [("token", option_map JStr token);
                                   ("user", Some (user_json (User.email u) (User.subscription u)
                                                            (User.avatarURL u)))]))
      end
  end.

(** PATCH /users: [await User.findByIdAndUpdate]. *)
Definition updateSubscription_p (user : User.user_doc) (req : request) : prog response :=
  let userId := User.uid user in
  let subscription := body_get (req_body req) "subscription" in
  if negb (js_includes allowedSubscriptions subscription) then
    Throw (HttpError 400 "Invalid subscription value")
  else
    await u <- on_db (User.findByIdAndUpdate userId (User.SetSubscription (str_of subscription))) ;;
    match u with
    | None => Throw (HttpError 404 "User not found")
    | Some u => Ret (res_json 200 (envelope u))
    end.

(** PATCH /users/avatars: [await fs.rename], [await User.findByIdAndUpdate]. *)
Definition updateAvatar_p (user : User.user_doc) (file : option uploaded_file) : prog response :=
  let userId := User.uid user in
  match file with
  | None => Throw (RuntimeError "TypeError: Cannot destructure property 'path' of 'req.file' as it is undefined.")
  | Some f =>
      let resultUpload := Path.join [avatrsDir dirname; originalname f] in
      await _ <- on_disk (Disk.rename (file_path f) resultUpload) ;;
      let avatarURL := Path.join ["avatars"; originalname f] in
      await u <- on_db (User.findByIdAndUpdate userId (User.SetAvatarURL avatarURL)) ;;
      match u with
      | None => Throw (HttpError 404 "User not found")
      | Some u => Ret (res_json 200 (envelope u))
      end
  end.

(** The middleware chain of each route; [passportAuthenticate] and
    [upload.single("avatar")] are one atomic step each. *)
Definition route_p (r : route) (salt : string) (req : request) : prog response :=
  match r with
  | Register => register_p salt req
  | Login => login_p req
  | Logout => logout_p req
  | Current => await u <- passportAuthenticate (req_authorization req) ;; current_p (Some u) req
  | PatchSubscription =>
      await u <- passportAuthenticate (req_authorization req) ;; updateSubscription_p u req
  | PatchAvatar =>
      await u <- passportAuthenticate (req_authorization req) ;;
      await f <- on_disk (multer_single "avatar" (tempDir dirname) (req_files req)) ;;
      updateAvatar_p u f
  end.

End Progs.

(** ** The sequential reading is the handler *)

Section Sequential.
Context `{PasswordHasher} `{TokenService} `{Md5}.
Variable dirname : string.

Ltac run_eq :=
  repeat first [ reflexivity | progress (unfold bind, ret, throw, gets; cbn) | case_match ].

Lemma run_register salt req sv : run (register_p salt req) sv = register salt req sv.
Proof. unfold register_p, register. run_eq. Qed.

Lemma run_login req sv : run (login_p req) sv = login req sv.
Proof. unfold login_p, login. run_eq. Qed.

Lemma run_logout req sv : run (logout_p req) sv = logout req sv.
Proof. unfold logout_p, logout. run_eq. Qed.

Lemma run_current u req sv : run (current_p u req) sv = current u req sv.
Proof. unfold current_p, current. run_eq. Qed.

Lemma run_updateSubscription u req sv :
  run (updateSubscription_p u req) sv = updateSubscription u req sv.
Proof. unfold updateSubscription_p, updateSubscription. run_eq. Qed.

Lemma run_updateAvatar u f sv :
  run (updateAvatar_p dirname u f) sv = updateAvatar dirname u f sv.
Proof. unfold updateAvatar_p, updateAvatar. run_eq. Qed.

Lemma run_route_p r salt req sv :
  run (route_p dirname r salt req) sv = route_handler dirname r salt req sv.
Proof.
  destruct r; cbn [route_p route_handler];
    [apply run_register | apply run_login | apply run_logout | ..];
    cbn [run]; unfold bind; destruct (passportAuthenticate _ sv) as [sv1 [e|u]]; try done.
  - apply run_current.
  - apply run_updateSubscription.
  - destruct (on_disk _ sv1) as [sv2 [e|f]]; [done | apply run_updateAvatar].
Qed.

(** Read sequentially, the program of every route, with its
    middleware chain and its await points, is the handler of
    [Handlers.v]: the concurrent model and the sequential one describe
    the same code. *)
Theorem route_p_run r salt req sv :
  run (route_p dirname r salt req) sv = route_handler dirname r salt req sv.
Proof. apply run_route_p. Qed.

End Sequential.

(** ** The pool of pending requests *)

(** One atomic step of a pending request: its awaited call runs, and
    the request goes on with the result, or ends with the error. *)
Definition tstep {A} (p : prog A) (sv : server) : option (server * prog A) :=
  match p with
  | Await act k =>
      Some (let '(sv', r) := act sv in
            (sv', match r with inl e => Throw e | inr b => k b end))
  | _ => None
  end.

(** A request's outcome, once it has one. *)
Definition outcome {A} (p : prog A) : option (thrown + A) :=
  match p with
  | Ret a => Some (inr a)
  | Throw e => Some (inl e)
  | Await _ _ => None
  end.

(** The response Express sends for a finished request. *)
Definition answer (p : prog response) : option response :=
  match outcome p with
  | Some (inr res) => Some res
  | Some (inl e) => Some (error_handler e)
  | None => None
  end.

Definition config : Type := server * list (prog response).

(** Any pending request of the pool may take its next step. *)
Inductive cstep : config -> config -> Prop :=
  | cstep_thread sv ts i p sv' p' :
      ts !! i = Some p -> tstep p sv = Some (sv', p') ->
      cstep (sv, ts) (sv', <[i := p']> ts).

Definition all_answered (c : config) : Prop := Forall (fun p => is_Some (outcome p)) c.2.

(** ** Lemmas: steps make a request smaller *)

Definition prog_lt {A} (p' p : prog A) : Prop :=
  match p with
  | Await _ k => (exists b, p' = k b) \/ (exists e, p' = Throw e)
  | _ => False
  end.

Lemma prog_lt_wf {A} : well_founded (@prog_lt A).
Proof.
  intros p. induction p as [a|e|B act k IH]; constructor; simpl; [done | done |].
  intros p' [[b ->]|[e ->]]; [apply IH | by constructor].
Qed.

Lemma tstep_lt {A} (p p' : prog A) sv sv' : tstep p sv = Some (sv', p') -> prog_lt p' p.
Proof.
  destruct p as [| |B act k]; simpl; try done.
  destruct (act sv) as [s [e|b]]; intros [= <- <-]; eauto.
Qed.

Lemma tstep_outcome {A} (p : prog A) sv : outcome p = None -> exists sv' p', tstep p sv = Some (sv', p').
Proof. destruct p as [| |B act k]; simpl; try done. destruct (act sv); eauto. Qed.

Lemma outcome_tstep {A} (p : prog A) sv : is_Some (outcome p) -> tstep p sv = None.
Proof. destruct p; simpl; [done | done | by intros []]. Qed.

(** One request of the pool is smaller, the others are the same. *)
Definition threads_lt (ts' ts : list (prog response)) : Prop :=
  exists i p p', ts !! i = Some p /\ prog_lt p' p /\ ts' = <[i := p']> ts.

Lemma threads_lt_cons p r :
  Acc prog_lt p -> Acc threads_lt r -> Acc threads_lt (p :: r).
Proof.
  intros Hp. revert r. induction Hp as [p _ IHp]. intros r Hr.
  induction Hr as [r Hr IHr]. constructor. intros ts' (i & q & q' & Hi & Hlt & ->).
  destruct i as [|j]; simpl in Hi |- *.
  - injection Hi as <-. apply IHp; [done | by constructor].
  - apply IHr. by exists j, q, q'.
Qed.

Lemma threads_lt_wf : well_founded threads_lt.
Proof.
  intros ts. induction ts as [|p r IH].
  - constructor. by intros ts' (i & ? & ? & ? & _).
  - apply threads_lt_cons; [apply prog_lt_wf | exact IH].
Qed.

Lemma cstep_lt sv ts sv' ts' : cstep (sv, ts) (sv', ts') -> threads_lt ts' ts.
Proof. inversion 1; subst. exists i, p, p'. eauto using tstep_lt. Qed.

(** Every schedule of any set of pending requests terminates:
    there is no infinite sequence of steps of the pool, whatever order
    the event loop picks. *)
Theorem requests_terminate (c : config) : sn cstep c.
Proof.
  destruct c as [sv ts]. revert sv. induction (threads_lt_wf ts) as [ts _ IH]. intros sv.
  constructor. intros [sv' ts'] Hs. apply (IH ts'); [exact (cstep_lt _ _ _ _ Hs)].
Qed.

(** Every request is answered: from any pool there is a sequence
    of steps after which every request has a response or an error. *)
Theorem requests_answered (c : config) :
  exists c', rtc cstep c c' /\ all_answered c'.
Proof.
  destruct c as [sv ts]. revert sv. induction (threads_lt_wf ts) as [ts _ IH]. intros sv.
  destruct (decide (Forall (fun p => is_Some (outcome p)) ts)) as [Hall|Hn].
  - by exists (sv, ts).
  - apply not_Forall_Exists in Hn; [|apply _].
    apply Exists_exists in Hn as (p & Hin & Hp).
    apply list_elem_of_lookup in Hin as [i Hi].
    destruct (tstep_outcome p sv) as (sv' & p' & Ht); [by apply eq_None_not_Some|].
    assert (Hs : cstep (sv, ts) (sv', <[i := p']> ts)) by (econstructor; eauto).
    destruct (IH _ (cstep_lt _ _ _ _ Hs) sv') as (c' & Hr & Ha).
    exists c'. split; [eapply rtc_l; eauto | done].
Qed.

(** ** A request alone *)

Lemma cstep_single sv p c : cstep (sv, [p]) c -> exists sv' p', tstep p sv = Some (sv', p') /\ c = (sv', [p']).
Proof. inversion 1 as [? ? i ? sv' p' Hi Ht]; subst. destruct i as [|[]]; simplify_eq/=. eauto. Qed.

Lemma rtc_single_done sv p c : is_Some (outcome p) -> rtc cstep (sv, [p]) c -> c = (sv, [p]).
Proof.
  intros Ho [->|(c1 & (sv' & p' & Ht & ->)%cstep_single & _)]%rtc_inv; [done|].
  by rewrite outcome_tstep in Ht.
Qed.

Lemma alone_run (p : prog response) sv sv' q o :
  rtc cstep (sv, [p]) (sv', [q]) -> outcome q = Some o -> run p sv = (sv', o).
Proof.
  revert sv. induction p as [a|e|B act k IH]; intros sv Hr Ho.
  1,2: apply rtc_single_done in Hr; [by simplify_eq/= | by eexists].
  apply rtc_inv in Hr as [[= <- <-]|(c & (sv1 & p1 & Ht & ->)%cstep_single & Hr)]; [by simplify_eq/=|].
  simpl in Ht |- *. unfold bind. destruct (act sv) as [s1 [e|b]]; simplify_eq/=; [|by apply IH].
  apply rtc_single_done in Hr; [by simplify_eq/= | by eexists].
Qed.

Lemma answer_outcome p res :
  answer p = Some res -> exists o, outcome p = Some o /\
    res = match o with inl e => error_handler e | inr r => r end.
Proof. unfold answer. destruct (outcome p) as [[e|r]|]; intros; simplify_eq; eauto. Qed.

(** ** Invariants of the store under every interleaving *)

(** Every awaited call a program may still make keeps [Q]. *)
Fixpoint prog_ok {A} (Q : server -> Prop) (p : prog A) : Prop :=
  match p with
  | Await act k => preserves Q act /\ forall b, prog_ok Q (k b)
  | _ => True
  end.

Lemma tstep_ok {A} Q (p p' : prog A) sv sv' :
  Q sv -> prog_ok Q p -> tstep p sv = Some (sv', p') -> Q sv' /\ prog_ok Q p'.
Proof.
  destruct p as [| |B act k]; simpl; try done. intros HQ [Hact Hk].
  destruct (act sv) as [s1 r] eqn:E. intros [= <- <-].
  split; [by eapply Hact|]. by destruct r.
Qed.

Lemma rtc_cstep_ok Q sv ts c :
  Q sv -> Forall (prog_ok Q) ts -> rtc cstep (sv, ts) c -> Q c.1 /\ Forall (prog_ok Q) c.2.
Proof.
  intros HQ Hts Hr. remember (sv, ts) as c0 eqn:Hc0. revert sv ts HQ Hts Hc0.
  induction Hr as [c0|c0 c1 c2 Hs _ IH]; intros sv ts HQ Hts ->; [done|].
  inversion Hs as [? ? i p sv' p' Hi Ht]; subst.
  pose proof (proj1 (Forall_lookup _ _) Hts i p Hi) as Hp.
  destruct (tstep_ok _ _ _ _ _ HQ Hp Ht) as [HQ' Hp'].
  eapply IH; [exact HQ' | by apply Forall_insert | done].
Qed.

Section RouteOk.
Context `{PasswordHasher} `{TokenService} `{Md5}.
Variable dirname : string.
Context (Q : User.store -> Prop).
Hypothesis Q_subscription : forall i s, s ∈ User.subscription_enum ->
  preserves Q (User.findByIdAndUpdate i (User.SetSubscription s)).
Hypothesis Q_avatar : forall i a, preserves Q (User.findByIdAndUpdate i (User.SetAvatarURL a)).

Ltac ok_step :=
  match goal with
  | |- prog_ok _ (Ret _) => exact I
  | |- prog_ok _ (Throw _) => exact I
  | |- prog_ok _ (Await _ _) => split; [|intros ?]
  | |- _ /\ _ => split
  | |- forall _, _ => intros ?
  | |- prog_ok _ (let _ := _ in _) => cbv zeta
  | |- prog_ok _ (match ?x with _ => _ end) => destruct x eqn:?
  | |- preserves _ (ret _) => apply preserves_ret
  | |- preserves _ (on_db (gets _)) => apply preserves_on_db, preserves_gets
  | |- preserves _ (on_db (User.create _)) => apply preserves_on_db, preserves_create_no_token; done
  | |- preserves _ (on_db (User.findByIdAndUpdate _ (User.SetAvatarURL _))) =>
      apply preserves_on_db, Q_avatar
  | |- preserves _ (on_disk _) => apply preserves_on_disk
  | |- preserves _ (passportAuthenticate _) => apply preserves_passport
  end.

Lemma route_p_ok r salt req : prog_ok (fun sv => Q (db sv)) (route_p dirname r salt req).
Proof.
  destruct r; simpl;
    unfold register_p, login_p, logout_p, current_p, updateSubscription_p, updateAvatar_p;
    repeat ok_step.
  apply preserves_on_db, Q_subscription.
  apply js_includes_str_of. by apply negb_false_iff.
Qed.

End RouteOk.

(** The pools of requests of the service: each pending request is, or
    was, the program of a route. *)
Definition route_progs `{PasswordHasher} `{TokenService} `{Md5} (dirname : string)
    (rs : list (route * string * request)) : list (prog response) :=
  map (fun '(r, salt, req) => route_p dirname r salt req) rs.

Lemma route_progs_ok `{PasswordHasher} `{TokenService} `{Md5} dirname (Q : User.store -> Prop) rs :
  (forall i s, s ∈ User.subscription_enum ->
     preserves Q (User.findByIdAndUpdate i (User.SetSubscription s))) ->
  (forall i a, preserves Q (User.findByIdAndUpdate i (User.SetAvatarURL a))) ->
  Forall (prog_ok (fun sv => Q (db sv))) (route_progs dirname rs).
Proof.
  intros Hs Ha. induction rs as [|[[r salt] req] rs IH]; constructor; [by apply route_p_ok | exact IH].
Qed.

Lemma preserves_wf_emails E u :
  (forall d, User.doc_wf d -> User.doc_wf (User.apply_update u d)) ->
  forall i, preserves (fun st => User.store_wf st /\ map User.email (User.docs st) = E)
                      (User.findByIdAndUpdate i u).
Proof.
  intros Hu i st st' r [Hwf HE] Hupd. split.
  - by eapply update_keeps_wf.
  - exact (update_keeps_emails E u ltac:(intros d; by destruct u) i st st' r HE Hupd).
Qed.

(** A schedule: the indices of the requests that step, in order. *)
Fixpoint sched_run (sched : list nat) (c : config) : config :=
  match sched with
  | [] => c
  | i :: r =>
      match c.2 !! i with
      | Some p => match tstep p c.1 with
                  | Some (sv', p') => sched_run r (sv', <[i := p']> c.2)
                  | None => c
                  end
      | None => c
      end
  end.

Lemma sched_run_rtc sched c : rtc cstep c (sched_run sched c).
Proof.
  revert c. induction sched as [|i r IH]; intros [sv ts]; simpl; [done|].
  destruct (ts !! i) as [p|] eqn:Hi; [|done].
  destruct (tstep p sv) as [[sv' p']|] eqn:Ht; [|done].
  eapply rtc_l; [econstructor; eauto | apply IH].
Qed.

Section Claims.
Context `{PasswordHasher} `{TokenService} `{Md5}.
Variable dirname : string.

(** A request that runs alone, with no other request interleaved,
    is answered as the sequential [serve] answers it, in the same final
    state: the concurrent model refines the sequential one. *)
Theorem request_alone r salt req sv sv' q res :
  rtc cstep (sv, [route_p dirname r salt req]) (sv', [q]) -> answer q = Some res ->
  serve dirname r salt req sv = (sv', res).
Proof.
  intros Hr (o & Ho & ->)%answer_outcome.
  pose proof (alone_run _ _ _ _ _ Hr Ho) as Hrun. rewrite run_route_p in Hrun.
  unfold serve. rewrite Hrun. by destruct o.
Qed.

(** C24: Under any interleaving of any requests, at every point, the
    schema invariant of the collection holds and its emails are those
    it started with: concurrent registrations of one email, which the
    spec (section 5) says race between the existence check and the
    insert, never create an account, let alone two. *)
Theorem concurrent_store_invariants rs sv c :
  User.store_wf (db sv) -> rtc cstep (sv, route_progs dirname rs) c ->
  User.store_wf (db c.1) /\ map User.email (User.docs (db c.1)) = map User.email (User.docs (db sv)).
Proof.
  intros Hwf Hr.
  refine (proj1 (rtc_cstep_ok (fun sv' => User.store_wf (db sv') /\
                  map User.email (User.docs (db sv')) = map User.email (User.docs (db sv)))
                  sv _ c _ _ Hr)); [done|].
  apply (route_progs_ok dirname (fun st => User.store_wf st /\
                  map User.email (User.docs st) = map User.email (User.docs (db sv)))).
  - intros i s Hs. apply preserves_wf_emails. intros d. by apply User.apply_update_subscription_wf.
  - intros i a. apply preserves_wf_emails, User.apply_update_avatar_wf.
Qed.

End Claims.

(** ** Two updates of one user, interleaved *)

Lemma auth_user_id `{TokenService} h st u :
  auth_user h st = Some u -> forall st', auth_user h st' = User.findById (User.uid u) st'.
Proof.
  unfold auth_user. destruct (bearer_token h); [|done]. destruct (verifyToken s) as [id|]; [|done].
  intros Hf st'. unfold User.findById in Hf. by apply User.find_Some_In in Hf as [_ ->%Nat.eqb_eq].
Qed.

Lemma findById_uid i st x : User.findById i st = Some x -> User.uid x = i.
Proof. unfold User.findById. by intros [_ ?%Nat.eqb_eq]%User.find_Some_In. Qed.

Lemma tstep_on_db_update {A} i u sv x (k : option User.user_doc -> prog A) :
  User.findById i (db sv) = Some x ->
  tstep (Await (on_db (User.findByIdAndUpdate i u)) k) sv =
  Some ({| db := fst (User.findByIdAndUpdate i u (db sv)); disk := disk sv |},
        k (Some (User.apply_update u x))).
Proof. intros Hx. cbn. unfold on_db, User.findByIdAndUpdate. by rewrite Hx. Qed.

Lemma apply_update_comm s a x :
  User.apply_update (User.SetAvatarURL a) (User.apply_update (User.SetSubscription s) x) =
  User.apply_update (User.SetSubscription s) (User.apply_update (User.SetAvatarURL a) x).
Proof. reflexivity. Qed.

Section NoLostUpdate.
Context `{PasswordHasher} `{TokenService} `{Md5}.
Variables (dirname salt1 salt2 : string) (req1 req2 : request) (sv0 : server)
  (d : User.user_doc) (p0 : file_part).
Hypothesis Hwf0 : User.store_wf (db sv0).
Hypothesis Ha1 : auth_user (req_authorization req1) (db sv0) = Some d.
Hypothesis Ha2 : auth_user (req_authorization req2) (db sv0) = Some d.
Hypothesis Hsub : js_includes allowedSubscriptions (body_get (req_body req1) "subscription") = true.
Hypothesis Hfiles : req_files req2 = [p0].
Hypothesis Hfield : fieldname p0 = "avatar".
Hypothesis Hname : busboy_basename (filename p0) <> "".

Local Abbreviation uid0 := (User.uid d).
Local Abbreviation sub0 := (str_of (body_get (req_body req1) "subscription")).
Local Abbreviation name0 := (busboy_basename (filename p0)).
Local Abbreviation url0 := (Path.join ["avatars"; name0]).
Local Abbreviation tmp0 := (Path.join [tempDir dirname; name0]).

Definition upd1 (b : bool) (x : User.user_doc) : User.user_doc :=
  if b then User.apply_update (User.SetSubscription sub0) x else x.
Definition upd2 (b : bool) (x : User.user_doc) : User.user_doc :=
  if b then User.apply_update (User.SetAvatarURL url0) x else x.

(** Where PATCH /users is: before passport, before its update, done. *)
Inductive stage1 : prog response -> bool -> Prop :=
  | st1_start : stage1 (route_p dirname PatchSubscription salt1 req1) false
  | st1_auth u : User.uid u = uid0 -> stage1 (updateSubscription_p u req1) false
  | st1_done res : stage1 (Ret res) true.

(** Where PATCH /users/avatars is, with the uploaded file on disk while
    it waits for [fs.rename]. *)
Inductive stage2 (fs : Disk.disk) : prog response -> bool -> Prop :=
  | st2_start : stage2 fs (route_p dirname PatchAvatar salt2 req2) false
  | st2_auth u : User.uid u = uid0 ->
      stage2 fs (Await (on_disk (multer_single "avatar" (tempDir dirname) (req_files req2)))
                   (fun f => updateAvatar_p dirname u f)) false
  | st2_uploaded u : User.uid u = uid0 -> is_Some (fs !! tmp0) ->
      stage2 fs (updateAvatar_p dirname u (Some {| file_path := tmp0; originalname := name0 |})) false
  | st2_renamed u : User.uid u = uid0 ->
      stage2 fs (Await (on_db (User.findByIdAndUpdate (User.uid u) (User.SetAvatarURL url0)))
                   (fun u' => match u' with
                              | None => Throw (HttpError 404 "User not found")
                              | Some u' => Ret (res_json 200 (envelope u'))
                              end)) false
  | st2_done res : stage2 fs (Ret res) true.

(** The user's document carries exactly the updates already done. *)
Definition inv (c : config) : Prop :=
  exists p1 p2 b1 b2, c.2 = [p1; p2] /\ stage1 p1 b1 /\ stage2 (disk c.1) p2 b2 /\
    User.store_wf (db c.1) /\ User.findById uid0 (db c.1) = Some (upd2 b2 (upd1 b1 d)).

Lemma passport_at h sv x :
  (forall st, auth_user h st = User.findById uid0 st) -> User.findById uid0 (db sv) = Some x ->
  passportAuthenticate h sv = (sv, inr x).
Proof. intros Ha Hx. unfold passportAuthenticate. by rewrite Ha, Hx. Qed.

Lemma step1_start sv x :
  User.findById uid0 (db sv) = Some x ->
  tstep (route_p dirname PatchSubscription salt1 req1) sv = Some (sv, updateSubscription_p x req1).
Proof. intros Hx. cbn [route_p tstep]. by rewrite (passport_at _ _ x (auth_user_id _ _ _ Ha1)). Qed.

Lemma step1_auth u sv x :
  User.uid u = uid0 -> User.findById uid0 (db sv) = Some x ->
  tstep (updateSubscription_p u req1) sv =
  Some ({| db := fst (User.findByIdAndUpdate uid0 (User.SetSubscription sub0) (db sv)); disk := disk sv |},
        Ret (res_json 200 (envelope (User.apply_update (User.SetSubscription sub0) x)))).
Proof. intros Hu Hx. unfold updateSubscription_p. rewrite Hsub, Hu. cbn [negb]. by rewrite (tstep_on_db_update _ _ _ _ _ Hx). Qed.

Lemma step2_start sv x :
  User.findById uid0 (db sv) = Some x ->
  tstep (route_p dirname PatchAvatar salt2 req2) sv =
  Some (sv, Await (on_disk (multer_single "avatar" (tempDir dirname) (req_files req2)))
              (fun f => updateAvatar_p dirname x f)).
Proof. intros Hx. cbn [route_p tstep]. by rewrite (passport_at _ _ x (auth_user_id _ _ _ Ha2)). Qed.

Lemma step2_auth u sv :
  tstep (Await (on_disk (multer_single "avatar" (tempDir dirname) (req_files req2)))
           (fun f => updateAvatar_p dirname u f)) sv =
  Some ({| db := db sv; disk := <[tmp0 := file_content p0]> (disk sv) |},
        updateAvatar_p dirname u (Some {| file_path := tmp0; originalname := name0 |})).
Proof. cbn. unfold on_disk. by rewrite Hfiles, multer_single_one. Qed.

Lemma step2_uploaded u sv c :
  disk sv !! tmp0 = Some c ->
  tstep (updateAvatar_p dirname u (Some {| file_path := tmp0; originalname := name0 |})) sv =
  Some ({| db := db sv; disk := <[Path.join [avatrsDir dirname; name0] := c]> (delete tmp0 (disk sv)) |},
        Await (on_db (User.findByIdAndUpdate (User.uid u) (User.SetAvatarURL url0)))
          (fun u' => match u' with
                     | None => Throw (HttpError 404 "User not found")
                     | Some u' => Ret (res_json 200 (envelope u'))
                     end)).
Proof. intros Hc. cbn. unfold on_disk, Disk.rename. by rewrite Hc. Qed.

Lemma sub0_enum : sub0 ∈ User.subscription_enum.
Proof. exact (js_includes_str_of _ _ Hsub). Qed.

Lemma inv_update b1 b2 sv u :
  User.store_wf (db sv) -> User.findById uid0 (db sv) = Some (upd2 b2 (upd1 b1 d)) ->
  (forall x, User.doc_wf x -> User.doc_wf (User.apply_update u x)) ->
  User.store_wf (fst (User.findByIdAndUpdate uid0 u (db sv))) /\
  User.findById uid0 (fst (User.findByIdAndUpdate uid0 u (db sv))) =
    Some (User.apply_update u (upd2 b2 (upd1 b1 d))).
Proof.
  intros Hwf Hx Hu. split.
  - by eapply User.findByIdAndUpdate_wf; [| | apply surjective_pairing].
  - by rewrite User.findById_after_update, Hx.
Qed.

Ltac inv_done :=
  repeat split; eauto using findById_uid; by constructor.

Lemma inv_step c c' : inv c -> cstep c c' -> inv c'.
Proof.
  intros (p1 & p2 & b1 & b2 & Hts & Hs1 & Hs2 & Hwf & Hx) Hst.
  destruct Hst as [sv ts i p sv' p' Hi Ht]; simpl in *; subst ts.
  destruct i as [|[|j]]; simplify_eq/=.
  - destruct Hs1 as [|u Hu|res]; [| |done].
    + rewrite (step1_start _ _ Hx) in Ht. simplify_eq.
      exists (updateSubscription_p (upd2 b2 (upd1 false d)) req1), p2, false, b2. cbn [fst snd db disk].
      split_and!; try first [done | by constructor]; apply st1_auth; eapply findById_uid, Hx.
    + rewrite (step1_auth _ _ _ Hu Hx) in Ht. simplify_eq.
      destruct (inv_update false b2 sv (User.SetSubscription sub0) Hwf Hx) as [Hwf' Hx'];
        [intros y Hy; apply User.apply_update_subscription_wf; [apply sub0_enum | exact Hy]|].
      exists (Ret (res_json 200 (envelope (User.apply_update (User.SetSubscription sub0)
                                             (upd2 b2 (upd1 false d)))))), p2, true, b2. cbn [fst snd db disk].
      split_and!; try first [done | by constructor]. rewrite Hx'. by destruct b2.
  - destruct Hs2 as [|u Hu|u Hu [c Hc]|u Hu|res]; [| | | |done].
    + rewrite (step2_start _ _ Hx) in Ht. simplify_eq.
      eexists p1, _, b1, false. cbn [fst snd db disk]. split_and!; try done. constructor; eapply findById_uid, Hx.
    + rewrite step2_auth in Ht. simplify_eq.
      eexists p1, _, b1, false. cbn [fst snd db disk]. split_and!; try done.
      constructor; [done | by rewrite lookup_insert_eq].
    + rewrite (step2_uploaded _ _ _ Hc) in Ht. simplify_eq.
      eexists p1, _, b1, false. cbn [fst snd db disk]. split_and!; try done. by constructor.
    + rewrite Hu in Ht. rewrite (tstep_on_db_update _ _ _ _ _ Hx) in Ht. simplify_eq.
      destruct (inv_update b1 false sv (User.SetAvatarURL url0) Hwf Hx) as [Hwf' Hx']; [intros; by apply User.apply_update_avatar_wf|].
      eexists p1, _, b1, true. cbn [fst snd db disk]. split_and!; try first [done | by constructor].
Qed.

Lemma inv_rtc c c' : inv c -> rtc cstep c c' -> inv c'.
Proof. intros Hc Hr. induction Hr as [|c0 c1 c2 Hs _ IH]; [done|]. apply IH. by eapply inv_step. Qed.

Lemma stage1_answered p b : stage1 p b -> is_Some (outcome p) -> b = true.
Proof.
  destruct 1 as [|u _|]; [by intros [] | | done].
  unfold updateSubscription_p. rewrite Hsub. by intros [].
Qed.

Lemma stage2_answered fs p b : stage2 fs p b -> is_Some (outcome p) -> b = true.
Proof. destruct 1; try done; by intros []. Qed.

(** C25: Concurrent PATCH /users and PATCH /users/avatars of one user
    lose no update: whatever the interleaving of their awaited calls,
    once both are answered the user's document has the new
    subscription and the new avatar URL.  [findByIdAndUpdate] sets one
    path each, so the two writes commute. *)
Theorem concurrent_updates_both_land c :
  rtc cstep (sv0, [route_p dirname PatchSubscription salt1 req1; route_p dirname PatchAvatar salt2 req2]) c ->
  all_answered c ->
  User.findById (User.uid d) (db c.1) =
    Some (User.apply_update (User.SetAvatarURL (Path.join ["avatars"; busboy_basename (filename p0)]))
            (User.apply_update (User.SetSubscription (str_of (body_get (req_body req1) "subscription"))) d)).
Proof.
  intros Hr Hans.
  assert (Hinv : inv c).
  { clear Hans. eapply inv_rtc; [|exact Hr].
    exists (route_p dirname PatchSubscription salt1 req1), (route_p dirname PatchAvatar salt2 req2), false, false.
    split_and!; try first [done | by constructor]. exact (auth_user_findById _ _ _ Ha1). }
  destruct Hinv as (p1 & p2 & b1 & b2 & Hts & Hs1 & Hs2 & _ & Hx).
  unfold all_answered in Hans. rewrite Hts in Hans.
  apply Forall_cons in Hans as [Hp1 [Hp2 _]%Forall_cons].
  rewrite (stage1_answered _ _ Hs1 Hp1), (stage2_answered _ _ _ Hs2 Hp2) in Hx. exact Hx.
Qed.

End NoLostUpdate.

(** ** The theorems on concrete pools *)

Module ConcurrencyExamples.
Import ExampleServices UsersExamples.

(** PATCH /users alone, scheduled to completion. *)
Definition patch_alone : config :=
  sched_run [0; 0] (demo_server, [route_p demo_dirname PatchSubscription "s" demo_patch]).

Definition patch_alone_prog : prog response := default (Throw header_error) (head patch_alone.2).

Lemma request_alone_witness :
  rtc cstep (demo_server, [route_p demo_dirname PatchSubscription "s" demo_patch])
    (patch_alone.1, [patch_alone_prog]) /\
  answer patch_alone_prog = Some (res_json 200 (envelope (User.apply_update (User.SetSubscription "business") alice))) /\
  serve demo_dirname PatchSubscription "s" demo_patch demo_server =
    (patch_alone.1, res_json 200 (envelope (User.apply_update (User.SetSubscription "business") alice))).
Proof.
  assert (Hc : patch_alone = (patch_alone.1, [patch_alone_prog])) by (vm_compute; reflexivity).
  assert (Hr : rtc cstep (demo_server, [route_p demo_dirname PatchSubscription "s" demo_patch])
                 (patch_alone.1, [patch_alone_prog])) by (rewrite <- Hc; apply sched_run_rtc).
  assert (Ha : answer patch_alone_prog =
               Some (res_json 200 (envelope (User.apply_update (User.SetSubscription "business") alice))))
    by (vm_compute; reflexivity).
  split_and!; [exact Hr | exact Ha | exact (request_alone demo_dirname _ _ _ _ _ _ _ Hr Ha)].
Defined.

(** Bob registers twice at once while Alice changes her plan. *)
Definition race_requests : list (route * string * request) :=
  [(Register, "s1", demo_register); (Register, "s2", demo_register);
   (PatchSubscription, "s3", demo_patch)].

Definition race_end : config :=
  sched_run [0; 1; 0; 1; 2; 0; 1; 2] (demo_server, route_progs demo_dirname race_requests).

Lemma concurrent_store_invariants_witness :
  User.store_wf (db demo_server) /\
  rtc cstep (demo_server, route_progs demo_dirname race_requests) race_end /\
  User.store_wf (db race_end.1) /\
  map User.email (User.docs (db race_end.1)) = map User.email (User.docs (db demo_server)).
Proof.
  assert (Hwf : User.store_wf (db demo_server))
    by (apply (bool_decide_unpack _ (dec := User.store_wf_dec _)); vm_compute; exact I).
  assert (Hr : rtc cstep (demo_server, route_progs demo_dirname race_requests) race_end)
    by apply sched_run_rtc.
  split_and!; [exact Hwf | exact Hr | ..];
    [exact (proj1 (concurrent_store_invariants demo_dirname _ _ _ Hwf Hr))
    | exact (proj2 (concurrent_store_invariants demo_dirname _ _ _ Hwf Hr))].
Defined.

(** PATCH /users and PATCH /users/avatars of Alice, interleaved: the
    avatar request authenticates first and updates last. *)
Definition both_patches : list (prog response) :=
  [route_p demo_dirname PatchSubscription "s1" demo_patch;
   route_p demo_dirname PatchAvatar "s2" avatar_request].

Definition both_end : config := sched_run [1; 0; 1; 1; 0; 1] (demo_server, both_patches).

Lemma concurrent_updates_both_land_witness :
  all_answered both_end /\
  User.findById 0 (db both_end.1) =
    Some (User.apply_update (User.SetAvatarURL "avatars/me.png")
            (User.apply_update (User.SetSubscription "business") alice)).
Proof.
  assert (Hans : all_answered both_end).
  { unfold all_answered. vm_compute. repeat constructor; eexists; reflexivity. }
  split; [exact Hans|].
  exact (concurrent_updates_both_land demo_dirname "s1" "s2" demo_patch avatar_request demo_server alice
           (mk_part "avatar" "../../me.png" "PNG")
           ltac:(apply (bool_decide_unpack _ (dec := User.store_wf_dec _)); vm_compute; exact I)
           ltac:(vm_compute; reflexivity) ltac:(vm_compute; reflexivity) ltac:(vm_compute; reflexivity)
           ltac:(reflexivity) ltac:(reflexivity) ltac:(vm_compute; discriminate)
           both_end (sched_run_rtc _ _) Hans).
Defined.

End ConcurrencyExamples.

End Concurrency.
