(* ===== verification/Accounts.v ===== *)
(** * An abstract specification of the user directory

    Seen from outside, the [User] collection of [src/db/usersSchema.js]
    is a finite map from an email (the schema's unique key) to the
    account stored under it: [view] reads the list-backed store of
    [UserModel.v] as a [gmap].  [dir_step] is what the directory
    promises: an account is read by its email, a fresh email may be
    registered with a well-formed account, and an existing account may
    have its subscription set to a value of the enum or its avatar URL
    replaced.

    The theorems are refinements: [User.create] and
    [User.findByIdAndUpdate] do, on the view, exactly the insertion and
    the in-place update of the map; every run of the service of
    [Api.v], whatever the requests, is a run of [dir_step]; and so is
    every interleaving of concurrent requests of [Concurrency.v]. *)

From S2P Require Import Prelude Http UserModel Validation Services Upload Handlers Api Concurrency.

Module Accounts.
Import Users UsersFacts Api.

Abbreviation directory := (gmap string User.user_doc) (only parsing).

Definition view_list (l : list User.user_doc) : directory :=
  list_to_map ((fun d => (User.email d, d)) <$> l).

(** The abstraction of a store. *)
Definition view (st : User.store) : directory := view_list (User.docs st).

(** The updates the directory allows on an existing account. *)
Definition update_allowed (u : User.user_update) : Prop :=
  match u with
  | User.SetSubscription s => s ∈ User.subscription_enum
  | User.SetAvatarURL _ => True
  end.

(** One change of the abstract directory. *)
Inductive dir_step : directory -> directory -> Prop :=
  | dir_stay m : dir_step m m
  | dir_update m e d u :
      m !! e = Some d -> update_allowed u ->
      dir_step m (<[e := User.apply_update u d]> m)
  | dir_register m d :
      m !! User.email d = None -> User.doc_wf d ->
      dir_step m (<[User.email d := d]> m).

(** ** The store operations on the view *)

Lemma view_list_cons d l : view_list (d :: l) = <[User.email d := d]> (view_list l).
Proof. done. Qed.

Lemma view_list_keys l : ((fun d => (User.email d, d)) <$> l).*1 = map User.email l.
Proof. induction l as [|d l IH]; [done|]. csimpl. by f_equal. Qed.

Lemma find_email_view l e :
  find (fun d => String.eqb (User.email d) e) l = view_list l !! e.
Proof.
  induction l as [|d l IH]; [done|]. cbn [find]. rewrite view_list_cons.
  destruct (String.eqb_spec (User.email d) e) as [<-|Hne].
  - by rewrite lookup_insert_eq.
  - by rewrite lookup_insert_ne.
Qed.

(** [findOne({ email })] is the lookup of the view. *)
Lemma findOne_email_view st e : User.findOne_email e st = view st !! e.
Proof. apply find_email_view. Qed.

Lemma view_snoc l d :
  User.email d ∉ map User.email l -> view_list (l ++ [d]) = <[User.email d := d]> (view_list l).
Proof.
  intros Hd. unfold view_list. rewrite fmap_app. apply list_to_map_snoc.
  by rewrite view_list_keys.
Qed.

Lemma view_update_first i f l d :
  (forall x, User.email (f x) = User.email x) -> NoDup (map User.email l) ->
  find (fun x => Nat.eqb (User.uid x) i) l = Some d ->
  view_list (User.update_first i f l) = <[User.email d := f d]> (view_list l).
Proof.
  intros Hf. induction l as [|x r IH]; [done|]. cbn [User.update_first find map].
  intros (Hx & Hr)%NoDup_cons. destruct (Nat.eqb (User.uid x) i).
  - intros [= <-]. rewrite !view_list_cons, Hf. by rewrite insert_insert_eq.
  - intros Hd. rewrite !view_list_cons, IH by done. apply insert_insert_ne.
    intros He. apply Hx. rewrite He. apply list_elem_of_In, in_map.
    by apply (User.find_Some_In _ _ _ Hd).
Qed.

Lemma findById_view st i d :
  User.store_wf st -> User.findById i st = Some d -> view st !! User.email d = Some d.
Proof.
  intros Hwf Hf. rewrite <- findOne_email_view. apply User.findOne_email_In; [done|].
  by apply (User.find_Some_In _ _ _ Hf).
Qed.

Lemma email_apply_update u x : User.email (User.apply_update u x) = User.email x.
Proof. by destruct u. Qed.

Lemma view_findByIdAndUpdate i u st d :
  User.store_wf st -> User.findById i st = Some d ->
  view (fst (User.findByIdAndUpdate i u st)) = <[User.email d := User.apply_update u d]> (view st).
Proof.
  intros Hwf Hf. unfold User.findByIdAndUpdate. rewrite Hf.
  apply view_update_first; [apply email_apply_update | apply Hwf | exact Hf].
Qed.

(** ** Refinement of the collection *)

(** A successful [User.create] inserts its document into the
    directory under its email, a key the directory did not have; the
    rest of the directory is unchanged. *)
Theorem create_refines obj st st' d :
  User.create obj st = (st', inr d) ->
  view st !! User.email d = None /\ view st' = <[User.email d := d]> (view st).
Proof.
  intros (_ & Ht & _ & ->)%User.create_ok_inv. pose proof (User.email_taken_false _ _ Ht) as Hn.
  split; [|by apply view_snoc].
  rewrite <- findOne_email_view. unfold User.findOne_email.
  destruct (find _ _) as [x|] eqn:Hx; [|done].
  apply User.find_Some_In in Hx as [Hin He%String.eqb_eq]. exfalso. apply Hn.
  rewrite <- He. apply list_elem_of_In, in_map, Hin.
Qed.

(** On a well-formed store, [User.findByIdAndUpdate(id, upd)]
    replaces, in the directory, the account of the user with that id by
    the updated one, under the same email, and changes nothing else;
    it answers that updated account. *)
Theorem update_refines i u st d :
  User.store_wf st -> User.findById i st = Some d ->
  view (fst (User.findByIdAndUpdate i u st)) = <[User.email d := User.apply_update u d]> (view st) /\
  snd (User.findByIdAndUpdate i u st) = inr (Some (User.apply_update u d)).
Proof.
  intros Hwf Hf. split; [by apply view_findByIdAndUpdate|].
  unfold User.findByIdAndUpdate. by rewrite Hf.
Qed.

(** ** Refinement of the service *)

Section Service.
Context `{PasswordHasher} `{TokenService} `{Md5}.
Variable dirname : string.

(** The states whose directory is reachable from [m0] by [dir_step]. *)
Definition simulates (m0 : directory) (st : User.store) : Prop :=
  User.store_wf st /\ rtc dir_step m0 (view st).

Lemma update_simulates m0 u i :
  update_allowed u -> (forall d, User.doc_wf d -> User.doc_wf (User.apply_update u d)) ->
  preserves (simulates m0) (User.findByIdAndUpdate i u).
Proof.
  intros Hu Hwfu st st' r [Hwf Hr] Hupd. split; [by eapply User.findByIdAndUpdate_wf|].
  destruct (User.findById i st) as [d|] eqn:Hf.
  - pose proof (view_findByIdAndUpdate i u st d Hwf Hf) as Hv. rewrite Hupd in Hv. simpl in Hv.
    rewrite Hv. eapply rtc_r; [exact Hr|]. eapply dir_update; [|done]. by eapply findById_view.
  - unfold User.findByIdAndUpdate in Hupd. rewrite Hf in Hupd. by injection Hupd as <- _.
Qed.

(** Both updates the handlers make keep a store simulated. *)
Lemma simulates_updates m0 :
  (forall i s, s ∈ User.subscription_enum ->
     preserves (simulates m0) (User.findByIdAndUpdate i (User.SetSubscription s))) /\
  (forall i a, preserves (simulates m0) (User.findByIdAndUpdate i (User.SetAvatarURL a))).
Proof.
  split.
  - intros i s Hs. apply update_simulates; [done|]. intros d. by apply User.apply_update_subscription_wf.
  - intros i a. apply update_simulates; [done | apply User.apply_update_avatar_wf].
Qed.

(** C19: Every run of the service refines the abstract directory: from
    a well-formed collection, the collection of any state a sequence of
    requests reaches is a directory [dir_step] reaches from the first
    one.  The service never changes an account otherwise than by the
    two updates the directory allows. *)
Theorem service_refines_directory init sv :
  User.store_wf (db init) -> reachable dirname init sv ->
  rtc dir_step (view (db init)) (view (db sv)).
Proof.
  intros Hwf Hr.
  destruct (simulates_updates (view (db init))) as [Hs Ha].
  by apply (reachable_preserves dirname (simulates (view (db init))) init sv).
Qed.

(** C28: Every interleaving of any requests refines the abstract
    directory: at every point of every schedule of the pool, the
    collection is a directory [dir_step] reaches from the initial one. *)
Theorem concurrent_refines_directory rs sv c :
  User.store_wf (db sv) -> rtc Concurrency.cstep (sv, Concurrency.route_progs dirname rs) c ->
  rtc dir_step (view (db sv)) (view (db c.1)).
Proof.
  intros Hwf Hr.
  refine (proj2 (proj1 (Concurrency.rtc_cstep_ok (fun sv' => simulates (view (db sv)) (db sv'))
                          sv _ c _ _ Hr))); [done|].
  destruct (simulates_updates (view (db sv))) as [Hs Ha].
  by apply (Concurrency.route_progs_ok dirname (simulates (view (db sv)))).
Qed.

End Service.

(** ** The theorems on concrete stores *)

Import ExampleServices UsersExamples.

Lemma create_refines_witness :
  User.create User.carol_input User.empty_store =
    (User.carol_store, inr (User.to_doc 0 (User.with_defaults User.carol_input))) /\
  view User.carol_store =
    <["carol@example.com" := User.to_doc 0 (User.with_defaults User.carol_input)]> (view User.empty_store).
Proof.
  assert (Hc : User.create User.carol_input User.empty_store =
               (User.carol_store, inr (User.to_doc 0 (User.with_defaults User.carol_input))))
    by (vm_compute; reflexivity).
  split; [exact Hc | exact (proj2 (create_refines _ _ _ _ Hc))].
Defined.

Lemma update_refines_witness :
  User.store_wf (db demo_server) /\ User.findById 0 (db demo_server) = Some alice /\
  view (fst (User.findByIdAndUpdate 0 (User.SetSubscription "business") (db demo_server))) =
    <["alice@example.com" := User.apply_update (User.SetSubscription "business") alice]>
      (view (db demo_server)).
Proof.
  assert (Hwf : User.store_wf (db demo_server))
    by (apply (bool_decide_unpack _ (dec := User.store_wf_dec _)); vm_compute; exact I).
  assert (Hf : User.findById 0 (db demo_server) = Some alice) by reflexivity.
  split_and!; [exact Hwf | exact Hf | exact (proj1 (update_refines 0 _ _ _ Hwf Hf))].
Defined.

Lemma service_refines_directory_witness :
  User.store_wf (db demo_server) /\
  reachable demo_dirname demo_server (fst (serve demo_dirname PatchSubscription "s" demo_patch demo_server)) /\
  rtc dir_step (view (db demo_server))
    (view (db (fst (serve demo_dirname PatchSubscription "s" demo_patch demo_server)))).
Proof.
  assert (Hwf : User.store_wf (db demo_server))
    by (apply (bool_decide_unpack _ (dec := User.store_wf_dec _)); vm_compute; exact I).
  assert (Hr : reachable demo_dirname demo_server
                 (fst (serve demo_dirname PatchSubscription "s" demo_patch demo_server)))
    by (eapply reach_step; [apply reach_init | constructor]).
  split_and!; [exact Hwf | exact Hr | exact (service_refines_directory demo_dirname _ _ Hwf Hr)].
Defined.

Lemma concurrent_refines_directory_witness :
  User.store_wf (db demo_server) /\
  rtc Concurrency.cstep (demo_server, Concurrency.route_progs demo_dirname
                                        Concurrency.ConcurrencyExamples.race_requests)
    Concurrency.ConcurrencyExamples.race_end /\
  rtc dir_step (view (db demo_server)) (view (db Concurrency.ConcurrencyExamples.race_end.1)).
Proof.
  assert (Hwf : User.store_wf (db demo_server))
    by (apply (bool_decide_unpack _ (dec := User.store_wf_dec _)); vm_compute; exact I).
  assert (Hr : rtc Concurrency.cstep (demo_server, Concurrency.route_progs demo_dirname
                                                 Concurrency.ConcurrencyExamples.race_requests)
                 Concurrency.ConcurrencyExamples.race_end) by apply Concurrency.sched_run_rtc.
  split_and!; [exact Hwf | exact Hr | exact (concurrent_refines_directory demo_dirname _ _ _ Hwf Hr)].
Defined.

End Accounts.
