(* ===== verification/Mailer.v ===== *)
(** * The verification mail: [src/routes/midleware/sendEmail.js]

    [sendVerificationEmail(email, verificationToken)] builds a nodemailer
    transport from a fixed configuration, a verification link with the
    token, fixed mail options, and returns a promise settled by the
    transport's callback: rejected with its error, or resolved with
    [info.response].  The transport is a function from the configuration
    and the options to the callback's outcome: the library sends, the
    code only wires its answer into the promise.  No route of
    [src/routes/api/users.js] calls this function.

    The link is meant for [GET /auth/verify/:verificationToken], a route
    that is not in the repository: [link_token] is the request a client
    makes for the link ([request_path]) at that route as Express 4 runs
    it ([verify_route]: path-to-regexp's end-anchored, case-insensitive
    parameter, then [decodeURIComponent], [pct_items] and
    [utf8_decode]).  The theorems: a token that is not empty and holds
    none of [/ ? # %] is read back (C22); a token holding one of them
    never is, since the code does not encode it (C23).  The client is
    taken to send the link's path as written: a browser would also
    percent-encode spaces and non-ASCII units, which the decoding gives
    back, and drop [.] and [..] segments. *)

From S2P Require Import Prelude Json Upload Router.

Module Mailer.

Record smtp_config : Type := mk_smtp {
  smtp_host : string;
  smtp_port : nat;
  smtp_user : string;
  smtp_pass : string
}.

Record mail_options : Type := mk_mail {
  mail_from : string;
  mail_to : string;
  mail_subject : string;
  mail_text : string
}.

(** The callback's arguments: [(error)] or [(null, info)]. *)
Inductive send_outcome : Type :=
  | SendError (error : string)
  | SendInfo (response : string).

Inductive promise (A : Type) : Type :=
  | Resolved (a : A)
  | Rejected (error : string).
Arguments Resolved {A} a.
Arguments Rejected {A} error.

(** [nodemailer.createTransport({ host, port, auth: { user, pass } })] *)
Definition transporter_config : smtp_config :=
  {| smtp_host := "smtp.ethereal.email"; smtp_port := 587;
     smtp_user := "lulu.wiegand@ethereal.email"; smtp_pass := "53nDtHFA6QYPcJSh3K" |}.

Definition link_base : string := "http://localhost:3000/auth/verify/".

(** [`http://localhost:3000/auth/verify/${verificationToken}`] *)
Definition verificationLink (verificationToken : string) : string :=
  link_base +:+ verificationToken.

Definition mailOptions (email verificationToken : string) : mail_options :=
  {| mail_from := "your_email@gmail.com";
     mail_to := email;
     mail_subject := "Email Verification";
     mail_text := "Click the following link to verify your email: " +:+
                  verificationLink verificationToken |}.

(** The function: one [sendMail] call, its callback settles the promise. *)
Definition sendVerificationEmail (sendMail : smtp_config -> mail_options -> send_outcome)
    (email verificationToken : string) : promise string :=
  match sendMail transporter_config (mailOptions email verificationToken) with
  | SendError e => Rejected e
  | SendInfo r => Resolved r
  end.

(** ** The route the link is meant for

    [GET /auth/verify/:verificationToken] is not in the repository (spec
    4.8 gives the link's form [<base-url>/auth/verify/<token>]).  An HTTP
    client requesting the link sends its path, up to a [?] or a [#]
    ([request_path]); Express matches it against path-to-regexp 0.1's
    [^\/auth\/verify\/(?:([^\/]+?))\/?$] with the [i] flag and passes the
    parameter through [decode_param], that is [decodeURIComponent],
    whose [URIError] becomes a 400 ([verify_route]). *)

(** The characters that end the link's token on its way to the route:
    a path separator, the query, the fragment, and the escape [%]. *)
Definition is_url_delim (c : ascii) : bool :=
  Ascii.eqb c "/" || Ascii.eqb c "?" || Ascii.eqb c "#" || Ascii.eqb c "%".

Definition query_or_fragment (c : ascii) : bool := Ascii.eqb c "?" || Ascii.eqb c "#".

(** The path of a URL: what precedes its query or fragment. *)
Fixpoint path_part (s : string) : string :=
  match s with
  | EmptyString => EmptyString
  | String c r => if query_or_fragment c then EmptyString else String c (path_part r)
  end.

(** After [http://]: the authority runs to the first [/], [?] or [#];
    the path follows it, ["/"] when it is empty. *)
Fixpoint after_authority (s : string) : string :=
  match s with
  | EmptyString => "/"
  | String c r =>
      if Ascii.eqb c "/" then path_part s
      else if query_or_fragment c then "/"
      else after_authority r
  end.

Fixpoint strip_prefix (pre s : string) : option string :=
  match pre, s with
  | EmptyString, _ => Some s
  | String c p, String d r => if Ascii.eqb c d then strip_prefix p r else None
  | String _ _, EmptyString => None
  end.

(** The path a client requests for an [http] link. *)
Definition request_path (link : string) : option string :=
  match strip_prefix "http://" link with
  | Some r => Some (after_authority r)
  | None => None
  end.

(** [decodeURIComponent]'s input: a code unit, or a byte written [%XY]. *)
Inductive pct_item : Type :=
  | Lit (c : ascii)
  | Byte (b : N).

(** The escapes of a string; a [%] without two hexadecimal digits after
    it is a [URIError]. *)
Fixpoint pct_items (s : string) : option (list pct_item) :=
  match s with
  | EmptyString => Some []
  | String c r =>
      if Ascii.eqb c "%" then
        match r with
        | String a (String b r') =>
            match Json.hex_val a, Json.hex_val b, pct_items r' with
            | Some x, Some y, Some l => Some (Byte (N.of_nat (x * 16 + y)) :: l)
            | _, _, _ => None
            end
        | _ => None
        end
      else option_map (cons (Lit c)) (pct_items r)
  end.

(** What [decodeURIComponent] gives: a string, a [URIError], or a string
    with a code point above [U+00FF], which the model's strings (code
    units 0-255) cannot hold. *)
Inductive decoded : Type :=
  | Decoded (s : string)
  | URIError
  | Wide.

Definition dcons (c : ascii) (d : decoded) : decoded :=
  match d with Decoded s => Decoded (String c s) | e => e end.

Definition code_point (cp : N) (d : decoded) : decoded :=
  if (cp <? 256)%N then dcons (ascii_of_N cp) d
  else match d with URIError => URIError | _ => Wide end.

(** A UTF-8 continuation byte, [10xxxxxx]. *)
Definition cont (b : N) : bool := (128 <=? b)%N && (b <? 192)%N.

(** ECMA-262 Decode with an empty reserved set: each escaped byte
    sequence must be the UTF-8 encoding of one code point (no overlong
    form, no surrogate, at most [U+10FFFF]). *)
Fixpoint utf8_decode (l : list pct_item) : decoded :=
  match l with
  | [] => Decoded EmptyString
  | Lit c :: r => dcons c (utf8_decode r)
  | Byte b :: r =>
      if (b <? 128)%N then dcons (ascii_of_N b) (utf8_decode r)
      else if (b <? 194)%N then URIError
      else if (b <? 224)%N then
        match r with
        | Byte b2 :: r' =>
            if cont b2 then code_point ((b - 192) * 64 + (b2 - 128))%N (utf8_decode r') else URIError
        | _ => URIError
        end
      else if (b <? 240)%N then
        match r with
        | Byte b2 :: Byte b3 :: r' =>
            let cp := ((b - 224) * 4096 + (b2 - 128) * 64 + (b3 - 128))%N in
            if cont b2 && cont b3 && negb (cp <? 2048)%N && negb ((55296 <=? cp)%N && (cp <=? 57343)%N)
            then code_point cp (utf8_decode r') else URIError
        | _ => URIError
        end
      else if (b <? 245)%N then
        match r with
        | Byte b2 :: Byte b3 :: Byte b4 :: r' =>
            let cp := ((b - 240) * 262144 + (b2 - 128) * 4096 + (b3 - 128) * 64 + (b4 - 128))%N in
            if cont b2 && cont b3 && cont b4 && negb (cp <? 65536)%N && (cp <=? 1114111)%N
            then code_point cp (utf8_decode r') else URIError
        | _ => URIError
        end
      else URIError
  end.

(** What the verify route receives. *)
Inductive verify_request : Type :=
  | NoRoute
  | BadParam
  | WideParam
  | Param (token : string).

(** The route [/auth/verify/:verificationToken] on a path. *)
Definition verify_route (path : string) : verify_request :=
  match Router.strip_prefix_ci "/auth/verify/" path with
  | None => NoRoute
  | Some rest =>
      let seg := Router.drop_slash rest in
      if String.eqb seg EmptyString || str_exists (fun c => Ascii.eqb c "/") seg then NoRoute
      else match pct_items seg with
           | None => BadParam
           | Some l =>
               match utf8_decode l with
               | Decoded t => Param t
               | URIError => BadParam
               | Wide => WideParam
               end
           end
  end.

(** The request a client makes for a link, at the verify route. *)
Definition link_token (link : string) : verify_request :=
  match request_path link with
  | Some p => verify_route p
  | None => NoRoute
  end.

(** ** Lemmas *)

Lemma strip_prefix_app (pre s : string) : strip_prefix pre (pre +:+ s) = Some s.
Proof.
  induction pre as [|c p IH]; [done|]. rewrite str_app_cons. simpl.
  by rewrite Ascii.eqb_refl.
Qed.

Lemma not_url_delim c : negb (is_url_delim c) = true ->
  negb (Ascii.eqb c "/") = true /\ negb (query_or_fragment c) = true /\ negb (Ascii.eqb c "%") = true.
Proof.
  unfold is_url_delim, query_or_fragment.
  by destruct (Ascii.eqb c "/"), (Ascii.eqb c "?"), (Ascii.eqb c "#"), (Ascii.eqb c "%").
Qed.

Lemma url_delim_free c :
  negb (Ascii.eqb c "/") = true -> negb (query_or_fragment c) = true -> negb (Ascii.eqb c "%") = true ->
  negb (is_url_delim c) = true.
Proof.
  unfold is_url_delim, query_or_fragment.
  by destruct (Ascii.eqb c "/"), (Ascii.eqb c "?"), (Ascii.eqb c "#"), (Ascii.eqb c "%").
Qed.

Lemma str_forall_and (p q : ascii -> bool) s :
  str_forall p s = true -> str_forall q s = true -> str_forall (fun c => p c && q c) s = true.
Proof.
  induction s as [|c r IH]; [done|]. cbn [str_forall].
  intros (-> & Hp)%andb_prop (-> & Hq)%andb_prop. by apply IH.
Qed.

Lemma str_exists_forall p s : str_exists p s = true -> str_forall (fun c => negb (p c)) s = false.
Proof. induction s as [|c r IH]; [done|]. cbn. destruct (p c); [done|]. apply IH. Qed.

Lemma str_forall_impl (p q : ascii -> bool) s :
  (forall c, p c = true -> q c = true) -> str_forall p s = true -> str_forall q s = true.
Proof.
  intros Hpq. induction s as [|c r IH]; [done|]. cbn [str_forall].
  intros (Hc & Hr)%andb_prop. by rewrite Hpq, IH.
Qed.

Lemma path_part_app a s :
  str_forall (fun c => negb (query_or_fragment c)) a = true -> path_part (a +:+ s) = a +:+ path_part s.
Proof.
  induction a as [|c a IH]; [done|]. cbn [str_forall]. intros (Hc & Ha)%andb_prop.
  rewrite !str_app_cons. cbn [path_part]. apply negb_true_iff in Hc as ->. by rewrite IH.
Qed.

Lemma path_part_plain s :
  str_forall (fun c => negb (query_or_fragment c)) s = true -> path_part s = s.
Proof.
  induction s as [|c r IH]; [done|]. cbn [str_forall path_part]. intros (Hc & Hr)%andb_prop.
  apply negb_true_iff in Hc as ->. by rewrite IH.
Qed.

Lemma path_part_length s :
  String.length (path_part s) <= String.length s /\
  (String.length (path_part s) = String.length s ->
   str_forall (fun c => negb (query_or_fragment c)) s = true).
Proof.
  induction s as [|c r [IH1 IH2]]; [done|]. cbn [path_part str_forall].
  destruct (query_or_fragment c); cbn [String.length negb andb]; [split; [lia|done]|].
  split; [lia|]. intros H. apply IH2. lia.
Qed.

Lemma after_authority_app a s :
  str_forall (fun c => negb (Ascii.eqb c "/" || query_or_fragment c)) a = true ->
  after_authority (a +:+ s) = after_authority s.
Proof.
  induction a as [|c a IH]; [done|]. cbn [str_forall]. intros (Hc & Ha)%andb_prop.
  rewrite str_app_cons. cbn [after_authority].
  apply negb_true_iff, orb_false_iff in Hc as [-> ->]. by apply IH.
Qed.

Lemma str_exists_forall_neg' p s : str_forall (fun c => negb (p c)) s = true -> str_exists p s = false.
Proof. induction s as [|c r IH]; [done|]. cbn. intros (Hc & Hr)%andb_prop. apply negb_true_iff in Hc. by rewrite Hc, IH. Qed.

Fixpoint lits (s : string) : list pct_item :=
  match s with EmptyString => [] | String c r => Lit c :: lits r end.

Lemma pct_items_plain s : str_forall (fun c => negb (Ascii.eqb c "%")) s = true -> pct_items s = Some (lits s).
Proof.
  induction s as [|c r IH]; [done|]. cbn [str_forall]. intros (Hc & Hr)%andb_prop.
  cbn [pct_items]. apply negb_true_iff in Hc as ->. by rewrite IH.
Qed.

Lemma utf8_decode_lits s : utf8_decode (lits s) = Decoded s.
Proof. induction s as [|c r IH]; [done|]. cbn [lits utf8_decode]. by rewrite IH. Qed.

(** Every [%XY] turns three code units into one item. *)
Lemma pct_items_length n s l : String.length s <= n -> pct_items s = Some l ->
  List.length l <= String.length s /\
  (List.length l = String.length s -> str_forall (fun c => negb (Ascii.eqb c "%")) s = true).
Proof.
  revert s l. induction n as [|n IH]; intros [|c r] l Hn; cbn [String.length] in Hn; try lia;
    [intros [= <-]; done..|].
  cbn [pct_items str_forall]. destruct (Ascii.eqb c "%"); cbn [negb andb].
  - destruct r as [|a [|b r']]; [done|done|].
    destruct (Json.hex_val a), (Json.hex_val b); try done.
    destruct (pct_items r') as [l'|] eqn:Hp; [|done]. intros [= <-].
    destruct (IH r' l') as [H1 _]; [cbn [String.length] in Hn; lia | done |].
    cbn [String.length List.length]. split; lia.
  - destruct (pct_items r) as [l'|] eqn:Hp; [|done]. intros [= <-].
    destruct (IH r l') as [H1 H2]; [lia | done |]. cbn [List.length String.length].
    split; [lia|]. intros H. apply H2. lia.
Qed.

Lemma dcons_length c d s : dcons c d = Decoded s -> exists s', d = Decoded s' /\ String.length s = S (String.length s').
Proof. destruct d as [s'| |]; [intros [= <-]; by exists s' | done | done]. Qed.

Lemma code_point_length cp d s : code_point cp d = Decoded s -> exists s', d = Decoded s' /\ String.length s = S (String.length s').
Proof.
  unfold code_point. destruct (cp <? 256)%N; [apply dcons_length|]. by destruct d.
Qed.

(** Decoding never lengthens: each item gives at most one code unit. *)
Lemma utf8_decode_length n l s : List.length l <= n -> utf8_decode l = Decoded s -> String.length s <= List.length l.
Proof.
  revert l s. induction n as [|n IH]; intros [|it r] s Hn; cbn [List.length] in Hn; try lia;
    [intros [= <-]; simpl; lia..|].
  destruct it as [c|b]; cbn [utf8_decode].
  - intros (s' & Hd & ->)%dcons_length. cbn [List.length]. pose proof (IH r s' ltac:(lia) Hd). lia.
  - repeat match goal with |- context [if ?t then _ else _] => destruct t end;
      try done; try (intros (s' & Hd & ->)%dcons_length; cbn [List.length]; pose proof (IH r s' ltac:(lia) Hd); lia);
      repeat match goal with
             | |- context [match ?l with _ => _ end] =>
                 lazymatch l with
                 | utf8_decode _ => fail
                 | _ => destruct l; try done
                 end
             end;
      repeat match goal with |- context [if ?t then _ else _] => destruct t end; try done;
      intros (s' & Hd & ->)%code_point_length; cbn [List.length] in *;
      match type of Hd with utf8_decode ?r' = _ => pose proof (IH r' s' ltac:(lia) Hd) end; lia.
Qed.

(** C22: A token that is not empty and holds none of [/], [?], [#],
    [%] is read back from its verification link by the route the link
    targets: the path the client requests is [/auth/verify/] and the
    token, and [decodeURIComponent] leaves it as it is. *)
Theorem verification_link_roundtrip t :
  t <> EmptyString ->
  str_forall (fun c => negb (is_url_delim c)) t = true ->
  link_token (verificationLink t) = Param t.
Proof.
  intros Hne Ht.
  assert (Hq : str_forall (fun c => negb (query_or_fragment c)) t = true)
    by (revert Ht; apply str_forall_impl; intros c Hc; apply (not_url_delim c Hc)).
  assert (Hs : str_forall (fun c => negb (Ascii.eqb c "/")) t = true)
    by (revert Ht; apply str_forall_impl; intros c Hc; apply (not_url_delim c Hc)).
  assert (Hp : str_forall (fun c => negb (Ascii.eqb c "%")) t = true)
    by (revert Ht; apply str_forall_impl; intros c Hc; apply (not_url_delim c Hc)).
  unfold link_token, request_path, verificationLink.
  change link_base with ("http://" +:+ ("localhost:3000" +:+ String "/" ("auth/verify/"))).
  rewrite !str_app_assoc, strip_prefix_app, after_authority_app by reflexivity.
  rewrite str_app_cons. cbn [after_authority]. rewrite Ascii.eqb_refl, <- str_app_cons.
  rewrite path_part_app by reflexivity.
  rewrite path_part_plain by done. unfold verify_route. rewrite Router.strip_prefix_ci_app, Router.drop_slash_plain by done.
  destruct (String.eqb_spec t EmptyString) as [|_]; [done|].
  rewrite str_exists_forall_neg' by done. cbn [orb].
  by rewrite pct_items_plain, utf8_decode_lits.
Qed.

(** C23: The token is put in the link without URL encoding: a token
    holding a [/], a [?], a [#] or a [%] is never read back by the route
    the link targets (the route does not match, the path stops at the
    query or the fragment, or [decodeURIComponent] changes or refuses
    it), where [encodeURIComponent] would carry every token. *)
Theorem verification_link_truncates t :
  str_exists is_url_delim t = true ->
  link_token (verificationLink t) <> Param t.
Proof.
  intros Hd Hp. apply str_exists_forall in Hd.
  unfold link_token, request_path, verificationLink in Hp.
  change link_base with ("http://" +:+ ("localhost:3000" +:+ String "/" ("auth/verify/"))) in Hp.
  rewrite !str_app_assoc, strip_prefix_app, after_authority_app in Hp by reflexivity.
  rewrite str_app_cons in Hp. cbn [after_authority] in Hp. rewrite Ascii.eqb_refl, <- str_app_cons in Hp.
  rewrite path_part_app in Hp by reflexivity. unfold verify_route in Hp.
  rewrite Router.strip_prefix_ci_app in Hp.
  destruct (_ || _) eqn:Hseg in Hp; [done|]. apply orb_false_iff in Hseg as [_ Hsl].
  destruct (pct_items _) as [l|] eqn:Hi in Hp; [|done].
  destruct (utf8_decode l) as [s'| |] eqn:Hu in Hp; try done. injection Hp as ->.
  destruct (pct_items_length _ _ _ (le_n _) Hi) as [Hi1 Hi2].
  pose proof (utf8_decode_length _ _ _ (le_n _) Hu) as Hu1.
  destruct (Router.drop_slash_length (path_part t)) as [Hd1 Hd2].
  destruct (path_part_length t) as [Hq1 Hq2].
  assert (Hqt : str_forall (fun c => negb (query_or_fragment c)) t = true) by (apply Hq2; lia).
  assert (Hseg : Router.drop_slash (path_part t) = t) by (rewrite Hd2, path_part_plain by (done || lia); done).
  rewrite Hseg in Hi1, Hi2, Hsl. apply str_exists_forall_neg in Hsl. specialize (Hi2 ltac:(lia)).
  enough (Hall : str_forall (fun c => negb (is_url_delim c)) t = true) by congruence.
  apply (str_forall_impl (fun c => negb (Ascii.eqb c "/") && (negb (query_or_fragment c) && negb (Ascii.eqb c "%"))));
    [intros c (H1 & (H2 & H3)%andb_prop)%andb_prop; by apply url_delim_free|].
  by repeat apply str_forall_and.
Qed.

(** ** The theorems on concrete tokens *)

Lemma verification_link_roundtrip_witness :
  "f3a9c2" <> EmptyString /\
  str_forall (fun c => negb (is_url_delim c)) "f3a9c2" = true /\
  link_token (verificationLink "f3a9c2") = Param "f3a9c2".
Proof.
  assert (Ht : str_forall (fun c => negb (is_url_delim c)) "f3a9c2" = true) by reflexivity.
  assert (Hn : "f3a9c2" <> EmptyString) by discriminate.
  split; [exact Hn | split; [exact Ht | exact (verification_link_roundtrip _ Hn Ht)]].
Defined.

(** A token with a [/]: the route does not match the link at all. *)
Lemma verification_link_truncates_witness :
  str_exists is_url_delim "f3a9/c2" = true /\
  link_token (verificationLink "f3a9/c2") <> Param "f3a9/c2" /\
  link_token (verificationLink "f3a9/c2") = NoRoute.
Proof.
  assert (Ht : str_exists is_url_delim "f3a9/c2" = true) by reflexivity.
  split; [exact Ht | split; [exact (verification_link_truncates _ Ht) | vm_compute; reflexivity]].
Defined.

Example link_token_examples :
  link_token (verificationLink "a%20b") = Param "a b" /\
  link_token (verificationLink "a%zz") = BadParam /\
  link_token (verificationLink "caf%C3%A9") = Param ("caf" +:+ String (ascii_of_nat 233) EmptyString) /\
  link_token (verificationLink "%E2%82%AC") = WideParam /\
  link_token (verificationLink "%C0%AF") = BadParam /\
  link_token (verificationLink "ab?c=1") = Param "ab" /\
  link_token (verificationLink "ab/") = Param "ab".
Proof. vm_compute. repeat split. Qed.

End Mailer.
